(** * github-analysis-agent: the data collection and aggregation pipeline

    A shallow embedding of [src/api/github_api.py] (class [GitHubAPI]),
    of [collect_github_data] in [src/main.py] and of
    [extract_contributor_stats] in [src/utils/data_processor.py], with the
    properties of the pipeline stated and proved over it.

    Python values that come out of [response.json()] are modelled by the
    inductive type [json]; the operations the source applies to them
    ([dict.get], [in], [len], iteration, truthiness, [x[k]]) are modelled
    with the exceptions Python raises when the value has the wrong shape.
    Effectful code lives in a monad that threads the client state and an
    event trace, and that has three outcomes: a value, a raised exception,
    or running out of fuel (the page loops of the source have no bound;
    its recursion ends at the interpreter's limit, with [RecursionError]).

    Further sections embed what surrounds that pipeline: [load_config] in
    [src/main.py]; [save_repo_data], [get_latest_data_files] and
    [generate_repo_summary_text] in [src/utils/data_processor.py]; the
    repository input and the collection button of [src/app.py]; and the
    documents [setup_vector_db] builds in [src/agents/llm_agent.py]. *)

From Stdlib Require Import List String Ascii Bool Arith ZArith QArith Qminmax.
From Stdlib Require Import Lia Permutation Sorted DecimalString.
From Stdlib Require Import Lqa.
Import ListNotations.

Set Warnings "-register-all".
Local Open Scope string_scope.

(** ** Exceptions and pure results *)

Inductive exn : Type :=
| AttributeError
| TypeError
| KeyError (key : string)
| ValueError
| JSONDecodeError
| HTTPError (status : Z)
| RecursionError.

Inductive result (A : Type) : Type :=
| Ok (a : A)
| Raise (e : exn).

Arguments Ok {A} a.
Arguments Raise {A} e.

Definition rbind {A B} (r : result A) (f : A -> result B) : result B :=
  match r with
  | Ok a => f a
  | Raise e => Raise e
  end.

Declare Scope result_scope.
Delimit Scope result_scope with result.
Notation "x <-- r ;;; k" := (rbind r (fun x => k))
  (at level 61, r at next level, right associativity) : result_scope.

(** [[f(x) for x in xs]] for an [f] that may raise: elements are evaluated in
    order and the first exception aborts the comprehension. *)
Fixpoint rmap {A B} (f : A -> result B) (xs : list A) : result (list B) :=
  match xs with
  | [] => Ok []
  | x :: xs' =>
      match f x with
      | Raise e => Raise e
      | Ok y =>
          match rmap f xs' with
          | Raise e => Raise e
          | Ok ys => Ok (y :: ys)
          end
      end
  end.

(** [[x for x in xs if p(x)]] for a test [p] that may raise. *)
Fixpoint rfilter {A} (p : A -> result bool) (xs : list A) : result (list A) :=
  match xs with
  | [] => Ok []
  | x :: xs' =>
      match p x with
      | Raise e => Raise e
      | Ok b =>
          match rfilter p xs' with
          | Raise e => Raise e
          | Ok ys => Ok (if b then x :: ys else ys)
          end
      end
  end.

(** ** JSON payloads as Python sees them *)

(** The value of [response.json()]: [None], [bool], [int], [str], [list],
    [dict].  A [dict] is an association list read by its first binding for
    a key; JSON floats do not occur in the fields the pipeline reads. *)
Inductive json : Type :=
| JNull
| JBool (b : bool)
| JInt (n : Z)
| JStr (s : string)
| JArr (items : list json)
| JObj (fields : list (string * json)).

Module Py.

Fixpoint dict_lookup (k : string) (d : list (string * json)) : option json :=
  match d with
  | [] => None
  | (k', v) :: d' => if String.eqb k k' then Some v else dict_lookup k d'
  end.

(** [bool(v)] *)
Definition truthy (v : json) : bool :=
  match v with
  | JNull => false
  | JBool b => b
  | JInt n => negb (Z.eqb n 0)
  | JStr s => negb (String.eqb s "")
  | JArr l => match l with [] => false | _ => true end
  | JObj d => match d with [] => false | _ => true end
  end.

(** [v.get(k, default)]: only a [dict] has the method. *)
Definition get (v : json) (k : string) (default : json) : result json :=
  match v with
  | JObj d =>
      Ok (match dict_lookup k d with Some x => x | None => default end)
  | _ => Raise AttributeError
  end.

(** [v[k]] for a string key [k]. *)
Definition subscript (v : json) (k : string) : result json :=
  match v with
  | JObj d =>
      match dict_lookup k d with
      | Some x => Ok x
      | None => Raise (KeyError k)
      end
  | _ => Raise TypeError
  end.

Fixpoint is_prefix (p s : string) : bool :=
  match p, s with
  | EmptyString, _ => true
  | String a p', String b s' => Ascii.eqb a b && is_prefix p' s'
  | String _ _, EmptyString => false
  end.

(** [needle in hay] on strings *)
Fixpoint is_substring (needle hay : string) : bool :=
  is_prefix needle hay
  || match hay with
     | EmptyString => false
     | String _ hay' => is_substring needle hay'
     end.

(** [k in v] for a string [k]: a key of a dict, an element of a list, a
    substring of a string; the other values are not containers. *)
Definition contains (k : string) (v : json) : result bool :=
  match v with
  | JObj d => Ok (match dict_lookup k d with Some _ => true | None => false end)
  | JArr l =>
      Ok (existsb (fun x => match x with
                            | JStr s => String.eqb k s
                            | _ => false
                            end) l)
  | JStr s => Ok (is_substring k s)
  | _ => Raise TypeError
  end.

(** [len(v)] *)
Definition len (v : json) : result nat :=
  match v with
  | JStr s => Ok (String.length s)
  | JArr l => Ok (List.length l)
  | JObj d => Ok (List.length d)
  | _ => Raise TypeError
  end.

Fixpoint chars (s : string) : list json :=
  match s with
  | EmptyString => []
  | String a s' => JStr (String a EmptyString) :: chars s'
  end.

(** [iter(v)]: what [list.extend(v)] and [for x in v] go through. *)
Definition iter (v : json) : result (list json) :=
  match v with
  | JArr l => Ok l
  | JObj d => Ok (map (fun kv => JStr (fst kv)) d)
  | JStr s => Ok (chars s)
  | _ => Raise TypeError
  end.

Definition lower_ascii (a : ascii) : ascii :=
  let n := nat_of_ascii a in
  if (65 <=? n)%nat && (n <=? 90)%nat then ascii_of_nat (n + 32) else a.

Fixpoint lower_string (s : string) : string :=
  match s with
  | EmptyString => EmptyString
  | String a s' => String (lower_ascii a) (lower_string s')
  end.

(** [v.lower()]: only a [str] has the method. *)
Definition lower (v : json) : result string :=
  match v with
  | JStr s => Ok (lower_string s)
  | _ => Raise AttributeError
  end.

Definition newline : ascii := ascii_of_nat 10.

Fixpoint first_line (s : string) : string :=
  match s with
  | EmptyString => EmptyString
  | String a s' =>
      if Ascii.eqb a newline then EmptyString else String a (first_line s')
  end.

(** [v.split('\n')[0]]: only a [str] has [split]; the list it returns is
    never empty. *)
Definition split_first_line (v : json) : result json :=
  match v with
  | JStr s => Ok (JStr (first_line s))
  | _ => Raise AttributeError
  end.

(** [s.replace('/', '_')] *)
Fixpoint replace_slash (s : string) : string :=
  match s with
  | EmptyString => EmptyString
  | String a s' =>
      String (if Ascii.eqb a "/"%char then "_"%char else a) (replace_slash s')
  end.

End Py.

(** ** The client state, the transport and the effect monad *)

(** A GET request: the URL and the query parameters the pipeline sets.
    [since] is the datetime behind [since_date.isoformat()], in seconds. *)
Record request : Type := mkRequest {
  url : string;
  since : option Q;
  state_param : option string;
  page : option nat
}.

(** What the client reads of a [requests.Response]: the status code, the two
    rate-limit headers (absent, or the integer they spell) and the body,
    [None] when it is not JSON. *)
Record response : Type := mkResponse {
  status_code : Z;
  x_ratelimit_remaining : option Z;
  x_ratelimit_reset : option Z;
  body : option json
}.

Inductive level : Type := Info | Warning | Error.

Inductive log_msg : Type :=
| RateLimitLow
| RateLimitExceeded (sleep_time : Q)
| ApiRequestError (status : Z)
| FetchingData (repo : string) (days : Z)
| ErrorProcessingRepo (repo : string) (e : exn)
| CollectingData (repo : string)
| SavedData (repo : string)
| ErrorCollectingData (repo : string) (e : exn).

(** The observable effects, in the order they happen. *)
Inductive event : Type :=
| EGet (r : request)
| ESleep (seconds : Q)
| ELog (l : level) (m : log_msg)
| EWrite (repo_name : string) (stamp : Q) (content : json).

(** [rate_limit_remaining] is the field of the [GitHubAPI] object; [clock]
    is what [time.time()] and [datetime.now()] read, in seconds;
    [requests_sent] counts the GETs issued so far and [trace] records every
    effect. *)
Record state : Type := mkState {
  rate_limit_remaining : Z;
  clock : Q;
  requests_sent : nat;
  trace : list event
}.

(** The environment of a run: the upstream server, which answers the n-th
    request of the run, [datetime.strptime(_, '%Y-%m-%dT%H:%M:%SZ')], which
    returns the parsed datetime in seconds or fails with ValueError, and
    [datetime.isoformat()]. *)
Record env : Type := mkEnv {
  server : nat -> request -> response;
  strptime : string -> option Q;
  isoformat : Q -> string
}.

Inductive outcome (A : Type) : Type :=
| Ret (a : A) (s : state)
| Exn (e : exn) (s : state)
| OutOfFuel.

Arguments Ret {A} a s.
Arguments Exn {A} e s.
Arguments OutOfFuel {A}.

Definition M (A : Type) : Type := state -> outcome A.

Definition ret {A} (a : A) : M A := fun s => Ret a s.

Definition bind {A B} (m : M A) (f : A -> M B) : M B :=
  fun s =>
    match m s with
    | Ret a s' => f a s'
    | Exn e s' => Exn e s'
    | OutOfFuel => OutOfFuel
    end.

Definition raise {A} (e : exn) : M A := fun s => Exn e s.

Definition lift {A} (r : result A) : M A :=
  match r with
  | Ok a => ret a
  | Raise e => raise e
  end.

(** [try: m except Exception as e: h(e)] *)
Definition try_except {A} (m : M A) (h : exn -> M A) : M A :=
  fun s =>
    match m s with
    | Ret a s' => Ret a s'
    | Exn e s' => h e s'
    | OutOfFuel => OutOfFuel
    end.

Declare Scope monad_scope.
Delimit Scope monad_scope with monad.
Notation "x <- m ;; k" := (bind m (fun x => k))
  (at level 61, m at next level, right associativity) : monad_scope.
Notation "m ;; k" := (bind m (fun _ => k))
  (at level 61, right associativity) : monad_scope.

Local Open Scope monad_scope.

Definition emit (e : event) : M unit :=
  fun s => Ret tt (mkState (rate_limit_remaining s) (clock s)
                           (requests_sent s) (trace s ++ [e])%list).

(** [logging.info], [logging.warning], [logging.error] *)
Definition logging (l : level) (m : log_msg) : M unit := emit (ELog l m).

(** [time.time()] *)
Definition time_time : M Q := fun s => Ret (clock s) s.

(** [time.sleep(d)]: blocks for [d] seconds. *)
Definition time_sleep (d : Q) : M unit :=
  fun s => Ret tt (mkState (rate_limit_remaining s) (clock s + d)%Q
                           (requests_sent s) (trace s ++ [ESleep d])%list).

Definition get_rate_limit_remaining : M Z :=
  fun s => Ret (rate_limit_remaining s) s.

Definition set_rate_limit_remaining (n : Z) : M unit :=
  fun s => Ret tt (mkState n (clock s) (requests_sent s) (trace s)).

(** [requests.get(url, headers=self.headers, params=params)].  The time a
    request takes is not modelled: [clock] is moved by [time.sleep] only,
    so that it says how long the client has slept, not how long it has
    run. *)
Definition requests_get (E : env) (r : request) : M response :=
  fun s => Ret (server E (requests_sent s) r)
               (mkState (rate_limit_remaining s) (clock s)
                        (S (requests_sent s)) (trace s ++ [EGet r])%list).

(** [response.json()] *)
Definition response_json (r : response) : result json :=
  match body r with
  | Some j => Ok j
  | None => Raise JSONDecodeError
  end.

(** [response.raise_for_status()]: raises for 4xx and 5xx only. *)
Definition raise_for_status (r : response) : M unit :=
  if (400 <=? status_code r)%Z && (status_code r <? 600)%Z
  then raise (HTTPError (status_code r))
  else ret tt.

Definition default_Z (d : Z) (o : option Z) : Z :=
  match o with Some z => z | None => d end.

(** The test of the [elif] in [_make_request]:
    [response.status_code == 403 and
     'rate limit' in response.json().get('message', '').lower()] *)
Definition is_rate_limited (r : response) : result bool :=
  if (status_code r =? 403)%Z then
    (j <-- response_json r ;;;
     m <-- Py.get j "message" (JStr "") ;;;
     l <-- Py.lower m ;;;
     Ok (Py.is_substring "rate limit" l))%result
  else Ok false.

(** ** [GitHubAPI._make_request] *)

(** The source calls itself after a rate-limited answer, one Python frame
    per retry, with no counter of its own: what ends a run of retries is
    the interpreter's recursion limit.  [fuel] is the room that limit
    leaves, counted in calls: the number of nested calls that get as far as
    sending their request, this one included.  The call for which no room
    is left raises [RecursionError]; the model raises it where the source
    calls itself, after the sleep (in CPython the error comes up inside
    that call, in the first library call that needs more frames than are
    left). *)
Fixpoint _make_request (E : env) (fuel : nat) (r : request) : M json :=
  match fuel with
  | O => fun _ => OutOfFuel
  | S fuel' =>
      remaining <- get_rate_limit_remaining ;;
      (if (remaining <? 10)%Z
       then logging Warning RateLimitLow ;; time_sleep 60
       else ret tt) ;;
      response <- requests_get E r ;;
      set_rate_limit_remaining
        (default_Z 5000 (x_ratelimit_remaining response)) ;;
      if (status_code response =? 200)%Z then
        lift (response_json response)
      else
        limited <- lift (is_rate_limited response) ;;
        if limited then
          let reset_time := default_Z 0 (x_ratelimit_reset response) in
          now <- time_time ;;
          let sleep_time := (Qmax (inject_Z reset_time - now) 0 + 10)%Q in
          logging Warning (RateLimitExceeded sleep_time) ;;
          time_sleep sleep_time ;;
          match fuel' with
          | O => raise RecursionError
          | S _ => _make_request E fuel' r
          end
        else
          logging Error (ApiRequestError (status_code response)) ;;
          raise_for_status response ;;
          ret JNull
  end.

(** ** The paginated fetchers *)

(** The page loops are [while True] loops: [fuel] bounds their turns, and
    the request of a turn is made with the fuel the loop has left as its
    room for nested calls. *)

Definition base_url : string := "https://api.github.com".

(** [datetime.now()] *)
Definition datetime_now : M Q := fun s => Ret (clock s) s.

(** [timedelta(days=days)], in seconds *)
Definition timedelta_days (days : Z) : Q := inject_Z (days * 86400).

(** The [while True] loop of [get_commits], entered with [params["page"]]
    about to be set to [page]. *)
Fixpoint get_commits_loop (E : env) (fuel : nat) (u : string) (since_date : Q)
    (page : nat) (commits : list json) : M (list json) :=
  match fuel with
  | O => fun _ => OutOfFuel
  | S fuel' =>
      data <- _make_request E fuel
                (mkRequest u (Some since_date) None (Some page)) ;;
      if negb (Py.truthy data) then ret commits
      else
        items <- lift (Py.iter data) ;;
        let commits := (commits ++ items)%list in
        n <- lift (Py.len data) ;;
        if (n <? 30)%nat then ret commits
        else get_commits_loop E fuel' u since_date (S page) commits
  end.

Definition get_commits (E : env) (fuel : nat) (repo : string) (days : Z)
    : M (list json) :=
  now <- datetime_now ;;
  let since_date := (now - timedelta_days days)%Q in
  let u := base_url ++ "/repos/" ++ repo ++ "/commits" in
  get_commits_loop E fuel u since_date 1 [].

Fixpoint get_issues_loop (E : env) (fuel : nat) (u : string) (since_date : Q)
    (state : string) (page : nat) (issues : list json) : M (list json) :=
  match fuel with
  | O => fun _ => OutOfFuel
  | S fuel' =>
      data <- _make_request E fuel
                (mkRequest u (Some since_date) (Some state) (Some page)) ;;
      if negb (Py.truthy data) then ret issues
      else
        items <- lift (Py.iter data) ;;
        let issues := (issues ++ items)%list in
        n <- lift (Py.len data) ;;
        if (n <? 30)%nat then ret issues
        else get_issues_loop E fuel' u since_date state (S page) issues
  end.

Definition get_issues (E : env) (fuel : nat) (repo : string) (days : Z)
    (state : string) : M (list json) :=
  now <- datetime_now ;;
  let since_date := (now - timedelta_days days)%Q in
  let u := base_url ++ "/repos/" ++ repo ++ "/issues" in
  get_issues_loop E fuel u since_date state 1 [].

(** ['pull_request' in issue] and its negation, the two filters. *)
Definition has_pull_request (issue : json) : result bool :=
  Py.contains "pull_request" issue.

Definition lacks_pull_request (issue : json) : result bool :=
  (b <-- Py.contains "pull_request" issue ;;; Ok (negb b))%result.

Definition get_pull_requests (E : env) (fuel : nat) (repo : string) (days : Z)
    (state : string) : M (list json) :=
  issues <- get_issues E fuel repo days state ;;
  lift (rfilter has_pull_request issues).

(** [datetime.strptime(v, '%Y-%m-%dT%H:%M:%SZ')]: the first argument must
    be a [str]. *)
Definition strptime_py (E : env) (v : json) : result Q :=
  match v with
  | JStr s =>
      match strptime E s with
      | Some t => Ok t
      | None => Raise ValueError
      end
  | _ => Raise TypeError
  end.

(** The test of the comprehension in [get_releases]:
    [datetime.strptime(release['published_at'], ...) > since_date] *)
Definition published_after (E : env) (since_date : Q) (release : json)
    : result bool :=
  (p <-- Py.subscript release "published_at" ;;;
   t <-- strptime_py E p ;;;
   Ok (negb (Qle_bool t since_date)))%result.

Fixpoint get_releases_loop (E : env) (fuel : nat) (u : string) (days : Z)
    (page : nat) (releases : list json) : M (list json) :=
  match fuel with
  | O => fun _ => OutOfFuel
  | S fuel' =>
      data <- _make_request E fuel (mkRequest u None None (Some page)) ;;
      if negb (Py.truthy data) then ret releases
      else
        now <- datetime_now ;;
        let since_date := (now - timedelta_days days)%Q in
        rows <- lift (Py.iter data) ;;
        recent_releases <- lift (rfilter (published_after E since_date) rows) ;;
        let releases := (releases ++ recent_releases)%list in
        n <- lift (Py.len data) ;;
        if (n <? 30)%nat || (List.length recent_releases <? n)%nat
        then ret releases
        else get_releases_loop E fuel' u days (S page) releases
  end.

Definition get_releases (E : env) (fuel : nat) (repo : string) (days : Z)
    : M (list json) :=
  let u := base_url ++ "/repos/" ++ repo ++ "/releases" in
  get_releases_loop E fuel u days 1 [].

Definition get_repository_info (E : env) (fuel : nat) (repo : string) : M json :=
  _make_request E fuel (mkRequest (base_url ++ "/repos/" ++ repo) None None None).

(** ** Normalization: the loop bodies of [process_repo_data] *)

Local Open Scope result_scope.

(** The dict appended to [commit_data] for one raw [commit]. *)
Definition commit_record (commit : json) : result json :=
  author <-- Py.get commit "author" (JObj []) ;;;
  commit_info <-- Py.get commit "commit" (JObj []) ;;;
  sha <-- Py.get commit "sha" (JStr "") ;;;
  author_field <--
    (if Py.truthy author
     then Py.get author "login" (JStr "Unknown")
     else (a <-- Py.get commit_info "author" (JObj []) ;;;
           Py.get a "name" (JStr "Unknown"))) ;;;
  date <-- (a <-- Py.get commit_info "author" (JObj []) ;;;
            Py.get a "date" (JStr "")) ;;;
  message <-- (m <-- Py.get commit_info "message" (JStr "") ;;;
               Py.split_first_line m) ;;;
  html_url <-- Py.get commit "html_url" (JStr "") ;;;
  Ok (JObj [("sha", sha); ("author", author_field); ("date", date);
            ("message", message); ("url", html_url)]).

(** [[label.get('name', '') for label in v.get('labels', [])]] *)
Definition label_names (v : json) : result json :=
  labels <-- Py.get v "labels" (JArr []) ;;;
  rows <-- Py.iter labels ;;;
  names <-- rmap (fun label => Py.get label "name" (JStr "")) rows ;;;
  Ok (JArr names).

(** The dict appended to [issue_data] for one raw [issue]. *)
Definition issue_record (issue : json) : result json :=
  number <-- Py.get issue "number" (JStr "") ;;;
  title <-- Py.get issue "title" (JStr "") ;;;
  state <-- Py.get issue "state" (JStr "") ;;;
  created_at <-- Py.get issue "created_at" (JStr "") ;;;
  updated_at <-- Py.get issue "updated_at" (JStr "") ;;;
  author <-- (u <-- Py.get issue "user" (JObj []) ;;;
              Py.get u "login" (JStr "Unknown")) ;;;
  labels <-- label_names issue ;;;
  html_url <-- Py.get issue "html_url" (JStr "") ;;;
  Ok (JObj [("number", number); ("title", title); ("state", state);
            ("created_at", created_at); ("updated_at", updated_at);
            ("author", author); ("labels", labels); ("url", html_url)]).

(** The dict appended to [pr_data] for one raw [pr]. *)
Definition pr_record (pr : json) : result json :=
  number <-- Py.get pr "number" (JStr "") ;;;
  title <-- Py.get pr "title" (JStr "") ;;;
  state <-- Py.get pr "state" (JStr "") ;;;
  created_at <-- Py.get pr "created_at" (JStr "") ;;;
  updated_at <-- Py.get pr "updated_at" (JStr "") ;;;
  author <-- (u <-- Py.get pr "user" (JObj []) ;;;
              Py.get u "login" (JStr "Unknown")) ;;;
  labels <-- label_names pr ;;;
  html_url <-- Py.get pr "html_url" (JStr "") ;;;
  Ok (JObj [("number", number); ("title", title); ("state", state);
            ("created_at", created_at); ("updated_at", updated_at);
            ("author", author); ("labels", labels); ("url", html_url)]).

(** The dict appended to [release_data] for one raw [release]. *)
Definition release_record (release : json) : result json :=
  tag_name <-- Py.get release "tag_name" (JStr "") ;;;
  name <-- Py.get release "name" (JStr "") ;;;
  published_at <-- Py.get release "published_at" (JStr "") ;;;
  author <-- (u <-- Py.get release "author" (JObj []) ;;;
              Py.get u "login" (JStr "Unknown")) ;;;
  html_url <-- Py.get release "html_url" (JStr "") ;;;
  Ok (JObj [("tag_name", tag_name); ("name", name);
            ("published_at", published_at); ("author", author);
            ("url", html_url)]).

(** The ['repo_info'] entry of the snapshot. *)
Definition repo_info_record (repo_info : json) : result json :=
  full_name <-- Py.get repo_info "full_name" (JStr "") ;;;
  description <-- Py.get repo_info "description" (JStr "") ;;;
  stars <-- Py.get repo_info "stargazers_count" (JInt 0) ;;;
  forks <-- Py.get repo_info "forks_count" (JInt 0) ;;;
  open_issues <-- Py.get repo_info "open_issues_count" (JInt 0) ;;;
  html_url <-- Py.get repo_info "html_url" (JStr "") ;;;
  Ok (JObj [("full_name", full_name); ("description", description);
            ("stars", stars); ("forks", forks);
            ("open_issues", open_issues); ("url", html_url)]).

Local Close Scope result_scope.

(** [f"{days} days"] *)
Definition time_period (days : Z) : string :=
  NilZero.string_of_int (Z.to_int days) ++ " days".

(** The split of the issues endpoint's items (lines 141-142). *)
Definition classify (items : list json) : result (list json * list json) :=
  (pull_requests <-- rfilter has_pull_request items ;;;
   issues <-- rfilter lacks_pull_request items ;;;
   Ok (pull_requests, issues))%result.

(** ** [GitHubAPI.process_repo_data] *)

(** The body of the [try]. *)
Definition process_repo_data_body (E : env) (fuel : nat) (repo : string)
    (days : Z) : M json :=
  repo_info <- get_repository_info E fuel repo ;;
  commits <- get_commits E fuel repo days ;;
  issues <- get_issues E fuel repo days "all" ;;
  split <- lift (classify issues) ;;
  let pull_requests := fst split in
  let issues := snd split in
  releases <- get_releases E fuel repo days ;;
  commit_data <- lift (rmap commit_record commits) ;;
  issue_data <- lift (rmap issue_record issues) ;;
  pr_data <- lift (rmap pr_record pull_requests) ;;
  release_data <- lift (rmap release_record releases) ;;
  info <- lift (repo_info_record repo_info) ;;
  now <- datetime_now ;;
  ret (JObj [("repo_name", JStr repo);
             ("repo_info", info);
             ("commits", JArr commit_data);
             ("issues", JArr issue_data);
             ("pull_requests", JArr pr_data);
             ("releases", JArr release_data);
             ("time_period", JStr (time_period days));
             ("collection_date", JStr (isoformat E now))]).

Definition process_repo_data (E : env) (fuel : nat) (repo : string) (days : Z)
    : M json :=
  logging Info (FetchingData repo days) ;;
  try_except (process_repo_data_body E fuel repo days)
    (fun e => logging Error (ErrorProcessingRepo repo e) ;; raise e).

(** ** [DataProcessor.save_repo_data] and [collect_github_data] *)

(** Writes one file per call; its name is made of the repository name with
    ['/'] replaced and of the time of the call.  Returns the repository name
    part of the path. *)
Definition save_repo_data (repo_data : json) : M string :=
  name <- lift (Py.subscript repo_data "repo_name") ;;
  match name with
  | JStr n =>
      let repo_name := Py.replace_slash n in
      timestamp <- datetime_now ;;
      emit (EWrite repo_name timestamp repo_data) ;;
      logging Info (SavedData n) ;;
      ret repo_name
  | _ => raise AttributeError
  end.

(** The [for repo in repos] loop, with [all_repo_data] as accumulator. *)
Fixpoint collect_loop (E : env) (fuel : nat) (repos : list string) (days : Z)
    (all_repo_data : list json) : M (list json) :=
  match repos with
  | [] => ret all_repo_data
  | repo :: rest =>
      all_repo_data <-
        try_except
          (logging Info (CollectingData repo) ;;
           repo_data <- process_repo_data E fuel repo days ;;
           save_repo_data repo_data ;;
           ret (all_repo_data ++ [repo_data])%list)
          (fun e =>
             logging Error (ErrorCollectingData repo e) ;;
             ret all_repo_data) ;;
      collect_loop E fuel rest days all_repo_data
  end.

(** [GitHubAPI(github_token)] starts with a budget of 5000. *)
Definition collect_github_data (E : env) (fuel : nat) (repos : list string)
    (days : Z) : M (list json) :=
  set_rate_limit_remaining 5000 ;;
  collect_loop E fuel repos days [].

(** ** [DataProcessor.extract_contributor_stats] *)

Module Contributors.

(** Keys of a Python dict: [None], [bool], [int] and [str] are hashable,
    [list] and [dict] are not. *)
Definition hashable (v : json) : bool :=
  match v with
  | JArr _ | JObj _ => false
  | _ => true
  end.

(** [==] on hashable values; [True == 1] and [False == 0]. *)
Definition key_eqb (a b : json) : bool :=
  match a, b with
  | JNull, JNull => true
  | JBool x, JBool y => Bool.eqb x y
  | JInt x, JInt y => Z.eqb x y
  | JBool x, JInt y | JInt y, JBool x => Z.eqb y (if x then 1 else 0)
  | JStr x, JStr y => String.eqb x y
  | _, _ => false
  end.

(** An insertion-ordered dict from contributors to commit counts. *)
Definition counts : Type := list (json * nat).

(** [k in d] *)
Fixpoint mem (k : json) (d : counts) : bool :=
  match d with
  | [] => false
  | (k', _) :: d' => key_eqb k k' || mem k d'
  end.

(** [d[k]] for a key known to be in [d] *)
Fixpoint item (k : json) (d : counts) : nat :=
  match d with
  | [] => 0
  | (k', n) :: d' => if key_eqb k k' then n else item k d'
  end.

(** [d[k] = n]: an existing key keeps its position, a new one goes last. *)
Fixpoint set_item (k : json) (n : nat) (d : counts) : counts :=
  match d with
  | [] => [(k, n)]
  | (k', m) :: d' =>
      if key_eqb k k' then (k', n) :: d' else (k', m) :: set_item k n d'
  end.

(** One turn of the [for commit in commits] loop. *)
Definition count_commit (contributors : counts) (commit : json)
    : result counts :=
  (author <-- Py.get commit "author" (JStr "Unknown") ;;;
   if hashable author then
     let contributors :=
       if negb (mem author contributors)
       then set_item author 0 contributors
       else contributors in
     Ok (set_item author (item author contributors + 1) contributors)
   else Raise TypeError)%result.

Fixpoint count_commits (contributors : counts) (commits : list json)
    : result counts :=
  match commits with
  | [] => Ok contributors
  | commit :: rest =>
      match count_commit contributors commit with
      | Raise e => Raise e
      | Ok contributors' => count_commits contributors' rest
      end
  end.

(** [list(contributors.items())] at the end of the loop. *)
Definition contributor_items (repo_data : json) : result counts :=
  (commits <-- Py.get repo_data "commits" (JArr []) ;;;
   rows <-- Py.iter commits ;;;
   count_commits [] rows)%result.

Definition commits_ge (a b : json * nat) : Prop := (snd b <= snd a)%nat.

(** [df.sort_values('Commits', ascending=False)] is pandas' code, called
    with its default [kind='quicksort'], which pandas documents as not
    stable.  What the call returns on rows with equal counts is decided by
    the sorting kernel of the installed NumPy and is not modelled; the
    relation below holds what pandas documents of every result: the rows,
    rearranged in non-increasing order of the column.  It is used for
    properties of every possible result only. *)
Definition sort_values_desc (rows sorted : counts) : Prop :=
  Permutation rows sorted /\ Sorted commits_ge sorted.

(** What is known of the frame [df] that
    [extract_contributor_stats(repo_data)] returns. *)
Definition extract_contributor_stats (repo_data : json) (df : counts) : Prop :=
  exists rows,
    contributor_items repo_data = Ok rows /\ sort_values_desc rows df.

(** A stable descending sort, by insertion: a row goes before the first
    later row whose count is not larger. *)
Fixpoint insert_desc (r : json * nat) (sorted : counts) : counts :=
  match sorted with
  | [] => [r]
  | r' :: sorted' =>
      if (snd r' <=? snd r)%nat then r :: r' :: sorted'
      else r' :: insert_desc r sorted'
  end.

Fixpoint stable_sort_desc (rows : counts) : counts :=
  match rows with
  | [] => []
  | r :: rows' => insert_desc r (stable_sort_desc rows')
  end.

(** The two statements of the loop body amount to one pass over the dict:
    the count of the key goes up by one, a new key goes last with count 1. *)
Fixpoint bump (k : json) (d : counts) : counts :=
  match d with
  | [] => [(k, 1%nat)]
  | (k', n) :: d' =>
      if key_eqb k k' then (k', S n) :: d' else (k', n) :: bump k d'
  end.

(** The contributors in the order in which each first appears. *)
Definition first_seen (authors : list string) : list string :=
  fold_left (fun seen a =>
               if existsb (String.eqb a) seen then seen else seen ++ [a])%list
            authors [].

(** One row per contributor, in first-seen order, with the number of
    commits the contributor authored. *)
Definition tally (authors : list string) : counts :=
  map (fun a => (JStr a, count_occ string_dec authors a))
      (first_seen authors).

(** A snapshot that holds only commits, by the given authors. *)
Definition snapshot_of_authors (authors : list string) : json :=
  JObj [("commits",
         JArr (map (fun a => JObj [("sha", JStr ""); ("author", JStr a)])
                   authors))].

(** No two rows of the dict hold the same contributor. *)
Fixpoint distinct (d : counts) : Prop :=
  match d with
  | [] => True
  | (k, _) :: d' => mem k d' = false /\ distinct d'
  end.

(** The number of commits whose author is the contributor [k]. *)
Definition commits_by (k : json) (authors : list json) : nat :=
  List.length (filter (fun a => key_eqb a k) authors).

(** A snapshot that holds only commits; the author of two of them is
    [None]. *)
Definition snapshot_with_null_author : json :=
  JObj [("commits",
         JArr [JObj [("sha", JStr "1"); ("author", JNull)];
               JObj [("sha", JStr "2"); ("author", JStr "A")];
               JObj [("sha", JStr "3"); ("author", JNull)]])].

End Contributors.

(** ** The specification's reading of the normalized fields *)

Definition is_dict (v : json) : Prop := exists d, v = JObj d.

(** The field [k] of a normalized record. *)
Definition field (k : string) (record : json) : option json :=
  match record with
  | JObj d => Py.dict_lookup k d
  | _ => None
  end.

(** The platform account login of a raw commit, when present. *)
Definition account_login (commit : json) : option json :=
  match field "author" commit with
  | Some account => field "login" account
  | None => None
  end.

(** [commit.get('author', {})]: the account object of a raw commit. *)
Definition account_object (commit : json) : json :=
  match field "author" commit with
  | Some account => account
  | None => JObj []
  end.

(** The author display name of the raw commit metadata, when present. *)
Definition metadata_author_name (commit : json) : option json :=
  match field "commit" commit with
  | Some commit_info =>
      match field "author" commit_info with
      | Some a => field "name" a
      | None => None
      end
  | None => None
  end.

(** The resolution order of the specification: the login, else the display
    name, else "Unknown". *)
Definition spec_commit_author (commit : json) : json :=
  match account_login commit with
  | Some login => login
  | None =>
      match metadata_author_name commit with
      | Some name => name
      | None => JStr "Unknown"
      end
  end.

(** The raw payload carries the pull-request marker field. *)
Definition carries_marker (item : json) : bool :=
  match field "pull_request" item with
  | Some _ => true
  | None => false
  end.

(** The raw label entries of an issue or pull request payload. *)
Definition raw_labels (v : json) : list json :=
  match field "labels" v with
  | Some (JArr rows) => rows
  | _ => []
  end.

(** What the code stores for one raw label: its name, or the empty string. *)
Definition label_name_or_empty (label : json) : json :=
  match field "name" label with
  | Some n => n
  | None => JStr ""
  end.

(** The specification's labels: a collection is a set of the names of the
    raw labels that have one. *)
Definition spec_label_set (v : json) (labels : list json) : Prop :=
  NoDup labels /\
  forall n, In n labels <->
            exists label, In label (raw_labels v) /\ field "name" label = Some n.

(** ** Sample payloads *)

Definition commit_without_login : json :=
  JObj [("sha", JStr "3f2a1c");
        ("author", JObj [("id", JInt 7)]);
        ("commit", JObj [("author", JObj [("name", JStr "Alice");
                                          ("date", JStr "2024-01-01T10:00:00Z")]);
                         ("message", JStr "Fix typo")])].

Definition commit_unlinked_account : json :=
  JObj [("sha", JStr "3f2a1c");
        ("author", JNull);
        ("commit", JObj [("author", JObj [("name", JStr "Alice");
                                          ("date", JStr "2024-01-01T10:00:00Z")]);
                         ("message", JStr "Fix typo")])].

Definition issue_with_nameless_label : json :=
  JObj [("number", JInt 12);
        ("title", JStr "Crash on start");
        ("labels", JArr [JObj [("name", JStr "bug")];
                         JObj [("color", JStr "red")];
                         JObj [("name", JStr "bug")]])].

Definition issue_without_number : json :=
  JObj [("title", JStr "Crash on start"); ("state", JStr "open")].

Definition issues_endpoint_items : list json :=
  [JObj [("number", JInt 1)];
   JObj [("number", JInt 2); ("pull_request", JObj [("url", JStr "u")])];
   JObj [("number", JInt 3)]].

(** ** Reading a trace *)

(** The GET requests of a trace, in order. *)
Definition gets (t : list event) : list request :=
  flat_map (fun e => match e with EGet r => [r] | _ => [] end) t.

(** The page numbers the requests of a trace ask for. *)
Definition requested_pages (t : list event) : list nat :=
  flat_map (fun r => match page r with Some p => [p] | None => [] end)
           (gets t).

(** The time spent in [time.sleep] over a trace. *)
Definition slept (t : list event) : Q :=
  fold_right (fun e acc => match e with ESleep d => d + acc | _ => acc end)%Q
             0%Q t.

(** The snapshots written to disk over a trace, in order. *)
Definition written (t : list event) : list json :=
  flat_map (fun e => match e with EWrite _ _ c => [c] | _ => [] end) t.

(** The repositories whose collection was reported as failed, in order. *)
Definition failed (t : list event) : list string :=
  flat_map (fun e => match e with
                     | ELog Error (ErrorCollectingData repo _) => [repo]
                     | _ => []
                     end) t.

(** ** Sample servers *)


Definition ok_response (j : json) : response :=
  mkResponse 200 (Some 4990%Z) (Some 0%Z) (Some j).

Definition not_found_response : response :=
  mkResponse 404 (Some 4990%Z) (Some 0%Z)
    (Some (JObj [("message", JStr "Not Found")])).

(** An environment around a server; [strptime] accepts nothing here. *)
Definition env_of (srv : nat -> request -> response) : env :=
  mkEnv srv (fun _ => None) (fun _ => "").



Definition initial_state : state := mkState 5000 0 0 [].

Definition some_request : request :=
  mkRequest (base_url ++ "/repos/octocat/hello") None None None.

(** A synthetic paginated source: every request for page [p] is answered
    200 with the list [pages p]. *)
Definition synthetic_source (E : env) (pages : nat -> list json) : Prop :=
  forall n r p,
    page r = Some p ->
    status_code (server E n r) = 200%Z /\
    body (server E n r) = Some (JArr (pages p)).

Definition paged_server (pages : nat -> list json) : nat -> request -> response :=
  fun _ r => ok_response (JArr (pages (match page r with
                                      | Some p => p
                                      | None => 0%nat
                                      end))).

(** One full page, then a page of two items. *)
Definition sample_pages (p : nat) : list json :=
  if (p =? 1)%nat then repeat (JObj [("sha", JStr "c")]) 30
  else [JObj [("sha", JStr "y")]; JObj [("sha", JStr "z")]].

(** ** The states [_make_request] goes through *)

(** The state in which [_make_request] issues its GET: the state of the
    call, after the 60-second cooldown when the budget is below 10. *)
Definition throttled (s : state) : state :=
  if (rate_limit_remaining s <? 10)%Z
  then mkState (rate_limit_remaining s) (clock s + 60)%Q (requests_sent s)
               ((trace s ++ [ELog Warning RateLimitLow]) ++ [ESleep 60])%list
  else s.

(** [max(reset_time - time.time(), 0) + 10] for the headers of [resp]. *)
Definition backoff (resp : response) (now : Q) : Q :=
  (Qmax (inject_Z (default_Z 0 (x_ratelimit_reset resp)) - now) 0 + 10)%Q.

(** The state in which [_make_request] calls itself again after the 403
    rate-limited response [resp]. *)
Definition after_rate_limit (r : request) (resp : response) (s : state) : state :=
  let s0 := throttled s in
  let sleep_time := backoff resp (clock s0) in
  mkState (default_Z 5000 (x_ratelimit_remaining resp))
          (clock s0 + sleep_time)%Q
          (S (requests_sent s0))
          (((trace s0 ++ [EGet r])
              ++ [ELog Warning (RateLimitExceeded sleep_time)])
             ++ [ESleep sleep_time])%list.


(** The call [_make_request] makes of itself after a rate-limited answer,
    with room for [fuel] more calls. *)
Definition retry (E : env) (fuel : nat) (r : request) : M json :=
  match fuel with
  | O => raise RecursionError
  | S _ => _make_request E fuel r
  end.


(** ** Releases without a usable publication date *)

(** The [published_at] of a raw release is absent, null, or a string that
    [strptime] does not accept. *)
Definition unparseable_published_at (E : env) (release : json) : Prop :=
  exists d,
    release = JObj d /\
    (Py.dict_lookup "published_at" d = None \/
     Py.dict_lookup "published_at" d = Some JNull \/
     exists s, Py.dict_lookup "published_at" d = Some (JStr s) /\
               strptime E s = None).

(** The state after [logging.<level>(m)]. *)
Definition logged (l : level) (m : log_msg) (s : state) : state :=
  mkState (rate_limit_remaining s) (clock s) (requests_sent s)
          (trace s ++ [ELog l m])%list.

(** A [strptime] that knows one date. *)
Definition sample_strptime (s : string) : option Q :=
  if String.eqb s "2024-01-01T10:00:00Z" then Some 1704103200%Q else None.

Definition draft_release : json :=
  JObj [("tag_name", JStr "v2.0.0-rc1"); ("draft", JBool true);
        ("published_at", JNull)].

Definition published_release : json :=
  JObj [("tag_name", JStr "v1.0.0");
        ("published_at", JStr "2024-01-01T10:00:00Z")].

(** Answers every request with one page: repository metadata for the
    repository URL, one release and one draft for the releases, and an
    empty list for commits and issues. *)
Definition server_with_draft : nat -> request -> response :=
  fun _ r =>
    if String.eqb (url r) (base_url ++ "/repos/octocat/hello")
    then ok_response (JObj [("full_name", JStr "octocat/hello")])
    else if String.eqb (url r) (base_url ++ "/repos/octocat/hello/releases")
    then ok_response (JArr [published_release; draft_release])
    else ok_response (JArr []).

Definition env_with_draft : env :=
  mkEnv server_with_draft sample_strptime (fun _ => "2024-01-02T00:00:00").

(** ** Batch collection, repository by repository *)

(** The repository a snapshot says it is of. *)
Definition snapshot_repo (repo_data : json) : string :=
  match field "repo_name" repo_data with
  | Some (JStr n) => n
  | _ => ""
  end.

(** The state after [save_repo_data(repo_data)]. *)
Definition saved (repo_data : json) (s : state) : state :=
  logged Info (SavedData (snapshot_repo repo_data))
    (mkState (rate_limit_remaining s) (clock s) (requests_sent s)
       (trace s ++ [EWrite (Py.replace_slash (snapshot_repo repo_data))
                      (clock s) repo_data])%list).

(** A batch run, one [process_repo_data] call after the other, each from the
    state the previous repository left: the outcome of every call, a
    snapshot or the exception that ended it, is recorded next to the
    repository. *)
Inductive batch (E : env) (fuel : nat) (days : Z)
    : list string -> state -> list (string * result json) -> state -> Prop :=
| batch_done (s : state) : batch E fuel days [] s [] s
| batch_collected (repo : string) (rest : list string) (s s1 s' : state)
    (repo_data : json) (outcomes : list (string * result json)) :
    process_repo_data E fuel repo days (logged Info (CollectingData repo) s)
      = Ret repo_data s1 ->
    batch E fuel days rest (saved repo_data s1) outcomes s' ->
    batch E fuel days (repo :: rest) s ((repo, Ok repo_data) :: outcomes) s'
| batch_failed (repo : string) (rest : list string) (s s1 s' : state)
    (e : exn) (outcomes : list (string * result json)) :
    process_repo_data E fuel repo days (logged Info (CollectingData repo) s)
      = Exn e s1 ->
    batch E fuel days rest (logged Error (ErrorCollectingData repo e) s1)
      outcomes s' ->
    batch E fuel days (repo :: rest) s ((repo, Raise e) :: outcomes) s'.

(** The snapshots of the repositories whose fetch succeeded, in order. *)
Definition successes (outcomes : list (string * result json)) : list json :=
  flat_map (fun o => match snd o with Ok d => [d] | Raise _ => [] end)
           outcomes.

(** The repositories whose fetch raised, in order. *)
Definition failures (outcomes : list (string * result json)) : list string :=
  flat_map (fun o => match snd o with Ok _ => [] | Raise _ => [fst o] end)
           outcomes.

(** Nothing was written and no collection failure was reported between
    two states. *)
Definition quiet_step (s s' : state) : Prop :=
  written (trace s') = written (trace s) /\
  failed (trace s') = failed (trace s).

(** A computation that writes no snapshot and reports no collection
    failure, however it ends. *)
Definition quiet {A} (m : M A) : Prop :=
  forall s,
    match m s with
    | Ret _ s' | Exn _ s' => quiet_step s s'
    | OutOfFuel => True
    end.

(** ["octocat/hello"] is served in full; the metadata of any other
    repository is 404. *)
Definition server_one_missing : nat -> request -> response :=
  fun _ r =>
    if String.eqb (url r) (base_url ++ "/repos/octocat/hello")
    then ok_response (JObj [("full_name", JStr "octocat/hello");
                            ("stargazers_count", JInt 3)])
    else if Py.is_prefix (base_url ++ "/repos/octocat/hello/") (url r)
    then ok_response (JArr [])
    else not_found_response.

Definition env_one_missing : env :=
  mkEnv server_one_missing sample_strptime (fun _ => "2024-01-02T00:00:00").

(** The state after [GitHubAPI(github_token)]: a full budget. *)
Definition fresh_client (s : state) : state :=
  mkState 5000 (clock s) (requests_sent s) (trace s).

(** The repositories whose fetch returned a snapshot, in order. *)
Definition fetched (outcomes : list (string * result json)) : list string :=
  flat_map (fun o => match snd o with Ok _ => [fst o] | Raise _ => [] end)
           outcomes.

(** One of the four sub-fetches of [process_repo_data], called from [s]
    and reached with its predecessors done, raises [e] and leaves [s']. *)
Definition sub_fetch_fails (E : env) (fuel : nat) (repo : string) (days : Z)
    (s : state) (e : exn) (s' : state) : Prop :=
  let s0 := logged Info (FetchingData repo days) s in
  get_repository_info E fuel repo s0 = Exn e s' \/
  (exists info s1,
     get_repository_info E fuel repo s0 = Ret info s1 /\
     get_commits E fuel repo days s1 = Exn e s') \/
  (exists info s1 commits s2,
     get_repository_info E fuel repo s0 = Ret info s1 /\
     get_commits E fuel repo days s1 = Ret commits s2 /\
     get_issues E fuel repo days "all" s2 = Exn e s') \/
  (exists info s1 commits s2 issues s3 split,
     get_repository_info E fuel repo s0 = Ret info s1 /\
     get_commits E fuel repo days s1 = Ret commits s2 /\
     get_issues E fuel repo days "all" s2 = Ret issues s3 /\
     classify issues = Ok split /\
     get_releases E fuel repo days s3 = Exn e s').

(** ** Answers that are neither a success nor a rate limit *)

(** The state in which [_make_request] ends after one GET answered by
    [resp] and logged as an error. *)
Definition after_error (r : request) (resp : response) (s : state) : state :=
  mkState (default_Z 5000 (x_ratelimit_remaining resp))
          (clock (throttled s))
          (S (requests_sent s))
          ((trace (throttled s) ++ [EGet r])
             ++ [ELog Error (ApiRequestError (status_code resp))])%list.

(** The state in which [_make_request] ends after one GET answered by
    [resp], with nothing logged. *)
Definition after_get (r : request) (resp : response) (s : state) : state :=
  mkState (default_Z 5000 (x_ratelimit_remaining resp))
          (clock (throttled s))
          (S (requests_sent s))
          (trace (throttled s) ++ [EGet r])%list.

(** A status that [raise_for_status] raises for. *)
Definition is_http_error (status : Z) : bool :=
  ((400 <=? status) && (status <? 600))%Z.

Definition server_error_response : response :=
  mkResponse 500 None None None.

Definition not_modified_response : response :=
  mkResponse 304 (Some 4000%Z) None None.

Definition forbidden_html_response : response :=
  mkResponse 403 None None None.

(** A property of the state a computation ends in, by a value or by an
    exception. *)
Definition ended {A} (o : outcome A) (P : state -> Prop) : Prop :=
  match o with
  | Ret _ s' | Exn _ s' => P s'
  | OutOfFuel => True
  end.

(** What one call of [_make_request] adds to the trace: the request [r]
    sent one or more times, nothing but [r] sent, and between two
    sendings in a row calls of [time.sleep] for 10 seconds or more in
    all. *)
Inductive spaced (r : request) : list event -> Prop :=
| spaced_last (before after : list event) :
    gets before = [] -> gets after = [] ->
    spaced r (before ++ EGet r :: after)
| spaced_retry (before between rest : list event) :
    gets before = [] -> gets between = [] ->
    (10 <= slept between)%Q ->
    spaced r rest ->
    spaced r (before ++ EGet r :: between ++ rest).

(** ** Sources that stop short of answering every page *)

(** The pages [pg], ..., [pg + N - 1] of the source are answered 200 with
    the lists [pages p], each long enough for the loop to go on. *)
Definition full_pages (E : env) (pages : nat -> list json) (pg N : nat)
    : Prop :=
  forall p, (pg <= p < pg + N)%nat ->
    (30 <= List.length (pages p))%nat /\
    forall n r, page r = Some p ->
      status_code (server E n r) = 200%Z /\
      body (server E n r) = Some (JArr (pages p)).

(** Answers page 1 with thirty commits and any other page with [resp]. *)
Definition server_one_page_then (resp : response) : nat -> request -> response :=
  fun _ r =>
    match page r with
    | Some 1%nat => ok_response (JArr (sample_pages 1))
    | _ => resp
    end.

(** Every page holds thirty commits. *)
Definition endless_pages (p : nat) : list json :=
  repeat (JObj [("sha", JStr "c")]) 30.

(** ** Releases the fetch keeps *)

(** The release carries a [published_at] string that [strptime] accepts,
    for a time later than [cutoff]. *)
Definition release_is_recent (E : env) (cutoff : Q) (release : json) : Prop :=
  exists str t,
    field "published_at" release = Some (JStr str) /\
    strptime E str = Some t /\
    (cutoff < t)%Q.

Definition old_release : json :=
  JObj [("tag_name", JStr "v0.1.0");
        ("published_at", JStr "2021-06-01T00:00:00Z")].

(** A [strptime] that knows two dates, one of them long past. *)
Definition two_dates_strptime (s : string) : option Q :=
  if String.eqb s "2024-01-01T10:00:00Z" then Some 1704103200%Q
  else if String.eqb s "2021-06-01T00:00:00Z" then Some 1622505600%Q
  else None.

(** Answers every request with a page of one recent and one old release. *)
Definition env_with_old_release : env :=
  mkEnv (fun _ _ => ok_response (JArr [published_release; old_release]))
        two_dates_strptime (fun _ => "").

(** A state whose clock reads 2024-01-02T00:00:00. *)
Definition state_in_2024 : state := mkState 5000 1704153600 0 [].

(** ** The raw fields normalization reads *)

(** [commit_info.get('message', '')] of a raw commit. *)
Definition raw_message (commit : json) : json :=
  match field "commit" commit with
  | Some commit_info =>
      match field "message" commit_info with
      | Some m => m
      | None => JStr ""
      end
  | None => JStr ""
  end.

(** ['\n' in s] *)
Definition has_newline (s : string) : bool :=
  Py.is_substring (String Py.newline EmptyString) s.

Definition commit_with_body : json :=
  JObj [("sha", JStr "9b1d4e7");
        ("author", JObj [("login", JStr "alice")]);
        ("commit",
         JObj [("author", JObj [("name", JStr "Alice")]);
               ("message",
                JStr (String.append "Fix the parser"
                        (String Py.newline
                           (String Py.newline "Closes the old issue."))))])].

Definition issue_by_deleted_account : json :=
  JObj [("number", JInt 7); ("title", JStr "Crash"); ("user", JNull)].

(** Serves one issue whose author account is gone; everything else is
    empty. *)
Definition server_with_ghost_issue : nat -> request -> response :=
  fun _ r =>
    if String.eqb (url r) (base_url ++ "/repos/octocat/hello")
    then ok_response (JObj [("full_name", JStr "octocat/hello")])
    else if String.eqb (url r) (base_url ++ "/repos/octocat/hello/issues")
    then ok_response (JArr [issue_by_deleted_account])
    else ok_response (JArr []).

Definition env_with_ghost_issue : env :=
  mkEnv server_with_ghost_issue sample_strptime (fun _ => "").

(** ** File names *)

(** ['/' in s] *)
Definition has_slash (s : string) : bool := Py.is_substring "/" s.

(** The file a write event goes to: the sanitized repository name and the
    time stamp, which make up the file name. *)
Definition file_of (e : event) : option (string * Q) :=
  match e with
  | EWrite name stamp _ => Some (name, stamp)
  | _ => None
  end.

(** The files written over a trace, in order. *)
Definition files_written (t : list event) : list (string * Q) :=
  flat_map (fun e => match file_of e with Some f => [f] | None => [] end) t.

(** ** [DataProcessor.generate_repo_summary_text] *)

Module Summary.

Local Open Scope result_scope.

(** What the f-strings need of the runtime: [strftime('%Y-%m-%d')] of a
    parsed date, and [str] of a list or of a dict. *)
Record formats : Type := mkFormats {
  strftime_day : Q -> string;
  repr_container : json -> string
}.

(** [str(n)] for a length or a count *)
Definition str_nat (n : nat) : string :=
  NilZero.string_of_uint (Nat.to_uint n).

(** [f"{v}"] *)
Definition py_str (F : formats) (v : json) : string :=
  match v with
  | JNull => "None"
  | JBool true => "True"
  | JBool false => "False"
  | JInt n => NilZero.string_of_int (Z.to_int n)
  | JStr s => s
  | JArr _ | JObj _ => repr_container F v
  end.

Definition nl : string := String Py.newline EmptyString.

(** [v[:n]] followed by iteration: a list gives its first [n] elements, a
    string its first [n] characters; a dict cannot be sliced (a [TypeError]
    up to Python 3.11). *)
Definition slice_to (n : nat) (v : json) : result (list json) :=
  match v with
  | JArr l => Ok (firstn n l)
  | JStr s => Ok (firstn n (Py.chars s))
  | _ => Raise TypeError
  end.

(** [s.add(k)]: the set is kept in insertion order; only its size is read. *)
Definition set_add (k : json) (s : list json) : list json :=
  if existsb (Contributors.key_eqb k) s then s else (s ++ [k])%list.

(** [set(commit.get('author', 'Unknown') for commit in commits)] *)
Fixpoint authors_set (s : list json) (commits : list json)
    : result (list json) :=
  match commits with
  | [] => Ok s
  | commit :: rest =>
      author <-- Py.get commit "author" (JStr "Unknown") ;;;
      if Contributors.hashable author
      then authors_set (set_add author s) rest
      else Raise TypeError
  end.

(** The heading and the overview (lines 117-123). *)
Definition overview (F : formats) (repo_name time_period : json)
    (commit_count issue_count pr_count release_count contributor_count : nat)
    : string :=
  "# Activity Summary for " ++ py_str F repo_name ++ " over the past "
    ++ py_str F time_period ++ nl ++ nl
  ++ "## Overview" ++ nl
  ++ "- Total commits: " ++ str_nat commit_count ++ nl
  ++ "- New issues: " ++ str_nat issue_count ++ nl
  ++ "- Pull requests: " ++ str_nat pr_count ++ nl
  ++ "- New releases: " ++ str_nat release_count ++ nl
  ++ "- Active contributors: " ++ str_nat contributor_count ++ nl ++ nl.

(** The body of [for release in releases[:3]] (lines 129-130). *)
Definition release_line (E : env) (F : formats) (release : json)
    : result string :=
  published_at <-- Py.subscript release "published_at" ;;;
  release_date <-- strptime_py E published_at ;;;
  tag_name <-- Py.subscript release "tag_name" ;;;
  name <-- Py.subscript release "name" ;;;
  Ok ("- " ++ py_str F tag_name ++ " - " ++ py_str F name
      ++ " (released on " ++ strftime_day F release_date ++ ")" ++ nl).

(** Lines 126-131. *)
Definition releases_section (E : env) (F : formats) (releases : json)
    : result string :=
  if Py.truthy releases then
    rows <-- slice_to 3 releases ;;;
    lines <-- rmap (release_line E F) rows ;;;
    Ok ("## Latest Releases" ++ nl ++ String.concat "" lines ++ nl)
  else Ok "".

(** [sorted(contributor_commits.items(), key=lambda x: x[1],
    reverse=True)[:5]] over the dict the loop of lines 136-140 builds, which
    is the loop of [extract_contributor_stats].  Python's [sorted] is
    stable, and with [reverse=True] items with equal keys keep their
    order. *)
Definition top_contributors (commits : list json)
    : result Contributors.counts :=
  contributor_commits <-- Contributors.count_commits [] commits ;;;
  Ok (firstn 5 (Contributors.stable_sort_desc contributor_commits)).

(** The body of [for contributor, count in top_contributors] (line 147). *)
Definition contributor_line (F : formats) (row : json * nat) : string :=
  "- " ++ py_str F (fst row) ++ ": " ++ str_nat (snd row) ++ " commits" ++ nl.

(** Lines 134-148. *)
Definition contributors_section (F : formats) (commits : json)
    : result string :=
  if Py.truthy commits then
    rows <-- Py.iter commits ;;;
    top <-- top_contributors rows ;;;
    Ok ("## Top Contributors" ++ nl
        ++ String.concat "" (map (contributor_line F) top) ++ nl)
  else Ok "".

(** The body of [for issue in issues[:5]] (lines 154-155) and of
    [for pr in prs[:5]] (lines 162-163), which read the same keys. *)
Definition item_line (E : env) (F : formats) (item : json) : result string :=
  created_at <-- Py.subscript item "created_at" ;;;
  created_date <-- strptime_py E created_at ;;;
  number <-- Py.subscript item "number" ;;;
  title <-- Py.subscript item "title" ;;;
  author <-- Py.subscript item "author" ;;;
  Ok ("- #" ++ py_str F number ++ " - " ++ py_str F title
      ++ " (created on " ++ strftime_day F created_date
      ++ " by " ++ py_str F author ++ ")" ++ nl).

(** Lines 151-156 with the heading "## Notable Issues", lines 159-164 with
    the heading "## Notable Pull Requests". *)
Definition items_section (E : env) (F : formats) (heading : string)
    (items : json) : result string :=
  if Py.truthy items then
    rows <-- slice_to 5 items ;;;
    lines <-- rmap (item_line E F) rows ;;;
    Ok (heading ++ nl ++ String.concat "" lines ++ nl)
  else Ok "".

Definition generate_repo_summary_text (E : env) (F : formats)
    (repo_data : json) : result string :=
  repo_name <-- Py.subscript repo_data "repo_name" ;;;
  time_period <-- Py.subscript repo_data "time_period" ;;;
  commits <-- Py.get repo_data "commits" (JArr []) ;;;
  issues <-- Py.get repo_data "issues" (JArr []) ;;;
  prs <-- Py.get repo_data "pull_requests" (JArr []) ;;;
  releases <-- Py.get repo_data "releases" (JArr []) ;;;
  commit_count <-- Py.len commits ;;;
  issue_count <-- Py.len issues ;;;
  pr_count <-- Py.len prs ;;;
  release_count <-- Py.len releases ;;;
  rows <-- Py.iter commits ;;;
  contributors <-- authors_set [] rows ;;;
  let contributor_count := List.length contributors in
  let summary :=
    overview F repo_name time_period commit_count issue_count pr_count
      release_count contributor_count in
  latest_releases <-- releases_section E F releases ;;;
  top <-- contributors_section F commits ;;;
  notable_issues <-- items_section E F "## Notable Issues" issues ;;;
  notable_prs <-- items_section E F "## Notable Pull Requests" prs ;;;
  Ok (summary ++ latest_releases ++ top ++ notable_issues ++ notable_prs).

(** *** What the summary needs of a snapshot *)

(** A commit the two loops over [commits] get through: a dict whose
    author, or the default, can be a key. *)
Definition commit_counts (commit : json) : Prop :=
  exists author,
    Py.get commit "author" (JStr "Unknown") = Ok author /\
    Contributors.hashable author = true.

(** The release carries the three keys its line reads, with a
    [published_at] string that [strptime] accepts. *)
Definition release_prints (E : env) (release : json) : Prop :=
  (exists str t,
     field "published_at" release = Some (JStr str) /\
     strptime E str = Some t) /\
  (exists v, field "tag_name" release = Some v) /\
  (exists v, field "name" release = Some v).

(** The issue or pull request carries the four keys its line reads, with a
    [created_at] string that [strptime] accepts. *)
Definition item_prints (E : env) (item : json) : Prop :=
  (exists str t,
     field "created_at" item = Some (JStr str) /\
     strptime E str = Some t) /\
  (exists v, field "number" item = Some v) /\
  (exists v, field "title" item = Some v) /\
  (exists v, field "author" item = Some v).

(** Rows with equal counts are in the same order in [sorted] as in [rows]. *)
Definition keeps_tie_order (rows sorted : Contributors.counts) : Prop :=
  forall n,
    filter (fun r => Nat.eqb (snd r) n) sorted
    = filter (fun r => Nat.eqb (snd r) n) rows.

(** A snapshot of the shape [process_repo_data] returns. *)
Definition snapshot (repo : string) (period : string)
    (commits issues prs releases : list json) : json :=
  JObj [("repo_name", JStr repo);
        ("repo_info", JObj []);
        ("commits", JArr commits);
        ("issues", JArr issues);
        ("pull_requests", JArr prs);
        ("releases", JArr releases);
        ("time_period", JStr period);
        ("collection_date", JStr "")].

Definition iso_day : formats := mkFormats (fun _ => "2024-01-01") (fun _ => "").

End Summary.

(** ** Summaries of collected snapshots *)

(** The issue or pull request carries a [created_at] string that
    [strptime] accepts. *)
Definition dated (E : env) (item : json) : Prop :=
  exists str t,
    field "created_at" item = Some (JStr str) /\ strptime E str = Some t.

Definition commit_by_mona : json :=
  JObj [("sha", JStr "1f2e3d4");
        ("author", JObj [("login", JStr "mona")]);
        ("commit", JObj [("message", JStr "Fix typo")])].

Definition dated_issue : json :=
  JObj [("number", JInt 4); ("title", JStr "Crash on start");
        ("created_at", JStr "2024-01-01T10:00:00Z");
        ("user", JObj [("login", JStr "mona")])].

(** Serves one commit, one issue and one release of ["octocat/hello"]. *)
Definition server_with_activity : nat -> request -> response :=
  fun _ r =>
    if String.eqb (url r) (base_url ++ "/repos/octocat/hello")
    then ok_response (JObj [("full_name", JStr "octocat/hello")])
    else if String.eqb (url r) (base_url ++ "/repos/octocat/hello/commits")
    then ok_response (JArr [commit_by_mona])
    else if String.eqb (url r) (base_url ++ "/repos/octocat/hello/issues")
    then ok_response (JArr [dated_issue])
    else if String.eqb (url r) (base_url ++ "/repos/octocat/hello/releases")
    then ok_response (JArr [published_release])
    else ok_response (JArr []).

Definition env_with_activity : env :=
  mkEnv server_with_activity sample_strptime (fun _ => "2024-01-02T00:00:00").

(** The same, with an issue that carries no [created_at]. *)
Definition server_with_undated_issue : nat -> request -> response :=
  fun n r =>
    if String.eqb (url r) (base_url ++ "/repos/octocat/hello/issues")
    then ok_response (JArr [issue_without_number])
    else server_with_activity n r.

Definition env_with_undated_issue : env :=
  mkEnv server_with_undated_issue sample_strptime
        (fun _ => "2024-01-02T00:00:00").

(** ** The dashboard's "Collect GitHub Data" button ([app.py]) *)

(** The [for repo in repositories] loop of [app.py] (lines 93-97): no
    [try] of its own. *)
Fixpoint dashboard_loop (E : env) (fuel : nat) (repositories : list string)
    (time_period : Z) (all_repo_data : list json) : M (list json) :=
  match repositories with
  | [] => ret all_repo_data
  | repo :: rest =>
      repo_data <- process_repo_data E fuel repo time_period ;;
      save_repo_data repo_data ;;
      dashboard_loop E fuel rest time_period (all_repo_data ++ [repo_data])%list
  end.

(** Lines 85-108: one [try] around the whole collection.  The value
    returned is [st.session_state.repo_data] after the click, given the
    one before; what is shown on the page is left out, and so is the
    [LLMAgent] created once the session data is set. *)
Definition collect_button (E : env) (fuel : nat) (github_token : string)
    (repositories : list string) (time_period : Z)
    (session_repo_data : option (list json)) : M (option (list json)) :=
  if negb (String.eqb github_token "")
     && match repositories with [] => false | _ => true end
  then
    try_except
      (set_rate_limit_remaining 5000 ;;
       all_repo_data <- dashboard_loop E fuel repositories time_period [] ;;
       ret (Some all_repo_data))
      (fun _ => ret session_repo_data)
  else ret session_repo_data.

(** Repositories collected and saved one after the other, each
    [process_repo_data] call returning a snapshot. *)
Inductive collected_in_a_row (E : env) (fuel : nat) (days : Z)
    : list string -> state -> list json -> state -> Prop :=
| in_a_row_done (s : state) : collected_in_a_row E fuel days [] s [] s
| in_a_row_next (repo : string) (rest : list string) (s s1 s' : state)
    (repo_data : json) (snapshots : list json) :
    process_repo_data E fuel repo days s = Ret repo_data s1 ->
    collected_in_a_row E fuel days rest (saved repo_data s1) snapshots s' ->
    collected_in_a_row E fuel days (repo :: rest) s (repo_data :: snapshots) s'.

(** ** Reading the configuration ([load_config] and the dashboard) *)

Section Text.

(** [str.isspace] on one character: which characters [str.strip]
    removes. *)
Variable is_space : ascii -> bool.

Fixpoint lstrip (s : string) : string :=
  match s with
  | EmptyString => EmptyString
  | String a s' => if is_space a then lstrip s' else s
  end.

Fixpoint rstrip (s : string) : string :=
  match s with
  | EmptyString => EmptyString
  | String a s' =>
      match rstrip s' with
      | EmptyString => if is_space a then EmptyString else String a EmptyString
      | r => String a r
      end
  end.

(** [s.strip()] *)
Definition strip (s : string) : string := rstrip (lstrip s).

(** [s.split(sep)] for a separator of one character: never an empty
    list. *)
Fixpoint split_on (sep : ascii) (s : string) : list string :=
  match s with
  | EmptyString => [EmptyString]
  | String a s' =>
      if Ascii.eqb a sep then EmptyString :: split_on sep s'
      else match split_on sep s' with
           | h :: t => String a h :: t
           | [] => [String a EmptyString]
           end
  end.

(** What [load_config] ends with: the dict it returns, or [sys.exit(1)]
    after the error that names the variable not set. *)
Inductive config_outcome : Type :=
| Config (github_token openai_api_key : string) (repos : list string)
| SystemExit (code : Z) (not_set : string).

(** [not os.getenv(name)]: unset, or set to the empty string. *)
Definition not_set (v : option string) : bool :=
  match v with
  | None => true
  | Some x => String.eqb x ""
  end.

Definition getenv_default (getenv : string -> option string) (name : string)
    (default : string) : string :=
  match getenv name with
  | Some v => v
  | None => default
  end.

(** [load_config()], over the environment as [load_dotenv()] leaves it. *)
Definition load_config (getenv : string -> option string) : config_outcome :=
  let github_token := getenv "GITHUB_TOKEN" in
  let openai_api_key := getenv "OPENAI_API_KEY" in
  let repos_str := getenv_default getenv "REPOS" "ethereum/go-ethereum" in
  let repos := map strip (split_on ","%char repos_str) in
  if not_set github_token then SystemExit 1 "GITHUB_TOKEN"
  else if not_set openai_api_key then SystemExit 1 "OPENAI_API_KEY"
  else Config (getenv_default getenv "GITHUB_TOKEN" "")
              (getenv_default getenv "OPENAI_API_KEY" "") repos.

(** [s.replace(',', '\n')] *)
Fixpoint replace_comma (s : string) : string :=
  match s with
  | EmptyString => EmptyString
  | String a s' =>
      String (if Ascii.eqb a ","%char then Py.newline else a)
             (replace_comma s')
  end.

(** The text the dashboard's repository box starts with ([app.py], lines
    69-73). *)
Definition default_repos_input (getenv : string -> option string) : string :=
  replace_comma (getenv_default getenv "REPOS" "ethereum/go-ethereum").

(** [[repo.strip() for repo in repos_input.split('\n') if repo.strip()]]
    ([app.py], line 74) *)
Definition repositories (repos_input : string) : list string :=
  map strip
      (filter (fun repo => negb (String.eqb (strip repo) ""))
              (split_on Py.newline repos_input)).

End Text.

(** [c in s] for a character [c] *)
Fixpoint has_char (c : ascii) (s : string) : bool :=
  match s with
  | EmptyString => false
  | String a s' => Ascii.eqb a c || has_char c s'
  end.

Fixpoint count_char (c : ascii) (s : string) : nat :=
  match s with
  | EmptyString => 0
  | String a s' => (if Ascii.eqb a c then 1 else 0) + count_char c s'
  end.

(** Space, tab, newline and carriage return. *)
Definition ascii_space (a : ascii) : bool :=
  Ascii.eqb a " "%char || Ascii.eqb a (ascii_of_nat 9)
  || Ascii.eqb a Py.newline || Ascii.eqb a (ascii_of_nat 13).

(** An environment with both tokens and the given [REPOS]. *)
Definition environ_with_repos (repos : string) (name : string)
    : option string :=
  if String.eqb name "GITHUB_TOKEN" then Some "ghp_token"
  else if String.eqb name "OPENAI_API_KEY" then Some "sk-key"
  else if String.eqb name "REPOS" then Some repos
  else None.

(** ** The requests of a paginated fetch *)

(** Each page asked for is the one asked for before, or the next one. *)
Fixpoint page_by_page (p : nat) (pages : list nat) : bool :=
  match pages with
  | [] => true
  | q :: rest => ((q =? p)%nat || (q =? S p)%nat) && page_by_page q rest
  end.

(** The requests [reqs] are for [u] with the parameters [since_date] and
    [state_filter], and ask for page [first] first and then page by page. *)
Definition paged_requests (u : string) (since_date : option Q)
    (state_filter : option string) (first : nat) (reqs : list request)
    : Prop :=
  Forall (fun r => url r = u /\ since r = since_date /\
                   state_param r = state_filter) reqs /\
  exists rest,
    map page reqs = map Some (first :: rest) /\
    page_by_page first rest = true.

(** ** [DataProcessor.get_latest_data_files] *)

(** What the function reads of the file system: the entries of the data
    directory, in the order [os.listdir] gives them, and the modification
    time of a path. *)
Record directory : Type := mkDirectory {
  listdir : list string;
  getmtime : string -> Q
}.

(** [s.endswith(suffix)] *)
Fixpoint endswith (suffix s : string) : bool :=
  String.eqb suffix s
  || match s with
     | EmptyString => false
     | String _ s' => endswith suffix s'
     end.

(** [os.path.join(a, b)] on POSIX *)
Definition path_join (a b : string) : string :=
  if Py.is_prefix "/" b then b
  else if String.eqb a "" || endswith "/" a then a ++ b
  else a ++ "/" ++ b.

(** [sorted(files, key=mtime, reverse=True)]: by insertion, a file goes
    before the first later file that is not newer, so that files of equal
    time keep their order, as they do in Python. *)
Fixpoint insert_newest (mtime : string -> Q) (f : string)
    (sorted : list string) : list string :=
  match sorted with
  | [] => [f]
  | g :: rest =>
      if Qle_bool (mtime g) (mtime f) then f :: g :: rest
      else g :: insert_newest mtime f rest
  end.

Fixpoint sorted_newest_first (mtime : string -> Q) (files : list string)
    : list string :=
  match files with
  | [] => []
  | f :: rest => insert_newest mtime f (sorted_newest_first mtime rest)
  end.

(** The [days] argument is not read; every listed path is taken to exist
    when its time is read. *)
Definition get_latest_data_files (dir : directory) (data_dir : string)
    (days : Z) : list string :=
  let all_files :=
    map (path_join data_dir) (filter (endswith ".json") (listdir dir)) in
  sorted_newest_first (getmtime dir) all_files.

(** [g] is not newer than [f]. *)
Definition not_newer (mtime : string -> Q) (f g : string) : Prop :=
  (mtime g <= mtime f)%Q.

(** ** [LLMAgent.setup_vector_db]: the documents handed to the vector store *)

Module VectorDb.

Import Summary.
Local Open Scope result_scope.

(** A [langchain] [Document]. *)
Record document : Type := mkDocument {
  page_content : string;
  metadata : list (string * json)
}.

Definition commit_document (F : formats) (repo_name commit : json)
    : result document :=
  message <-- Py.subscript commit "message" ;;;
  author <-- Py.subscript commit "author" ;;;
  date <-- Py.get commit "date" (JStr "") ;;;
  sha <-- Py.get commit "sha" (JStr "") ;;;
  Ok (mkDocument
        ("Commit in " ++ py_str F repo_name ++ ": " ++ py_str F message)
        [("repo", repo_name); ("type", JStr "commit"); ("author", author);
         ("date", date); ("sha", sha)]).

(** The documents of issues and of pull requests differ by the words
    [label] and [type] only. *)
Definition item_document (F : formats) (label type : string)
    (repo_name item : json) : result document :=
  title <-- Py.subscript item "title" ;;;
  number <-- Py.subscript item "number" ;;;
  author <-- Py.subscript item "author" ;;;
  state <-- Py.subscript item "state" ;;;
  html_url <-- Py.get item "url" (JStr "") ;;;
  Ok (mkDocument
        (label ++ " in " ++ py_str F repo_name ++ ": " ++ py_str F title)
        [("repo", repo_name); ("type", JStr type); ("number", number);
         ("author", author); ("state", state); ("url", html_url)]).

(** One turn of [for repo_data in repo_data_list]: the three inner loops,
    one after the other. *)
Definition repo_documents (F : formats) (repo_data : json)
    : result (list document) :=
  repo_name <-- Py.subscript repo_data "repo_name" ;;;
  commits <-- Py.get repo_data "commits" (JArr []) ;;;
  commit_rows <-- Py.iter commits ;;;
  commit_docs <-- rmap (commit_document F repo_name) commit_rows ;;;
  issues <-- Py.get repo_data "issues" (JArr []) ;;;
  issue_rows <-- Py.iter issues ;;;
  issue_docs <-- rmap (item_document F "Issue" "issue" repo_name)
                   issue_rows ;;;
  prs <-- Py.get repo_data "pull_requests" (JArr []) ;;;
  pr_rows <-- Py.iter prs ;;;
  pr_docs <-- rmap (item_document F "Pull request" "pull_request" repo_name)
                pr_rows ;;;
  Ok (commit_docs ++ issue_docs ++ pr_docs)%list.

(** The list [documents] passed to [Chroma.from_documents]. *)
Definition documents (F : formats) (repo_data_list : list json)
    : result (list document) :=
  per_repo <-- rmap (repo_documents F) repo_data_list ;;;
  Ok (List.concat per_repo).

(** The ["type"] entry of a document's metadata. *)
Definition document_type (d : document) : option json :=
  Py.dict_lookup "type" (metadata d).

End VectorDb.

(** * Properties *)

Local Open Scope list_scope.

(** ** Comprehensions over well-shaped lists *)

Lemma rfilter_total {A} (p : A -> result bool) (q : A -> bool) (xs : list A) :
  (forall x, In x xs -> p x = Ok (q x)) ->
  rfilter p xs = Ok (filter q xs).
Proof.
  induction xs as [|x xs IH]; intros Hp; simpl.
  - reflexivity.
  - rewrite (Hp x (or_introl eq_refl)).
    rewrite IH by (intros y Hy; apply Hp; now right).
    now destruct (q x).
Qed.

Lemma rmap_total {A B} (f : A -> result B) (g : A -> B) (xs : list A) :
  (forall x, In x xs -> f x = Ok (g x)) ->
  rmap f xs = Ok (map g xs).
Proof.
  induction xs as [|x xs IH]; intros Hf; simpl.
  - reflexivity.
  - rewrite (Hf x (or_introl eq_refl)).
    now rewrite IH by (intros y Hy; apply Hf; now right).
Qed.

Lemma rmap_Ok_inv {A B} (f : A -> result B) (xs : list A) (ys : list B) :
  rmap f xs = Ok ys -> Forall2 (fun x y => f x = Ok y) xs ys.
Proof.
  revert ys; induction xs as [|x xs IH]; intros ys; simpl.
  - intros [= <-]. constructor.
  - destruct (f x) as [y|e] eqn:Hx; [|discriminate].
    destruct (rmap f xs) as [ys'|e] eqn:Hxs; [|discriminate].
    intros [= <-]. constructor; auto.
Qed.

Lemma rfilter_raises {A} (p : A -> result bool) (xs : list A) :
  Exists (fun x => exists e, p x = Raise e) xs ->
  exists e, rfilter p xs = Raise e.
Proof.
  induction 1 as [x xs [e He]|x xs _ [e IH]]; simpl.
  - rewrite He. now exists e.
  - destruct (p x) as [b|e'].
    + rewrite IH. now exists e.
    + now exists e'.
Qed.

Lemma has_pull_request_dict (v : json) :
  is_dict v -> has_pull_request v = Ok (carries_marker v).
Proof. intros [d ->]. reflexivity. Qed.

Lemma lacks_pull_request_dict (v : json) :
  is_dict v -> lacks_pull_request v = Ok (negb (carries_marker v)).
Proof.
  intros [d ->]. unfold lacks_pull_request, carries_marker; simpl.
  now destruct (Py.dict_lookup "pull_request" d).
Qed.

Lemma filter_split_length {A} (q : A -> bool) (xs : list A) :
  (List.length (filter q xs) + List.length (filter (fun x => negb (q x)) xs)
   = List.length xs)%nat.
Proof.
  induction xs as [|x xs IH]; simpl; [reflexivity|].
  destruct (q x); simpl; lia.
Qed.

Lemma filter_split_permutation {A} (q : A -> bool) (xs : list A) :
  Permutation (filter q xs ++ filter (fun x => negb (q x)) xs)%list xs.
Proof.
  induction xs as [|x xs IH]; simpl; [constructor|].
  destruct (q x); simpl.
  - now constructor.
  - symmetry. apply Permutation_cons_app. now symmetry.
Qed.

(** ** The split of the issues endpoint's items *)

(** C2: for every list of raw payloads of the issues endpoint, the two
    comprehensions of [process_repo_data] succeed and partition it: a
    payload is among the pull requests iff it carries the 'pull_request'
    field and among the issues iff it does not, none is in both, and the two
    sizes add up to the raw count. *)
Theorem classify_partitions (items : list json) :
  Forall is_dict items ->
  exists pull_requests issues,
    classify items = Ok (pull_requests, issues) /\
    (forall x, In x items ->
       (In x pull_requests <-> carries_marker x = true) /\
       (In x issues <-> carries_marker x = false)) /\
    (forall x, ~ (In x pull_requests /\ In x issues)) /\
    (forall x, In x pull_requests \/ In x issues -> In x items) /\
    Permutation (pull_requests ++ issues)%list items /\
    (List.length pull_requests + List.length issues = List.length items)%nat.
Proof.
  intros Hd. rewrite Forall_forall in Hd.
  exists (filter carries_marker items),
         (filter (fun x => negb (carries_marker x)) items).
  unfold classify.
  rewrite (rfilter_total has_pull_request carries_marker)
    by (intros x Hx; now apply has_pull_request_dict, Hd).
  rewrite (rfilter_total lacks_pull_request
             (fun x => negb (carries_marker x)))
    by (intros x Hx; now apply lacks_pull_request_dict, Hd).
  simpl. split; [reflexivity|].
  repeat split.
  - intros Hin. now apply filter_In in Hin.
  - intros Hm. apply filter_In. now split.
  - intros Hin. apply filter_In in Hin. now destruct (carries_marker x).
  - intros Hm. apply filter_In. split; [assumption|]. now rewrite Hm.
  - intros x [H1 H2]. apply filter_In in H1, H2.
    destruct H1 as [_ H1], H2 as [_ H2]. rewrite H1 in H2. discriminate.
  - intros x [H|H]; apply filter_In in H; tauto.
  - apply filter_split_permutation.
  - apply filter_split_length.
Qed.

Lemma classify_partitions_witness :
  Forall is_dict issues_endpoint_items /\
  exists pull_requests issues,
    classify issues_endpoint_items = Ok (pull_requests, issues) /\
    (List.length pull_requests + List.length issues
     = List.length issues_endpoint_items)%nat.
Proof.
  assert (H : Forall is_dict issues_endpoint_items)
    by (repeat constructor; eexists; reflexivity).
  split; [exact H|].
  destruct (classify_partitions issues_endpoint_items H)
    as (prs & iss & Hc & _ & _ & _ & _ & Hlen).
  exists prs, iss. now split.
Defined.

(** ** Commit normalization *)

Ltac rbind_inv H :=
  repeat match type of H with
         | rbind ?r _ = Ok _ =>
             let E := fresh "E" in
             destruct r eqn:E; [simpl in H | discriminate H]
         end.

(** The [else] arm of the author expression reads the display name the way
    [metadata_author_name] does. *)
Lemma metadata_name_fallback (d : list (string * json)) (commit_info n : json) :
  Py.get (JObj d) "commit" (JObj []) = Ok commit_info ->
  (a <-- Py.get commit_info "author" (JObj []) ;;;
   Py.get a "name" (JStr "Unknown"))%result = Ok n ->
  n = match metadata_author_name (JObj d) with
      | Some name => name
      | None => JStr "Unknown"
      end.
Proof.
  unfold metadata_author_name, field; simpl.
  intros [= <-] H. rbind_inv H.
  destruct (Py.dict_lookup "commit" d) as [ci|]; simpl in *.
  - destruct ci as [| | | | |c]; try discriminate E.
    simpl in E. injection E as <-.
    destruct (Py.dict_lookup "author" c) as [a|]; simpl in *.
    + destruct a as [| | | | |a]; try discriminate H.
      simpl in H. injection H as <-.
      now destruct (Py.dict_lookup "name" a).
    + now injection H as <-.
  - injection E as <-. now injection H as <-.
Qed.

(** C4 (as the code has it): in a normalized commit the author is the
    account login whenever the payload has one; when the account object is
    absent, null or empty it is the display name of the commit metadata, or
    "Unknown" without one, which is the specification's order; when the
    account object is non-empty and has no login it is "Unknown", whatever
    the commit metadata says. *)
Theorem commit_author_resolution (commit record : json) :
  commit_record commit = Ok record ->
  (forall login, account_login commit = Some login ->
     field "author" record = Some login) /\
  (Py.truthy (account_object commit) = false ->
     field "author" record = Some (spec_commit_author commit) /\
     field "author" record =
       Some (match metadata_author_name commit with
             | Some name => name
             | None => JStr "Unknown"
             end)) /\
  (Py.truthy (account_object commit) = true ->
   account_login commit = None ->
     field "author" record = Some (JStr "Unknown")).
Proof.
  intros H. unfold commit_record in H. rbind_inv H.
  injection H as <-.
  destruct commit as [| | | | |d]; try discriminate E.
  pose proof (metadata_name_fallback d a0 a2 E0) as Hname.
  simpl in E. injection E as <-. clear E0 E1 E3 E4 E5.
  unfold spec_commit_author, account_login, account_object, field in *.
  simpl.
  destruct (Py.dict_lookup "author" d) as [account|] eqn:Ha.
  - destruct (Py.truthy account) eqn:Ht.
    + destruct account as [| | | | |acc]; try discriminate E2.
      simpl in E2. injection E2 as <-.
      destruct (Py.dict_lookup "login" acc);
        repeat split; intros; congruence.
    + assert (Hlogin : match account with
                       | JObj a => Py.dict_lookup "login" a
                       | _ => None
                       end = None)
        by (destruct account as [| | | | |[|]]; try reflexivity;
            discriminate Ht).
      rewrite Hlogin, (Hname E2). repeat split; intros; congruence.
  - simpl in E2. rewrite (Hname E2).
    repeat split; intros; simpl in *; congruence.
Qed.

Lemma commit_author_resolution_witness :
  commit_record commit_unlinked_account
    = Ok (JObj [("sha", JStr "3f2a1c"); ("author", JStr "Alice");
                ("date", JStr "2024-01-01T10:00:00Z");
                ("message", JStr "Fix typo"); ("url", JStr "")]) /\
  Py.truthy (account_object commit_unlinked_account) = false /\
  field "author"
    (JObj [("sha", JStr "3f2a1c"); ("author", JStr "Alice");
           ("date", JStr "2024-01-01T10:00:00Z");
           ("message", JStr "Fix typo"); ("url", JStr "")])
    = Some (spec_commit_author commit_unlinked_account).
Proof.
  split; [reflexivity|]. split; [reflexivity|].
  apply (commit_author_resolution commit_unlinked_account);
    reflexivity.
Defined.

(** C4 (as the specification states it) fails: a payload whose account
    object has no login and whose commit metadata names the author is
    normalized to "Unknown", not to the display name. *)
Lemma commit_author_skips_display_name :
  account_login commit_without_login = None /\
  metadata_author_name commit_without_login = Some (JStr "Alice") /\
  spec_commit_author commit_without_login = JStr "Alice" /\
  exists record,
    commit_record commit_without_login = Ok record /\
    field "author" record = Some (JStr "Unknown") /\
    field "author" record <> Some (spec_commit_author commit_without_login).
Proof.
  repeat split; try reflexivity.
  eexists. split; [reflexivity|]. split; [reflexivity|]. discriminate.
Qed.

(** ** Issue and pull request normalization *)

Lemma rmap_label_names (rows names : list json) :
  rmap (fun label => Py.get label "name" (JStr "")) rows = Ok names ->
  names = map label_name_or_empty rows.
Proof.
  intros H. apply rmap_Ok_inv in H.
  induction H as [|label n rows names Hn _ IH]; [reflexivity|].
  simpl. f_equal; [|exact IH].
  destruct label as [| | | | |d]; try discriminate Hn.
  unfold label_name_or_empty, field. simpl in Hn. congruence.
Qed.

Lemma label_names_spec (v labels : json) :
  label_names v = Ok labels ->
  labels = JArr (map label_name_or_empty (raw_labels v)).
Proof.
  unfold label_names. intros H. rbind_inv H. injection H as <-.
  f_equal.
  destruct v as [| | | | |d]; try discriminate E.
  unfold raw_labels, field. simpl in E. injection E as <-.
  destruct (Py.dict_lookup "labels" d) as [[| | |s|rows|o]|];
    try discriminate E0; simpl in E0; injection E0 as <-.
  - destruct s; [now injection E1 as <-|discriminate E1].
  - now apply rmap_label_names.
  - destruct o; [now injection E1 as <-|discriminate E1].
  - now injection E1 as <-.
Qed.

(** C7 (as the code has it): the labels of a normalized issue or pull
    request are the list, in raw order, of one entry per raw label: the
    label's name, or the empty string for a label without a name.  Nothing
    is dropped and nothing is deduplicated. *)
Theorem labels_one_entry_per_raw_label (v record : json) :
  issue_record v = Ok record \/ pr_record v = Ok record ->
  field "labels" record
    = Some (JArr (map label_name_or_empty (raw_labels v))) /\
  (forall names, field "labels" record = Some (JArr names) ->
     List.length names = List.length (raw_labels v)).
Proof.
  intros H.
  assert (Hl : field "labels" record
               = Some (JArr (map label_name_or_empty (raw_labels v)))).
  { destruct H as [H|H];
      [unfold issue_record in H|unfold pr_record in H];
      rbind_inv H; injection H as <-;
      apply label_names_spec in E5; subst; reflexivity. }
  split; [exact Hl|].
  intros names Hn. rewrite Hl in Hn. injection Hn as <-.
  apply length_map.
Qed.

Lemma labels_one_entry_per_raw_label_witness :
  (exists record,
     issue_record issue_with_nameless_label = Ok record /\
     field "labels" record
       = Some (JArr [JStr "bug"; JStr ""; JStr "bug"])).
Proof.
  eexists. split; [reflexivity|].
  apply (labels_one_entry_per_raw_label issue_with_nameless_label).
  left. reflexivity.
Defined.

(** C7 (as the specification states it) fails: a raw label without a name
    leaves the placeholder "" in the labels, and a repeated name stays
    repeated, so the field is not a set of the names present. *)
Lemma labels_keep_placeholder_and_duplicates :
  exists record labels,
    issue_record issue_with_nameless_label = Ok record /\
    pr_record issue_with_nameless_label = Ok record /\
    field "labels" record = Some (JArr labels) /\
    labels = [JStr "bug"; JStr ""; JStr "bug"] /\
    ~ NoDup labels /\
    (In (JStr "") labels /\
     ~ exists label, In label (raw_labels issue_with_nameless_label) /\
                     field "name" label = Some (JStr "")) /\
    ~ spec_label_set issue_with_nameless_label labels.
Proof.
  eexists. exists [JStr "bug"; JStr ""; JStr "bug"].
  assert (Hdup : ~ NoDup [JStr "bug"; JStr ""; JStr "bug"]).
  { intros Hn. inversion Hn as [|x l Hin _]; subst.
    apply Hin. right; left; reflexivity. }
  repeat split; try reflexivity; try exact Hdup.
  - right; left; reflexivity.
  - intros (label & Hin & Hname). simpl in Hin.
    destruct Hin as [<-|[<-|[<-|[]]]]; discriminate Hname.
  - intros [Hn _]. exact (Hdup Hn).
Qed.

(** ** A missing issue number *)

(** C8 (as the code has it): an issue payload without a number is
    normalized like any other, with the empty string as its number; the
    missing number never raises (the payload raises without a number
    exactly when it raises with one), and the normalized collection keeps
    one record per raw issue. *)
Theorem missing_number_defaults_to_empty (d : list (string * json)) :
  Py.dict_lookup "number" d = None ->
  (forall record, issue_record (JObj d) = Ok record ->
     field "number" record = Some (JStr "")) /\
  (forall n e, issue_record (JObj d) = Raise e <->
               issue_record (JObj (("number", n) :: d)) = Raise e) /\
  (forall issues issue_data,
     In (JObj d) issues -> rmap issue_record issues = Ok issue_data ->
     List.length issue_data = List.length issues /\
     exists record, In record issue_data /\
                    field "number" record = Some (JStr "")).
Proof.
  intros Hnone.
  assert (Hnum : forall record, issue_record (JObj d) = Ok record ->
                   field "number" record = Some (JStr "")).
  { intros record H. unfold issue_record in H. rbind_inv H.
    injection H as <-. simpl in E. rewrite Hnone in E.
    injection E as <-. reflexivity. }
  split; [exact Hnum|]. split.
  - intros n e. unfold issue_record, label_names. cbn.
    repeat match goal with
           | |- context [rbind ?r _] => destruct r; cbn
           end;
      split; intros H; (discriminate H || exact H).
  - intros issues issue_data Hin Hmap. apply rmap_Ok_inv in Hmap.
    split.
    + symmetry. exact (Forall2_length Hmap).
    + induction Hmap as [|x y xs ys Hxy _ IH]; [destruct Hin|].
      destruct Hin as [->|Hin].
      * exists y. split; [now left|]. now apply Hnum.
      * destruct (IH Hin) as (r & Hr & Hf). exists r. split; [now right|assumption].
Qed.

Lemma missing_number_defaults_to_empty_witness :
  Py.dict_lookup "number"
    [("title", JStr "Crash on start"); ("state", JStr "open")] = None /\
  exists record,
    issue_record issue_without_number = Ok record /\
    field "number" record = Some (JStr "").
Proof.
  split; [reflexivity|]. eexists. split; [reflexivity|].
  apply (missing_number_defaults_to_empty
           [("title", JStr "Crash on start"); ("state", JStr "open")]);
    reflexivity.
Defined.

(** C8 (as the specification states it) fails: normalizing an issue without
    a number raises nothing and yields a record whose number is "". *)
Lemma issue_without_number_does_not_raise :
  issue_record issue_without_number
    = Ok (JObj [("number", JStr ""); ("title", JStr "Crash on start");
                ("state", JStr "open"); ("created_at", JStr "");
                ("updated_at", JStr ""); ("author", JStr "Unknown");
                ("labels", JArr []); ("url", JStr "")]) /\
  ~ exists e, issue_record issue_without_number = Raise e.
Proof.
  split; [reflexivity|]. intros [e He]. discriminate He.
Qed.

(** ** Traces *)

Lemma gets_app (t u : list event) : gets (t ++ u)%list = (gets t ++ gets u)%list.
Proof. apply flat_map_app. Qed.


(** ** One request *)

Ltac run := unfold bind, ret, raise, lift, try_except, logging, emit,
  time_sleep, time_time, datetime_now, get_rate_limit_remaining,
  set_rate_limit_remaining, requests_get; simpl.

(** A 200 answer with a JSON body ends [_make_request] at once: one GET,
    and the body is returned. *)
Lemma make_request_on_200 (E : env) (fuel : nat) (r : request) (s : state)
    (j : json) :
  status_code (server E (requests_sent s) r) = 200%Z ->
  body (server E (requests_sent s) r) = Some j ->
  exists s',
    _make_request E (S fuel) r s = Ret j s' /\
    requests_sent s' = S (requests_sent s) /\
    gets (trace s') = (gets (trace s) ++ [r])%list.
Proof.
  intros Hst Hb. simpl. run.
  destruct (rate_limit_remaining s <? 10)%Z; simpl;
    rewrite Hst; simpl; unfold response_json; rewrite Hb; simpl;
    eexists; (split; [reflexivity|]); simpl;
    (split; [reflexivity|]);
    rewrite ?gets_app; simpl; now rewrite ?app_nil_r.
Qed.

(** ** Pagination *)

Lemma get_commits_loop_eq E fuel u since_date page commits :
  get_commits_loop E (S fuel) u since_date page commits =
  (data <- _make_request E (S fuel)
             (mkRequest u (Some since_date) None (Some page)) ;;
   if negb (Py.truthy data) then ret commits
   else
     items <- lift (Py.iter data) ;;
     n <- lift (Py.len data) ;;
     if (n <? 30)%nat then ret (commits ++ items)%list
     else get_commits_loop E fuel u since_date (S page)
            (commits ++ items)%list).
Proof. reflexivity. Qed.

Lemma get_issues_loop_eq E fuel u since_date state page issues :
  get_issues_loop E (S fuel) u since_date state page issues =
  (data <- _make_request E (S fuel)
             (mkRequest u (Some since_date) (Some state) (Some page)) ;;
   if negb (Py.truthy data) then ret issues
   else
     items <- lift (Py.iter data) ;;
     n <- lift (Py.len data) ;;
     if (n <? 30)%nat then ret (issues ++ items)%list
     else get_issues_loop E fuel u since_date state (S page)
            (issues ++ items)%list).
Proof. reflexivity. Qed.

(** What one turn of a page loop does on a synthetic source, and how the
    induction on the number of full pages goes; shared by the two loops. *)
Ltac page_loop loop_eq :=
  match goal with
  | Hsrc : synthetic_source ?E ?pages |- forall N : nat, _ =>
      induction N as [|N IH];
      intros pg acc fuel s Hfull Hshort Hfuel;
      (destruct fuel as [|fuel]; [lia|]);
      rewrite loop_eq; unfold bind at 1;
      match goal with
      | |- context [_make_request E (S fuel) ?r s] =>
          destruct (Hsrc (requests_sent s) r pg eq_refl) as [Hst Hb];
          destruct (make_request_on_200 E fuel r s _ Hst Hb)
            as (s1 & -> & Hsent & Hgets)
      end
  end.

Lemma get_commits_loop_pages (E : env) (pages : nat -> list json)
    (u : string) (since_date : Q) :
  synthetic_source E pages ->
  forall (N pg : nat) (acc : list json) (fuel : nat) (s : state),
    (forall p, (pg <= p < pg + N)%nat -> List.length (pages p) = 30%nat) ->
    (List.length (pages (pg + N)) < 30)%nat ->
    (N < fuel)%nat ->
    exists s',
      get_commits_loop E fuel u since_date pg acc s
        = Ret (acc ++ List.concat (map pages (seq pg (S N))))%list s' /\
      requested_pages (trace s')
        = (requested_pages (trace s) ++ seq pg (S N))%list /\
      requests_sent s' = (requests_sent s + S N)%nat.
Proof.
  intros Hsrc N. revert N. page_loop get_commits_loop_eq.
  - rewrite Nat.add_0_r in Hshort.
    assert (Hreq : requested_pages (trace s1)
                   = (requested_pages (trace s) ++ [pg])%list)
      by (unfold requested_pages; rewrite Hgets, flat_map_app;
          simpl; reflexivity).
    destruct (pages pg) as [|x xs] eqn:Hp; simpl.
    + exists s1. run. rewrite Hp. simpl. rewrite !app_nil_r.
      repeat split; [exact Hreq | lia].
    + apply Nat.ltb_lt in Hshort. simpl in Hshort. run.
      rewrite Hshort, Hp. simpl. rewrite app_nil_r.
      exists s1. repeat split; [exact Hreq | lia].
  - assert (Hlen : List.length (pages pg) = 30%nat) by (apply Hfull; lia).
    destruct (pages pg) as [|x xs] eqn:Hp; [discriminate Hlen|].
    simpl negb. cbv iota. run.
    assert (Hge : (S (List.length xs) <? 30)%nat = false)
      by (apply Nat.ltb_ge; simpl in Hlen; lia).
    simpl in Hge. rewrite Hge.
    destruct (IH (S pg) (acc ++ x :: xs)%list fuel s1)
      as (s' & Hrun & Hreq & Hcnt).
    + intros p Hp'. apply Hfull. lia.
    + now replace (S pg + N)%nat with (pg + S N)%nat by lia.
    + lia.
    + exists s'. rewrite Hrun. repeat split.
      * f_equal. change (seq pg (S (S N))) with (pg :: seq (S pg) (S N)).
        simpl map. simpl List.concat. rewrite Hp. now rewrite <- app_assoc.
      * rewrite Hreq. unfold requested_pages at 1.
        rewrite Hgets, flat_map_app. simpl.
        now rewrite <- app_assoc.
      * lia.
Qed.

Lemma get_issues_loop_pages (E : env) (pages : nat -> list json)
    (u : string) (since_date : Q) (state_filter : string) :
  synthetic_source E pages ->
  forall (N pg : nat) (acc : list json) (fuel : nat) (s : state),
    (forall p, (pg <= p < pg + N)%nat -> List.length (pages p) = 30%nat) ->
    (List.length (pages (pg + N)) < 30)%nat ->
    (N < fuel)%nat ->
    exists s',
      get_issues_loop E fuel u since_date state_filter pg acc s
        = Ret (acc ++ List.concat (map pages (seq pg (S N))))%list s' /\
      requested_pages (trace s')
        = (requested_pages (trace s) ++ seq pg (S N))%list /\
      requests_sent s' = (requests_sent s + S N)%nat.
Proof.
  intros Hsrc N. revert N. page_loop get_issues_loop_eq.
  - rewrite Nat.add_0_r in Hshort.
    assert (Hreq : requested_pages (trace s1)
                   = (requested_pages (trace s) ++ [pg])%list)
      by (unfold requested_pages; rewrite Hgets, flat_map_app;
          simpl; reflexivity).
    destruct (pages pg) as [|x xs] eqn:Hp; simpl.
    + exists s1. run. rewrite Hp. simpl. rewrite !app_nil_r.
      repeat split; [exact Hreq | lia].
    + apply Nat.ltb_lt in Hshort. simpl in Hshort. run.
      rewrite Hshort, Hp. simpl. rewrite app_nil_r.
      exists s1. repeat split; [exact Hreq | lia].
  - assert (Hlen : List.length (pages pg) = 30%nat) by (apply Hfull; lia).
    destruct (pages pg) as [|x xs] eqn:Hp; [discriminate Hlen|].
    simpl negb. cbv iota. run.
    assert (Hge : (S (List.length xs) <? 30)%nat = false)
      by (apply Nat.ltb_ge; simpl in Hlen; lia).
    simpl in Hge. rewrite Hge.
    destruct (IH (S pg) (acc ++ x :: xs)%list fuel s1)
      as (s' & Hrun & Hreq & Hcnt).
    + intros p Hp'. apply Hfull. lia.
    + now replace (S pg + N)%nat with (pg + S N)%nat by lia.
    + lia.
    + exists s'. rewrite Hrun. repeat split.
      * f_equal. change (seq pg (S (S N))) with (pg :: seq (S pg) (S N)).
        simpl map. simpl List.concat. rewrite Hp. now rewrite <- app_assoc.
      * rewrite Hreq. unfold requested_pages at 1.
        rewrite Hgets, flat_map_app. simpl.
        now rewrite <- app_assoc.
      * lia.
Qed.

(** C1: against a source whose pages 1..N hold 30 items and whose page N+1
    holds fewer, [get_commits] and [get_issues] return (with any fuel above
    N) after requesting exactly the pages 1, ..., N+1, in this order, and
    what they return is the concatenation of these pages, in order. *)
Theorem pagination_stops_at_short_page (E : env) (pages : nat -> list json)
    (N : nat) (repo : string) (days : Z) (state_filter : string)
    (fuel : nat) (s : state) :
  synthetic_source E pages ->
  (forall p, (1 <= p <= N)%nat -> List.length (pages p) = 30%nat) ->
  (List.length (pages (S N)) < 30)%nat ->
  (N < fuel)%nat ->
  (exists s',
     get_commits E fuel repo days s
       = Ret (List.concat (map pages (seq 1 (S N)))) s' /\
     requested_pages (trace s')
       = requested_pages (trace s) ++ seq 1 (S N) /\
     requests_sent s' = (requests_sent s + S N)%nat) /\
  (exists s',
     get_issues E fuel repo days state_filter s
       = Ret (List.concat (map pages (seq 1 (S N)))) s' /\
     requested_pages (trace s')
       = requested_pages (trace s) ++ seq 1 (S N) /\
     requests_sent s' = (requests_sent s + S N)%nat).
Proof.
  intros Hsrc Hfull Hshort Hfuel. split.
  - unfold get_commits. run.
    apply (get_commits_loop_pages E pages _ _ Hsrc N 1 [] fuel s);
      [intros p Hp; apply Hfull; lia | exact Hshort | exact Hfuel].
  - unfold get_issues. run.
    apply (get_issues_loop_pages E pages _ _ _ Hsrc N 1 [] fuel s);
      [intros p Hp; apply Hfull; lia | exact Hshort | exact Hfuel].
Qed.

Lemma pagination_stops_at_short_page_witness :
  synthetic_source (env_of (paged_server sample_pages)) sample_pages /\
  (exists s',
     get_commits (env_of (paged_server sample_pages)) 2 "octocat/hello" 7
       initial_state
       = Ret (sample_pages 1 ++ sample_pages 2) s' /\
     requested_pages (trace s') = [1; 2]%nat).
Proof.
  assert (Hsrc : synthetic_source (env_of (paged_server sample_pages))
                   sample_pages).
  { intros n r p Hp. unfold paged_server; simpl. rewrite Hp. now split. }
  split; [exact Hsrc|].
  destruct (pagination_stops_at_short_page
              (env_of (paged_server sample_pages)) sample_pages 1
              "octocat/hello" 7 "all" 2 initial_state Hsrc)
    as [(s' & Hrun & Hreq & _) _].
  - intros p Hp. assert (p = 1)%nat as -> by lia. reflexivity.
  - simpl. lia.
  - lia.
  - exists s'. split.
    + rewrite Hrun. reflexivity.
    + exact Hreq.
Defined.

(** ** Rate limiting *)

Lemma throttled_requests_sent (s : state) :
  requests_sent (throttled s) = requests_sent s.
Proof. unfold throttled. now destruct (rate_limit_remaining s <? 10)%Z. Qed.

Lemma throttled_gets (s : state) : gets (trace (throttled s)) = gets (trace s).
Proof.
  unfold throttled. destruct (rate_limit_remaining s <? 10)%Z; simpl.
  - rewrite !gets_app. simpl. now rewrite !app_nil_r.
  - reflexivity.
Qed.

Lemma rate_limited_is_403 (resp : response) :
  is_rate_limited resp = Ok true -> status_code resp = 403%Z.
Proof.
  unfold is_rate_limited.
  destruct (status_code resp =? 403)%Z eqn:H; [|discriminate].
  intros _. now apply Z.eqb_eq.
Qed.

(** A 403 rate-limited answer makes [_make_request] sleep and call itself. *)
Lemma make_request_retry (E : env) (fuel : nat) (r : request) (s : state) :
  is_rate_limited (server E (requests_sent s) r) = Ok true ->
  _make_request E (S fuel) r s
  = retry E fuel r (after_rate_limit r (server E (requests_sent s) r) s).
Proof.
  intros Hl. pose proof (rate_limited_is_403 _ Hl) as Hst.
  unfold after_rate_limit, throttled, backoff, retry. simpl. run.
  destruct (rate_limit_remaining s <? 10)%Z; simpl;
    rewrite Hst, Hl; simpl; destruct fuel; reflexivity.
Qed.





(** ** The backoff before a retry *)






(** ** Running the monad *)

Lemma bind_Ret {A B} (m : M A) (f : A -> M B) (s s' : state) (a : A) :
  m s = Ret a s' -> bind m f s = f a s'.
Proof. unfold bind. now intros ->. Qed.

Lemma bind_Exn {A B} (m : M A) (f : A -> M B) (s s' : state) (e : exn) :
  m s = Exn e s' -> bind m f s = Exn e s'.
Proof. unfold bind. now intros ->. Qed.

Lemma bind_OutOfFuel {A B} (m : M A) (f : A -> M B) (s : state) :
  m s = OutOfFuel -> bind m f s = OutOfFuel.
Proof. unfold bind. now intros ->. Qed.

Lemma logging_run (l : level) (m : log_msg) (s : state) :
  logging l m s = Ret tt (logged l m s).
Proof. reflexivity. Qed.

Lemma lift_Ok {A} (r : result A) (a : A) (s : state) :
  r = Ok a -> lift r s = Ret a s.
Proof. now intros ->. Qed.

Lemma lift_Raise {A} (r : result A) (e : exn) (s : state) :
  r = Raise e -> lift r s = Exn e s.
Proof. now intros ->. Qed.

(** ** Releases *)

Lemma published_after_raises (E : env) (since_date : Q) (release : json) :
  unparseable_published_at E release ->
  exists e, published_after E since_date release = Raise e.
Proof.
  intros (d & -> & [H|[H|(s & H & Hs)]]);
    unfold published_after; simpl; rewrite H; simpl.
  - now exists (KeyError "published_at").
  - now exists TypeError.
  - rewrite Hs. now exists ValueError.
Qed.

Lemma get_releases_loop_eq E fuel u days page releases :
  get_releases_loop E (S fuel) u days page releases =
  (data <- _make_request E (S fuel) (mkRequest u None None (Some page)) ;;
   if negb (Py.truthy data) then ret releases
   else
     now <- datetime_now ;;
     rows <- lift (Py.iter data) ;;
     recent_releases <-
       lift (rfilter (published_after E (now - timedelta_days days)%Q) rows) ;;
     n <- lift (Py.len data) ;;
     if (n <? 30)%nat || (List.length recent_releases <? n)%nat
     then ret (releases ++ recent_releases)
     else get_releases_loop E fuel u days (S page)
            (releases ++ recent_releases)).
Proof. reflexivity. Qed.

Lemma iter_nonempty_truthy (data : json) (rows : list json) :
  Py.iter data = Ok rows -> rows <> [] -> Py.truthy data = true.
Proof.
  destruct data as [| | |str|l|d]; try discriminate; simpl;
    intros [= <-] Hne.
  - destruct str; [now elim Hne | reflexivity].
  - destruct l; [now elim Hne | reflexivity].
  - destruct d; [now elim Hne | reflexivity].
Qed.

(** The page loop raises on a page that holds an unparseable release. *)
Lemma get_releases_loop_raises (E : env) (fuel : nat) (u : string) (days : Z)
    (pg : nat) (acc : list json) (s s1 : state) (data : json)
    (rows : list json) :
  _make_request E (S fuel) (mkRequest u None None (Some pg)) s = Ret data s1 ->
  Py.iter data = Ok rows ->
  Exists (unparseable_published_at E) rows ->
  exists e, get_releases_loop E (S fuel) u days pg acc s = Exn e s1.
Proof.
  intros Hreq Hiter Hbad.
  rewrite get_releases_loop_eq, (bind_Ret _ _ _ _ _ Hreq).
  rewrite (iter_nonempty_truthy data rows Hiter)
    by (intros ->; inversion Hbad).
  change (negb true) with false. cbv iota.
  destruct (rfilter_raises
              (published_after E (clock s1 - timedelta_days days)%Q) rows)
    as [e He].
  { eapply Exists_impl; [|exact Hbad].
    intros r Hr. now apply published_after_raises. }
  exists e. unfold datetime_now. unfold bind at 1. cbv beta iota.
  rewrite (bind_Ret _ _ _ _ _ (lift_Ok _ _ _ Hiter)).
  now rewrite (bind_Exn _ _ _ _ _ (lift_Raise _ _ _ He)).
Qed.

(** ** [process_repo_data]: the [try] and its handler *)

Lemma process_repo_data_Ret E fuel repo days s d s' :
  process_repo_data_body E fuel repo days
    (logged Info (FetchingData repo days) s) = Ret d s' ->
  process_repo_data E fuel repo days s = Ret d s'.
Proof.
  intros H. unfold process_repo_data.
  rewrite (bind_Ret _ _ _ _ _ (logging_run _ _ _)).
  unfold try_except. now rewrite H.
Qed.

Lemma process_repo_data_Exn E fuel repo days s e s' :
  process_repo_data_body E fuel repo days
    (logged Info (FetchingData repo days) s) = Exn e s' ->
  process_repo_data E fuel repo days s
  = Exn e (logged Error (ErrorProcessingRepo repo e) s').
Proof.
  intros H. unfold process_repo_data.
  rewrite (bind_Ret _ _ _ _ _ (logging_run _ _ _)).
  unfold try_except. rewrite H.
  now rewrite (bind_Ret _ _ _ _ _ (logging_run _ _ _)).
Qed.

(** An exception out of [get_releases] leaves [process_repo_data] as it is:
    the handler logs it and raises it again. *)
Lemma process_repo_data_releases_raise E fuel repo days s
    info s1 commits s2 issues s3 split e s4 :
  get_repository_info E fuel repo (logged Info (FetchingData repo days) s)
    = Ret info s1 ->
  get_commits E fuel repo days s1 = Ret commits s2 ->
  get_issues E fuel repo days "all" s2 = Ret issues s3 ->
  classify issues = Ok split ->
  get_releases E fuel repo days s3 = Exn e s4 ->
  process_repo_data E fuel repo days s
  = Exn e (logged Error (ErrorProcessingRepo repo e) s4).
Proof.
  intros Hinfo Hcommits Hissues Hsplit Hrel.
  apply process_repo_data_Exn. unfold process_repo_data_body.
  rewrite (bind_Ret _ _ _ _ _ Hinfo), (bind_Ret _ _ _ _ _ Hcommits),
    (bind_Ret _ _ _ _ _ Hissues),
    (bind_Ret _ _ _ _ _ (lift_Ok _ _ _ Hsplit)).
  now rewrite (bind_Exn _ _ _ _ _ Hrel).
Qed.

(** C10: a page of releases that holds a release whose [published_at] is
    absent, null or not accepted by [strptime] makes the page loop of
    [get_releases] raise, on whichever page it comes; the release is
    neither filtered out nor skipped, and the exception takes
    [process_repo_data] down with it. *)
Theorem unparseable_release_aborts_fetch (E : env) (fuel : nat)
    (repo : string) (days : Z) :
  (forall u pg acc s s1 data rows,
     _make_request E fuel (mkRequest u None None (Some pg)) s = Ret data s1 ->
     Py.iter data = Ok rows ->
     Exists (unparseable_published_at E) rows ->
     exists e, get_releases_loop E fuel u days pg acc s = Exn e s1) /\
  (forall s info s1 commits s2 issues s3 split data s4 rows,
     get_repository_info E fuel repo (logged Info (FetchingData repo days) s)
       = Ret info s1 ->
     get_commits E fuel repo days s1 = Ret commits s2 ->
     get_issues E fuel repo days "all" s2 = Ret issues s3 ->
     classify issues = Ok split ->
     _make_request E fuel
       (mkRequest (base_url ++ "/repos/" ++ repo ++ "/releases")%string
          None None (Some 1%nat)) s3 = Ret data s4 ->
     Py.iter data = Ok rows ->
     Exists (unparseable_published_at E) rows ->
     exists e,
       get_releases E fuel repo days s3 = Exn e s4 /\
       process_repo_data E fuel repo days s
       = Exn e (logged Error (ErrorProcessingRepo repo e) s4)).
Proof.
  assert (Hloop : forall u pg acc s s1 data rows,
     _make_request E fuel (mkRequest u None None (Some pg)) s = Ret data s1 ->
     Py.iter data = Ok rows ->
     Exists (unparseable_published_at E) rows ->
     exists e, get_releases_loop E fuel u days pg acc s = Exn e s1).
  { intros u pg acc s s1 data rows Hreq.
    destruct fuel as [|fuel']; [discriminate Hreq|].
    now apply get_releases_loop_raises. }
  split; [exact Hloop|].
  intros s info s1 commits s2 issues s3 split data s4 rows
    Hinfo Hcommits Hissues Hsplit Hreq Hiter Hbad.
  destruct (Hloop _ 1%nat [] s3 s4 data rows Hreq Hiter Hbad) as [e He].
  exists e. split; [exact He|].
  now apply (process_repo_data_releases_raise E fuel repo days s
               info s1 commits s2 issues s3 split e s4).
Qed.

Lemma unparseable_release_aborts_fetch_witness :
  Exists (unparseable_published_at env_with_draft)
    [published_release; draft_release] /\
  exists s',
    process_repo_data env_with_draft 3 "octocat/hello" 7 initial_state
    = Exn TypeError s'.
Proof.
  assert (Hbad : Exists (unparseable_published_at env_with_draft)
                   [published_release; draft_release]).
  { apply Exists_cons_tl, Exists_cons_hd. eexists. split; [reflexivity|].
    right; left; reflexivity. }
  split; [exact Hbad|].
  edestruct (proj2 (unparseable_release_aborts_fetch env_with_draft 3
                      "octocat/hello" 7) initial_state)
    as (e & Hrel & Hrun);
    [vm_compute; reflexivity | vm_compute; reflexivity
    | vm_compute; reflexivity | reflexivity | vm_compute; reflexivity
    | reflexivity | exact Hbad | ].
  rewrite Hrun. vm_compute in Hrel. injection Hrel as <-. eexists. reflexivity.
Defined.

(** ** What the fetchers leave alone *)

Lemma written_app (t u : list event) :
  written (t ++ u) = written t ++ written u.
Proof. apply flat_map_app. Qed.

Lemma failed_app (t u : list event) : failed (t ++ u) = failed t ++ failed u.
Proof. apply flat_map_app. Qed.

Lemma quiet_step_refl (s : state) : quiet_step s s.
Proof. now split. Qed.

Lemma quiet_step_trans (s1 s2 s3 : state) :
  quiet_step s1 s2 -> quiet_step s2 s3 -> quiet_step s1 s3.
Proof. intros [? ?] [? ?]. split; congruence. Qed.

Lemma quiet_ret {A} (a : A) : quiet (ret a).
Proof. intros s. apply quiet_step_refl. Qed.

Lemma quiet_raise {A} (e : exn) : quiet (@raise A e).
Proof. intros s. apply quiet_step_refl. Qed.

Lemma quiet_lift {A} (r : result A) : quiet (lift r).
Proof. destruct r; [apply quiet_ret | apply quiet_raise]. Qed.

Lemma quiet_bind {A B} (m : M A) (f : A -> M B) :
  quiet m -> (forall a, quiet (f a)) -> quiet (bind m f).
Proof.
  intros Hm Hf s. unfold bind. specialize (Hm s).
  destruct (m s) as [a s1|e s1|]; [|exact Hm|exact I].
  specialize (Hf a s1). destruct (f a s1) as [b s2|e s2|]; [| |exact I];
    eapply quiet_step_trans; eassumption.
Qed.

Lemma quiet_try_except {A} (m : M A) (h : exn -> M A) :
  quiet m -> (forall e, quiet (h e)) -> quiet (try_except m h).
Proof.
  intros Hm Hh s. unfold try_except. specialize (Hm s).
  destruct (m s) as [a s1|e s1|]; [exact Hm| |exact I].
  specialize (Hh e s1). destruct (h e s1) as [b s2|e' s2|]; [| |exact I];
    eapply quiet_step_trans; eassumption.
Qed.

Lemma quiet_logging (l : level) (m : log_msg) :
  (forall repo e, m <> ErrorCollectingData repo e) -> quiet (logging l m).
Proof.
  intros Hm s. split; simpl.
  - rewrite written_app. simpl. apply app_nil_r.
  - rewrite failed_app. simpl.
    destruct l, m; simpl; try apply app_nil_r.
    now elim (Hm repo e).
Qed.

Lemma quiet_time_sleep (d : Q) : quiet (time_sleep d).
Proof.
  intros s. split; simpl;
    [rewrite written_app | rewrite failed_app]; simpl; apply app_nil_r.
Qed.

Lemma quiet_requests_get (E : env) (r : request) : quiet (requests_get E r).
Proof.
  intros s. split; simpl;
    [rewrite written_app | rewrite failed_app]; simpl; apply app_nil_r.
Qed.

Lemma quiet_time_time : quiet time_time.
Proof. intros s. apply quiet_step_refl. Qed.

Lemma quiet_datetime_now : quiet datetime_now.
Proof. intros s. apply quiet_step_refl. Qed.

Lemma quiet_get_rate_limit_remaining : quiet get_rate_limit_remaining.
Proof. intros s. apply quiet_step_refl. Qed.

Lemma quiet_set_rate_limit_remaining (n : Z) :
  quiet (set_rate_limit_remaining n).
Proof. intros s. now split. Qed.

Lemma quiet_raise_for_status (r : response) : quiet (raise_for_status r).
Proof.
  unfold raise_for_status.
  destruct ((400 <=? status_code r)%Z && (status_code r <? 600)%Z);
    [apply quiet_raise | apply quiet_ret].
Qed.

Create HintDb quiet.

#[local] Hint Resolve quiet_ret quiet_raise quiet_lift quiet_time_sleep
  quiet_requests_get quiet_time_time quiet_datetime_now
  quiet_get_rate_limit_remaining quiet_set_rate_limit_remaining
  quiet_raise_for_status : quiet.

(** Splits a monadic program along its binds and branches and closes the
    leaves with the [quiet] hints. *)
Ltac quiet_steps :=
  repeat first
    [ solve [auto with quiet]
    | apply quiet_bind; [|intros ?]
    | apply quiet_try_except; [|intros ?]
    | apply quiet_logging; discriminate
    | match goal with
      | |- quiet (if ?b then _ else _) => destruct b
      | |- quiet (match ?x with _ => _ end) => destruct x
      end ].

Lemma make_request_eq (E : env) (fuel : nat) (r : request) :
  _make_request E (S fuel) r =
  (remaining <- get_rate_limit_remaining ;;
   (if (remaining <? 10)%Z
    then logging Warning RateLimitLow ;; time_sleep 60
    else ret tt) ;;
   response <- requests_get E r ;;
   set_rate_limit_remaining
     (default_Z 5000 (x_ratelimit_remaining response)) ;;
   if (status_code response =? 200)%Z then
     lift (response_json response)
   else
     limited <- lift (is_rate_limited response) ;;
     if limited then
       let reset_time := default_Z 0 (x_ratelimit_reset response) in
       now <- time_time ;;
       let sleep_time := (Qmax (inject_Z reset_time - now) 0 + 10)%Q in
       logging Warning (RateLimitExceeded sleep_time) ;;
       time_sleep sleep_time ;;
       retry E fuel r
     else
       logging Error (ApiRequestError (status_code response)) ;;
       raise_for_status response ;;
       ret JNull).
Proof. destruct fuel; reflexivity. Qed.

Lemma quiet_make_request (E : env) (fuel : nat) (r : request) :
  quiet (_make_request E fuel r).
Proof.
  induction fuel as [|fuel IH]; [intros s; exact I|].
  rewrite make_request_eq.
  assert (Hretry : quiet (retry E fuel r))
    by (destruct fuel; [apply quiet_raise | exact IH]).
  quiet_steps.
Qed.

#[local] Hint Resolve quiet_make_request : quiet.

Lemma quiet_get_commits_loop E fuel u since_date :
  forall pg acc, quiet (get_commits_loop E fuel u since_date pg acc).
Proof.
  induction fuel as [|fuel IH]; intros pg acc; [intros s; exact I|].
  rewrite get_commits_loop_eq. quiet_steps.
Qed.

Lemma quiet_get_issues_loop E fuel u since_date state_filter :
  forall pg acc,
    quiet (get_issues_loop E fuel u since_date state_filter pg acc).
Proof.
  induction fuel as [|fuel IH]; intros pg acc; [intros s; exact I|].
  rewrite get_issues_loop_eq. quiet_steps.
Qed.

Lemma quiet_get_releases_loop E fuel u days :
  forall pg acc, quiet (get_releases_loop E fuel u days pg acc).
Proof.
  induction fuel as [|fuel IH]; intros pg acc; [intros s; exact I|].
  rewrite get_releases_loop_eq. quiet_steps.
Qed.

#[local] Hint Resolve quiet_get_commits_loop quiet_get_issues_loop
  quiet_get_releases_loop : quiet.

Lemma quiet_process_repo_data E fuel repo days :
  quiet (process_repo_data E fuel repo days).
Proof.
  unfold process_repo_data, process_repo_data_body, get_repository_info,
    get_commits, get_issues, get_releases.
  quiet_steps.
Qed.

(** ** Batch collection *)

Lemma bind_Ret_inv {A B} (m : M A) (f : A -> M B) (s s' : state) (b : B) :
  bind m f s = Ret b s' ->
  exists a s1, m s = Ret a s1 /\ f a s1 = Ret b s'.
Proof.
  unfold bind. destruct (m s) as [a s1|e s1|]; try discriminate.
  intros H. now exists a, s1.
Qed.

(** The snapshot [process_repo_data] returns names its repository. *)
Lemma process_repo_data_repo_name E fuel repo days s d s' :
  process_repo_data E fuel repo days s = Ret d s' ->
  field "repo_name" d = Some (JStr repo).
Proof.
  unfold process_repo_data. intros H.
  apply bind_Ret_inv in H. destruct H as (_ & s0 & _ & H).
  unfold try_except in H.
  destruct (process_repo_data_body E fuel repo days s0)
    as [d' s1|e s1|] eqn:Hbody; try discriminate H.
  injection H as -> ->. unfold process_repo_data_body in Hbody.
  repeat (apply bind_Ret_inv in Hbody;
          destruct Hbody as (? & ? & _ & Hbody)).
  injection Hbody as <- _. reflexivity.
Qed.

Lemma save_repo_data_run (d : json) (n : string) (s : state) :
  field "repo_name" d = Some (JStr n) ->
  save_repo_data d s = Ret (Py.replace_slash n) (saved d s).
Proof.
  intros Hn. unfold saved, snapshot_repo. rewrite Hn.
  destruct d as [| | | | |fields]; try discriminate Hn. simpl in Hn.
  unfold save_repo_data, Py.subscript. rewrite Hn. reflexivity.
Qed.

Lemma collect_loop_collected E fuel repo rest days acc s d s1 :
  process_repo_data E fuel repo days (logged Info (CollectingData repo) s)
    = Ret d s1 ->
  collect_loop E fuel (repo :: rest) days acc s
  = collect_loop E fuel rest days (acc ++ [d]) (saved d s1).
Proof.
  intros H. simpl. unfold bind at 1. unfold try_except.
  rewrite (bind_Ret _ _ _ _ _ (logging_run _ _ _)).
  rewrite (bind_Ret _ _ _ _ _ H).
  rewrite (bind_Ret _ _ _ _ _
             (save_repo_data_run d repo s1
                (process_repo_data_repo_name _ _ _ _ _ _ _ H))).
  reflexivity.
Qed.

Lemma collect_loop_failed E fuel repo rest days acc s e s1 :
  process_repo_data E fuel repo days (logged Info (CollectingData repo) s)
    = Exn e s1 ->
  collect_loop E fuel (repo :: rest) days acc s
  = collect_loop E fuel rest days acc
      (logged Error (ErrorCollectingData repo e) s1).
Proof.
  intros H. simpl. unfold bind at 1. unfold try_except.
  rewrite (bind_Ret _ _ _ _ _ (logging_run _ _ _)).
  rewrite (bind_Exn _ _ _ _ _ H).
  rewrite (bind_Ret _ _ _ _ _ (logging_run _ _ _)).
  reflexivity.
Qed.

Lemma collect_loop_diverges E fuel repo rest days acc s :
  process_repo_data E fuel repo days (logged Info (CollectingData repo) s)
    = OutOfFuel ->
  collect_loop E fuel (repo :: rest) days acc s = OutOfFuel.
Proof.
  intros H. simpl. unfold bind at 1. unfold try_except.
  rewrite (bind_Ret _ _ _ _ _ (logging_run _ _ _)).
  now rewrite (bind_OutOfFuel _ _ _ H).
Qed.

(** What one repository adds to the trace. *)
Lemma process_repo_data_quiet E fuel repo days s s1 :
  (exists d, process_repo_data E fuel repo days
               (logged Info (CollectingData repo) s) = Ret d s1) \/
  (exists e, process_repo_data E fuel repo days
               (logged Info (CollectingData repo) s) = Exn e s1) ->
  written (trace s1) = written (trace s) /\
  failed (trace s1) = failed (trace s).
Proof.
  intros H.
  pose proof (quiet_process_repo_data E fuel repo days
                (logged Info (CollectingData repo) s)) as Hq.
  assert (Hstep : quiet_step (logged Info (CollectingData repo) s) s1)
    by (destruct H as [[d H]|[e H]]; now rewrite H in Hq).
  destruct Hstep as [Hw Hf]. rewrite Hw, Hf. simpl.
  rewrite written_app, failed_app. simpl. now rewrite !app_nil_r.
Qed.

Lemma collect_loop_batch E fuel days repos s outcomes s' :
  batch E fuel days repos s outcomes s' ->
  (forall acc,
     collect_loop E fuel repos days acc s
     = Ret (acc ++ successes outcomes) s') /\
  map fst outcomes = repos /\
  written (trace s') = written (trace s) ++ successes outcomes /\
  failed (trace s') = failed (trace s) ++ failures outcomes /\
  map snapshot_repo (successes outcomes) = fetched outcomes.
Proof.
  induction 1 as [s|repo rest s s1 s' d outcomes Hrun _ IH
                  |repo rest s s1 s' e outcomes Hrun _ IH].
  - simpl. repeat split; try now rewrite app_nil_r.
    intros acc. now rewrite app_nil_r.
  - destruct IH as (Hloop & Hrepos & Hw & Hf & Hnames).
    destruct (process_repo_data_quiet E fuel repo days s s1) as [Hw1 Hf1];
      [left; now exists d|].
    repeat split.
    + intros acc. rewrite (collect_loop_collected _ _ _ _ _ _ _ _ _ Hrun).
      rewrite Hloop. simpl. now rewrite <- app_assoc.
    + simpl. now rewrite Hrepos.
    + rewrite Hw. simpl. rewrite !written_app. simpl.
      rewrite Hw1, app_nil_r, <- app_assoc. reflexivity.
    + rewrite Hf. simpl. rewrite !failed_app. simpl.
      now rewrite Hf1, !app_nil_r.
    + simpl. rewrite Hnames. f_equal. unfold snapshot_repo.
      now rewrite (process_repo_data_repo_name _ _ _ _ _ _ _ Hrun).
  - destruct IH as (Hloop & Hrepos & Hw & Hf & Hnames).
    destruct (process_repo_data_quiet E fuel repo days s s1) as [Hw1 Hf1];
      [right; now exists e|].
    repeat split.
    + intros acc. rewrite (collect_loop_failed _ _ _ _ _ _ _ _ _ Hrun).
      now rewrite Hloop.
    + simpl. now rewrite Hrepos.
    + rewrite Hw. simpl. rewrite written_app. simpl.
      now rewrite Hw1, app_nil_r.
    + rewrite Hf. simpl. rewrite failed_app. simpl.
      rewrite Hf1, <- app_assoc. reflexivity.
    + exact Hnames.
Qed.

Lemma collect_loop_Ret_inv E fuel days repos :
  forall acc s result s',
    collect_loop E fuel repos days acc s = Ret result s' ->
    exists outcomes,
      batch E fuel days repos s outcomes s' /\
      result = acc ++ successes outcomes.
Proof.
  induction repos as [|repo rest IH]; intros acc s result s' H.
  - simpl in H. injection H as <- <-. exists []. split; [constructor|].
    simpl. now rewrite app_nil_r.
  - destruct (process_repo_data E fuel repo days
                (logged Info (CollectingData repo) s))
      as [d s1|e s1|] eqn:Hrun.
    + rewrite (collect_loop_collected _ _ _ _ _ _ _ _ _ Hrun) in H.
      destruct (IH _ _ _ _ H) as (outcomes & Hb & ->).
      exists ((repo, Ok d) :: outcomes). split.
      * eapply batch_collected; eassumption.
      * simpl. now rewrite <- app_assoc.
    + rewrite (collect_loop_failed _ _ _ _ _ _ _ _ _ Hrun) in H.
      destruct (IH _ _ _ _ H) as (outcomes & Hb & ->).
      exists ((repo, Raise e) :: outcomes). split.
      * eapply batch_failed; eassumption.
      * reflexivity.
    + rewrite (collect_loop_diverges _ _ _ _ _ _ _ Hrun) in H.
      discriminate H.
Qed.

(** A sub-fetch that raises ends [process_repo_data]: the handler logs the
    exception and raises it again, and no snapshot is returned. *)
Lemma sub_fetch_failure_aborts E fuel repo days s e s' :
  sub_fetch_fails E fuel repo days s e s' ->
  process_repo_data E fuel repo days s
  = Exn e (logged Error (ErrorProcessingRepo repo e) s').
Proof.
  intros H. apply process_repo_data_Exn. unfold process_repo_data_body.
  destruct H as [H|[(info & s1 & H1 & H)
                   |[(info & s1 & commits & s2 & H1 & H2 & H)
                    |(info & s1 & commits & s2 & issues & s3 & split
                      & H1 & H2 & H3 & H4 & H)]]].
  - now rewrite (bind_Exn _ _ _ _ _ H).
  - rewrite (bind_Ret _ _ _ _ _ H1). now rewrite (bind_Exn _ _ _ _ _ H).
  - rewrite (bind_Ret _ _ _ _ _ H1), (bind_Ret _ _ _ _ _ H2).
    now rewrite (bind_Exn _ _ _ _ _ H).
  - rewrite (bind_Ret _ _ _ _ _ H1), (bind_Ret _ _ _ _ _ H2),
      (bind_Ret _ _ _ _ _ H3), (bind_Ret _ _ _ _ _ (lift_Ok _ _ _ H4)).
    now rewrite (bind_Exn _ _ _ _ _ H).
Qed.

(** C9: [collect_github_data] goes through the repositories one by one.
    When the fetch of a repository raises, nothing is appended to the
    result and nothing is written for it, the failure is logged and the
    loop goes on with the next repository from the state the failed fetch
    left; when it returns a snapshot, the snapshot is written and appended.
    So for every run in which each fetch ends, the call returns exactly the
    snapshots of the repositories whose fetch succeeded, in order; exactly
    these were written; and exactly the other repositories were logged as
    failed.  Conversely every returning call is such a run.  A fetch raises
    as soon as one of its four sub-fetches does. *)
Theorem collection_is_per_repository (E : env) (fuel : nat) (days : Z)
    (repos : list string) (s : state) :
  (forall outcomes s',
     batch E fuel days repos (fresh_client s) outcomes s' ->
     collect_github_data E fuel repos days s = Ret (successes outcomes) s' /\
     map fst outcomes = repos /\
     map snapshot_repo (successes outcomes) = fetched outcomes /\
     written (trace s') = written (trace s) ++ successes outcomes /\
     failed (trace s') = failed (trace s) ++ failures outcomes) /\
  (forall result s',
     collect_github_data E fuel repos days s = Ret result s' ->
     exists outcomes,
       batch E fuel days repos (fresh_client s) outcomes s' /\
       result = successes outcomes) /\
  (forall repo s0 e s1,
     sub_fetch_fails E fuel repo days s0 e s1 ->
     process_repo_data E fuel repo days s0
     = Exn e (logged Error (ErrorProcessingRepo repo e) s1)) /\
  (forall repo rest acc s0 e s1,
     process_repo_data E fuel repo days (logged Info (CollectingData repo) s0)
       = Exn e s1 ->
     collect_loop E fuel (repo :: rest) days acc s0
     = collect_loop E fuel rest days acc
         (logged Error (ErrorCollectingData repo e) s1)).
Proof.
  split; [|split; [|split;
    [intros repo s0 e s1; apply sub_fetch_failure_aborts
    |intros repo rest acc s0 e s1; apply collect_loop_failed]]].
  - intros outcomes s' Hb.
    destruct (collect_loop_batch _ _ _ _ _ _ _ Hb)
      as (Hloop & Hrepos & Hw & Hf & Hnames).
    repeat split; try assumption.
    unfold collect_github_data.
    rewrite (bind_Ret _ _ s (fresh_client s) tt) by reflexivity.
    apply (Hloop []).
  - intros result s' H. unfold collect_github_data in H.
    rewrite (bind_Ret _ _ s (fresh_client s) tt) in H by reflexivity.
    apply collect_loop_Ret_inv in H. exact H.
Qed.

Lemma collection_is_per_repository_witness :
  exists outcomes s',
    batch env_one_missing 3 7 ["octocat/gone"; "octocat/hello"]
      (fresh_client initial_state) outcomes s' /\
    collect_github_data env_one_missing 3 ["octocat/gone"; "octocat/hello"] 7
      initial_state = Ret (successes outcomes) s' /\
    fetched outcomes = ["octocat/hello"] /\
    failures outcomes = ["octocat/gone"] /\
    written (trace s') = successes outcomes /\
    failed (trace s') = ["octocat/gone"].
Proof.
  eexists. eexists.
  match goal with |- ?B /\ _ => assert (Hb : B) end.
  { eapply batch_failed; [vm_compute; reflexivity|].
    eapply batch_collected; [vm_compute; reflexivity|].
    apply batch_done. }
  split; [exact Hb|].
  destruct (proj1 (collection_is_per_repository env_one_missing 3 7
                     ["octocat/gone"; "octocat/hello"] initial_state)
              _ _ Hb) as (Hrun & _ & _ & Hw & Hf).
  split; [exact Hrun|]. split; [reflexivity|]. split; [reflexivity|].
  split; [exact Hw | exact Hf].
Defined.

(** ** Contributor statistics *)

Import Contributors.

Lemma key_eqb_refl (k : json) : hashable k = true -> key_eqb k k = true.
Proof.
  destruct k; simpl; try discriminate; intros _.
  - reflexivity.
  - now destruct b.
  - apply Z.eqb_refl.
  - apply String.eqb_refl.
Qed.

Lemma loop_body_bump (k : json) (d : counts) :
  hashable k = true ->
  (let d' := if negb (mem k d) then set_item k 0 d else d in
   set_item k (item k d' + 1) d') = bump k d.
Proof.
  intros Hk. induction d as [|[k' n] d IH]; simpl.
  - now rewrite (key_eqb_refl k Hk).
  - destruct (key_eqb k k') eqn:Hkk'; simpl.
    + rewrite Hkk'. now rewrite Nat.add_1_r.
    + simpl in IH. destruct (mem k d); simpl in *; rewrite Hkk';
        now rewrite IH.
Qed.

Lemma count_commit_string (rows : counts) (commit : json) (a : string) :
  Py.get commit "author" (JStr "Unknown") = Ok (JStr a) ->
  count_commit rows commit = Ok (bump (JStr a) rows).
Proof.
  intros Ha. unfold count_commit. rewrite Ha. simpl rbind. cbv iota.
  f_equal. now apply (loop_body_bump (JStr a) rows).
Qed.

Lemma count_commits_strings (commits : list json) (authors : list string) :
  Forall2 (fun c a => Py.get c "author" (JStr "Unknown") = Ok (JStr a))
          commits authors ->
  forall rows,
    count_commits rows commits
    = Ok (fold_left (fun d a => bump (JStr a) d) authors rows).
Proof.
  induction 1 as [|c a commits authors Ha _ IH]; intros rows; simpl.
  - reflexivity.
  - rewrite (count_commit_string rows c a Ha). apply IH.
Qed.

Lemma first_seen_snoc (l : list string) (a : string) :
  first_seen (l ++ [a])
  = if existsb (String.eqb a) (first_seen l) then first_seen l
    else first_seen l ++ [a].
Proof. unfold first_seen. now rewrite fold_left_app. Qed.

Lemma existsb_eqb_In (a : string) (l : list string) :
  existsb (String.eqb a) l = true <-> In a l.
Proof.
  rewrite existsb_exists. split.
  - intros (x & Hx & Heq). apply String.eqb_eq in Heq. now subst.
  - intros H. exists a. split; [assumption | apply String.eqb_refl].
Qed.

Lemma first_seen_spec (l : list string) :
  NoDup (first_seen l) /\ forall x, In x (first_seen l) <-> In x l.
Proof.
  induction l as [|a l [IHn IHi]] using rev_ind.
  - split; [constructor | reflexivity].
  - rewrite first_seen_snoc.
    destruct (existsb (String.eqb a) (first_seen l)) eqn:Hex.
    + apply existsb_eqb_In in Hex. split; [exact IHn|].
      intros x. rewrite in_app_iff, IHi. simpl. split; [tauto|].
      intros [H|[<-|[]]]; [assumption | now apply IHi].
    + assert (Hnot : ~ In a (first_seen l))
        by (rewrite <- existsb_eqb_In, Hex; discriminate).
      split.
      * apply NoDup_app; [exact IHn | repeat constructor; intros [] | ].
        intros x Hx [<-|[]]. exact (Hnot Hx).
      * intros x. rewrite !in_app_iff, IHi. reflexivity.
Qed.

Lemma bump_seen (a : string) (c : string -> nat) (seen : list string) :
  NoDup seen ->
  bump (JStr a) (map (fun x => (JStr x, c x)) seen)
  = if existsb (String.eqb a) seen
    then map (fun x => (JStr x, if String.eqb a x then S (c x) else c x)) seen
    else map (fun x => (JStr x, c x)) seen ++ [(JStr a, 1%nat)].
Proof.
  induction 1 as [|x seen Hx _ IH]; simpl; [reflexivity|].
  destruct (String.eqb a x) eqn:Hax; simpl.
  - apply String.eqb_eq in Hax. subst x. f_equal.
    apply map_ext_in. intros y Hy.
    destruct (String.eqb a y) eqn:Hay; [|reflexivity].
    apply String.eqb_eq in Hay. subst y. contradiction.
  - rewrite IH. now destruct (existsb (String.eqb a) seen).
Qed.

Lemma count_occ_snoc (l : list string) (a x : string) :
  count_occ string_dec (l ++ [a]) x
  = if String.eqb a x then S (count_occ string_dec l x)
    else count_occ string_dec l x.
Proof.
  rewrite count_occ_app. simpl.
  destruct (string_dec a x) as [->|Hne].
  - rewrite String.eqb_refl. lia.
  - apply String.eqb_neq in Hne. rewrite Hne. lia.
Qed.

(** The dict built by the loop holds, in first-seen order, every
    contributor with the number of its commits. *)
Lemma fold_bump_tally (authors : list string) :
  fold_left (fun d a => bump (JStr a) d) authors [] = tally authors.
Proof.
  unfold tally. induction authors as [|a l IH] using rev_ind; [reflexivity|].
  destruct (first_seen_spec l) as [Hn Hi].
  rewrite fold_left_app. simpl. rewrite IH, (bump_seen a _ _ Hn).
  rewrite first_seen_snoc.
  destruct (existsb (String.eqb a) (first_seen l)) eqn:Hex.
  - apply map_ext. intros x. now rewrite count_occ_snoc.
  - assert (Hnot : ~ In a l)
      by (rewrite <- Hi, <- existsb_eqb_In, Hex; discriminate).
    rewrite map_app. simpl. f_equal.
    + apply map_ext_in. intros x Hx. rewrite count_occ_snoc.
      destruct (String.eqb a x) eqn:Hax; [|reflexivity].
      apply String.eqb_eq in Hax. subst x. apply Hi in Hx. contradiction.
    + rewrite count_occ_snoc, String.eqb_refl.
      now rewrite (proj1 (count_occ_not_In string_dec l a) Hnot).
Qed.

(** ** Sorting by count *)

Lemma insert_desc_perm (r : json * nat) (l : counts) :
  Permutation (r :: l) (insert_desc r l).
Proof.
  induction l as [|r' l IH]; simpl; [reflexivity|].
  destruct (snd r' <=? snd r)%nat; [reflexivity|].
  rewrite perm_swap. now constructor.
Qed.

Lemma stable_sort_desc_perm (rows : counts) :
  Permutation rows (stable_sort_desc rows).
Proof.
  induction rows as [|r rows IH]; simpl; [constructor|].
  rewrite <- insert_desc_perm. now constructor.
Qed.

Lemma insert_desc_sorted (r : json * nat) (l : counts) :
  Sorted commits_ge l -> Sorted commits_ge (insert_desc r l).
Proof.
  induction 1 as [|r' l Hl IH Hhd]; simpl.
  - repeat constructor.
  - destruct (snd r' <=? snd r)%nat eqn:Hle.
    + apply Nat.leb_le in Hle. repeat constructor; assumption.
    + apply Nat.leb_gt in Hle. constructor; [exact IH|].
      destruct Hhd as [|r'' l Hr'']; simpl.
      * constructor. unfold commits_ge. lia.
      * destruct (snd r'' <=? snd r)%nat; constructor;
          [unfold commits_ge; lia | assumption].
Qed.

Lemma stable_sort_desc_sorted (rows : counts) :
  Sorted commits_ge (stable_sort_desc rows).
Proof.
  induction rows as [|r rows IH]; simpl; [constructor|].
  now apply insert_desc_sorted.
Qed.

Lemma commits_ge_trans : Relations_1.Transitive commits_ge.
Proof. intros a b c. unfold commits_ge. lia. Qed.

Lemma sorted_head_max (h : json * nat) (t : counts) :
  Sorted commits_ge (h :: t) ->
  forall x, In x (h :: t) -> (snd x <= snd h)%nat.
Proof.
  intros Hs x Hx. apply (Sorted_StronglySorted commits_ge_trans) in Hs.
  apply StronglySorted_inv in Hs. destruct Hs as [_ Hall].
  destruct Hx as [<-|Hx]; [lia|].
  rewrite Forall_forall in Hall. exact (Hall x Hx).
Qed.

(** With no two equal counts, there is one way only to sort the rows. *)
Lemma sorted_desc_unique (l1 : counts) :
  NoDup (map snd l1) ->
  forall l2,
    Sorted commits_ge l1 -> Sorted commits_ge l2 -> Permutation l1 l2 ->
    l1 = l2.
Proof.
  induction l1 as [|h1 t1 IH]; intros Hnd l2 Hs1 Hs2 Hp.
  - now apply Permutation_nil in Hp.
  - destruct l2 as [|h2 t2];
      [symmetry in Hp; now apply Permutation_nil in Hp|].
    assert (Hin2 : In h2 (h1 :: t1))
      by (apply (Permutation_in _ (Permutation_sym Hp)); now left).
    assert (Hin1 : In h1 (h2 :: t2))
      by (apply (Permutation_in _ Hp); now left).
    pose proof (sorted_head_max h1 t1 Hs1 h2 Hin2) as H21.
    pose proof (sorted_head_max h2 t2 Hs2 h1 Hin1) as H12.
    assert (Heq : h1 = h2).
    { destruct Hin2 as [Heq|Hin2]; [exact Heq|].
      simpl in Hnd. apply NoDup_cons_iff in Hnd. destruct Hnd as [Hnot _].
      elim Hnot. replace (snd h1) with (snd h2) by lia.
      now apply in_map. }
    subst h2. f_equal.
    apply IH.
    + simpl in Hnd. now apply NoDup_cons_iff in Hnd.
    + now apply Sorted_inv in Hs1.
    + now apply Sorted_inv in Hs2.
    + now apply Permutation_cons_inv in Hp.
Qed.

Lemma snapshot_of_authors_commits (authors : list string) :
  Forall2 (fun c a => Py.get c "author" (JStr "Unknown") = Ok (JStr a))
    (map (fun a => JObj [("sha", JStr ""); ("author", JStr a)]) authors)
    authors.
Proof. induction authors; simpl; constructor; [reflexivity|assumption]. Qed.

(** ** The rows of the contributor frame *)

Lemma key_eqb_sym (a b : json) : key_eqb a b = key_eqb b a.
Proof.
  destruct a, b; simpl; try reflexivity.
  - now destruct b, b0.
  - apply Z.eqb_sym.
  - apply String.eqb_sym.
Qed.

Lemma key_eqb_trans (a b c : json) :
  key_eqb a b = true -> key_eqb b c = true -> key_eqb a c = true.
Proof.
  destruct a, b, c; simpl; try discriminate; try reflexivity;
    rewrite ?Z.eqb_eq, ?String.eqb_eq, ?Bool.eqb_true_iff;
    try congruence;
    repeat match goal with b : bool |- _ => destruct b end; lia.
Qed.

Lemma mem_In (k : json) (d : counts) :
  mem k d = true <-> exists k' n, In (k', n) d /\ key_eqb k k' = true.
Proof.
  induction d as [|[k0 n0] d IH]; simpl.
  - split; [discriminate | now intros (? & ? & [] & _)].
  - rewrite orb_true_iff, IH. split.
    + intros [H|(k' & n & Hin & Hk)]; [exists k0, n0 | exists k', n]; auto.
    + intros (k' & n & [[= -> ->]|Hin] & Hk); [now left|].
      right. now exists k', n.
Qed.

(** Membership after one more commit by [a]. *)
Lemma mem_bump (b a : json) (d : counts) :
  mem b (bump a d) = mem b d || key_eqb b a.
Proof.
  induction d as [|[k n] d IH]; simpl.
  - apply orb_comm.
  - destruct (key_eqb a k) eqn:Hak; simpl.
    + destruct (key_eqb b a) eqn:Hba; [|now rewrite orb_false_r].
      rewrite (key_eqb_trans b a k Hba Hak). reflexivity.
    + rewrite IH. now rewrite orb_assoc.
Qed.

Lemma distinct_bump (a : json) (d : counts) :
  distinct d -> distinct (bump a d).
Proof.
  induction d as [|[k n] d IH]; simpl; [now split|].
  intros [Hk Hd]. destruct (key_eqb a k) eqn:Hak; simpl.
  - now split.
  - split; [|now apply IH].
    now rewrite mem_bump, Hk, key_eqb_sym, Hak.
Qed.

Lemma bump_new (a : json) (d : counts) :
  mem a d = false -> bump a d = (d ++ [(a, 1%nat)])%list.
Proof.
  induction d as [|[k n] d IH]; simpl; [reflexivity|].
  intros H. apply orb_false_iff in H. destruct H as [Hak Hm].
  rewrite Hak. now rewrite IH.
Qed.

Lemma bump_known (a : json) (d : counts) :
  mem a d = true -> distinct d ->
  bump a d
  = map (fun x => if key_eqb a (fst x) then (fst x, S (snd x)) else x) d.
Proof.
  induction d as [|[k n] d IH]; simpl; [discriminate|].
  intros Hm [Hk Hd]. destruct (key_eqb a k) eqn:Hak; simpl.
  - f_equal. symmetry. rewrite <- (map_id d) at 2. apply map_ext_in.
    intros [k' n'] Hin. simpl.
    destruct (key_eqb a k') eqn:Hak'; [|reflexivity].
    assert (Hkk' : key_eqb k k' = true).
    { apply (key_eqb_trans k a k'); [|exact Hak'].
      now rewrite key_eqb_sym. }
    assert (mem k d = true) by (apply mem_In; now exists k', n').
    congruence.
  - f_equal. now apply IH.
Qed.

Lemma list_sum_bump (a : json) (d : counts) :
  list_sum (map snd (bump a d)) = S (list_sum (map snd d)).
Proof.
  induction d as [|[k n] d IH]; simpl; [reflexivity|].
  destruct (key_eqb a k); simpl; [reflexivity|]. rewrite IH. lia.
Qed.

Lemma commits_by_snoc (k a : json) (l : list json) :
  commits_by k (l ++ [a])
  = (commits_by k l + if key_eqb a k then 1 else 0)%nat.
Proof.
  unfold commits_by. rewrite filter_app, length_app. simpl.
  now destruct (key_eqb a k).
Qed.

Lemma commits_by_none (k : json) (l : list json) :
  (forall b, In b l -> key_eqb b k = false) -> commits_by k l = 0%nat.
Proof.
  unfold commits_by. induction l as [|b l IH]; simpl; [reflexivity|].
  intros H. rewrite (H b) by now left. apply IH. intros; apply H; now right.
Qed.

(** What the loop has in its dict after the commits by [authors]: one row
    per contributor met, with the number of its commits. *)
Lemma fold_bump_rows (authors : list json) :
  Forall (fun a => hashable a = true) authors ->
  let d := fold_left (fun d a => bump a d) authors [] in
  distinct d /\
  (forall k n, In (k, n) d ->
     In k authors /\ n = commits_by k authors /\ (1 <= n)%nat) /\
  (forall a, In a authors -> mem a d = true) /\
  list_sum (map snd d) = List.length authors.
Proof.
  induction authors as [|a l IH] using rev_ind; intros Hh; simpl.
  - split; [exact I|]. split; [intros ? ? []|]. split; [intros ? []|].
    reflexivity.
  - apply Forall_app in Hh. destruct Hh as [Hl Ha].
    apply Forall_inv in Ha.
    destruct (IH Hl) as (Hd & Hrows & Hmem & Hsum). clear IH.
    rewrite fold_left_app. simpl.
    set (d := fold_left (fun d a => bump a d) l []) in *.
    split; [now apply distinct_bump|].
    split; [|split].
    + intros k n Hin. rewrite commits_by_snoc, in_app_iff.
      destruct (mem a d) eqn:Hma.
      * rewrite (bump_known a d Hma Hd) in Hin.
        apply in_map_iff in Hin. destruct Hin as ([k0 m] & Heq & Hin).
        simpl in Heq. destruct (Hrows k0 m Hin) as (Hk0 & Hm & Hpos).
        destruct (key_eqb a k0) eqn:Hak0; injection Heq as <- <-;
          rewrite Hak0; (split; [now left|]); split; lia.
      * rewrite (bump_new a d Hma) in Hin. apply in_app_iff in Hin.
        destruct Hin as [Hin|[[= <- <-]|[]]].
        -- destruct (Hrows k n Hin) as (Hk & Hn & Hpos).
           assert (Hak : key_eqb a k = false).
           { destruct (key_eqb a k) eqn:Hak; [|reflexivity].
             assert (mem a d = true) by (apply mem_In; now exists k, n).
             congruence. }
           rewrite Hak. split; [now left|]. split; lia.
        -- rewrite (key_eqb_refl a Ha). split; [right; now left|].
           split; [|lia].
           rewrite commits_by_none; [reflexivity|].
           intros b Hb. destruct (key_eqb b a) eqn:Hba; [|reflexivity].
           apply Hmem in Hb. apply mem_In in Hb.
           destruct Hb as (k' & n' & Hin' & Hbk').
           assert (mem a d = true).
           { apply mem_In. exists k', n'. split; [exact Hin'|].
             apply (key_eqb_trans a b k'); [|exact Hbk'].
             now rewrite key_eqb_sym. }
           congruence.
    + intros b Hb. rewrite mem_bump. apply in_app_iff in Hb.
      destruct Hb as [Hb|[<-|[]]].
      * now rewrite (Hmem b Hb).
      * rewrite (key_eqb_refl a Ha). apply orb_true_r.
    + rewrite list_sum_bump, Hsum, length_app. simpl. lia.
Qed.

Lemma distinct_rows (d : counts) :
  distinct d ->
  forall x y, In x d -> In y d -> key_eqb (fst x) (fst y) = true -> x = y.
Proof.
  induction d as [|[k n] d IH]; simpl; [intros _ ? ? []|].
  intros [Hk Hd] x y [<-|Hx] [<-|Hy] Hxy; simpl in *.
  - reflexivity.
  - assert (mem k d = true)
      by (apply mem_In; exists (fst y), (snd y); now destruct y).
    congruence.
  - assert (mem k d = true).
    { apply mem_In. exists (fst x), (snd x). split; [now destruct x|].
      now rewrite key_eqb_sym. }
    congruence.
  - now apply IH.
Qed.

Lemma distinct_NoDup (d : counts) :
  distinct d -> (forall k n, In (k, n) d -> hashable k = true) ->
  NoDup (map fst d).
Proof.
  induction d as [|[k n] d IH]; simpl; [constructor|].
  intros [Hk Hd] Hh. constructor.
  - intros Hin. apply in_map_iff in Hin. destruct Hin as ([k' n'] & Heq & Hin).
    simpl in Heq. subst k'.
    assert (mem k d = true).
    { apply mem_In. exists k, n'. split; [exact Hin|].
      apply key_eqb_refl. apply (Hh k n). now left. }
    congruence.
  - apply IH; [exact Hd|]. intros k' n' Hin. apply (Hh k' n'). now right.
Qed.

Lemma count_commits_authors (commits authors : list json) :
  Forall2 (fun c a => Py.get c "author" (JStr "Unknown") = Ok a)
          commits authors ->
  forall d d',
    count_commits d commits = Ok d' ->
    Forall (fun a => hashable a = true) authors /\
    d' = fold_left (fun d a => bump a d) authors d.
Proof.
  induction 1 as [|c a commits authors Ha _ IH]; intros d d'; simpl.
  - intros [= <-]. now split.
  - unfold count_commit. rewrite Ha. simpl rbind. cbv iota.
    destruct (hashable a) eqn:Hh; [|discriminate].
    pose proof (loop_body_bump a d Hh) as Hb. cbv zeta in Hb. rewrite Hb.
    intros Hd'.
    destruct (IH _ _ Hd') as [Hall ->]. split; [now constructor | reflexivity].
Qed.

Lemma list_sum_perm (l1 l2 : list nat) :
  Permutation l1 l2 -> list_sum l1 = list_sum l2.
Proof. induction 1; simpl; lia. Qed.

(** X28. Whatever order pandas gives to rows with equal counts, the frame
    that [extract_contributor_stats] returns for a snapshot whose commits
    are dicts has its rows in non-increasing order of [Commits]; each row
    holds an author of some commit and the number (at least one) of the
    commits of that author; every author has a row, no contributor has
    two, and the counts add up to the number of commits.  Authors are
    compared as dict keys, so [None] is a contributor like any string.
    When no two counts are equal the frame is determined. *)
Theorem contributor_frame_counts_commits (repo_data : json)
    (commits authors : list json) (df : counts) :
  Py.get repo_data "commits" (JArr []) = Ok (JArr commits) ->
  Forall2 (fun c a => Py.get c "author" (JStr "Unknown") = Ok a)
          commits authors ->
  extract_contributor_stats repo_data df ->
  Sorted commits_ge df /\
  (forall k n, In (k, n) df ->
     In k authors /\ n = commits_by k authors /\ (1 <= n)%nat) /\
  (forall a, In a authors -> exists k n, In (k, n) df /\ key_eqb a k = true) /\
  NoDup (map fst df) /\
  (forall x y, In x df -> In y df -> key_eqb (fst x) (fst y) = true -> x = y) /\
  list_sum (map snd df) = List.length commits /\
  (NoDup (map snd df) ->
   forall df', extract_contributor_stats repo_data df' -> df' = df).
Proof.
  intros Hc Ha (rows & Hrows & Hp & Hs).
  assert (Hitems : forall rows', contributor_items repo_data = Ok rows' ->
                                 rows' = rows) by congruence.
  unfold contributor_items in Hrows. rewrite Hc in Hrows. simpl in Hrows.
  destruct (count_commits_authors commits authors Ha [] rows Hrows)
    as [Hh ->].
  destruct (fold_bump_rows authors Hh) as (Hd & Hr & Hm & Hsum).
  set (d := fold_left (fun d a => bump a d) authors []) in *.
  assert (Hin : forall x, In x df <-> In x d).
  { intros x. split; apply Permutation_in; [now symmetry | exact Hp]. }
  split; [exact Hs|].
  split; [intros k n H; apply Hr; now apply Hin|].
  split.
  { intros a Hin_a. apply Hm, mem_In in Hin_a.
    destruct Hin_a as (k & n & Hkn & Hak). exists k, n.
    split; [now apply Hin | exact Hak]. }
  split.
  { apply (Permutation_NoDup (Permutation_map fst Hp)).
    apply distinct_NoDup; [exact Hd|].
    intros k n Hkn. destruct (Hr k n Hkn) as (Hk & _).
    rewrite Forall_forall in Hh. now apply Hh. }
  split.
  { intros x y Hx Hy. apply (distinct_rows d Hd); now apply Hin. }
  split.
  { rewrite <- (list_sum_perm _ _ (Permutation_map snd Hp)), Hsum.
    symmetry. exact (Forall2_length Ha). }
  intros Hnd df' (rows' & Hrows' & Hp' & Hs').
  apply Hitems in Hrows'. subst rows'. symmetry.
  apply sorted_desc_unique; try assumption.
  now rewrite <- Hp.
Qed.

Lemma contributor_frame_counts_commits_witness :
  Py.get snapshot_with_null_author "commits" (JArr [])
    = Ok (JArr [JObj [("sha", JStr "1"); ("author", JNull)];
                JObj [("sha", JStr "2"); ("author", JStr "A")];
                JObj [("sha", JStr "3"); ("author", JNull)]]) /\
  extract_contributor_stats snapshot_with_null_author
    [(JNull, 2%nat); (JStr "A", 1%nat)] /\
  (forall df', extract_contributor_stats snapshot_with_null_author df' ->
               df' = [(JNull, 2%nat); (JStr "A", 1%nat)]) /\
  (forall df',
     extract_contributor_stats
       (snapshot_of_authors ["A"; "B"; "A"; "C"; "A"; "B"]) df' ->
     df' = [(JStr "A", 3%nat); (JStr "B", 2%nat); (JStr "C", 1%nat)]).
Proof.
  assert (H1 : extract_contributor_stats snapshot_with_null_author
                 [(JNull, 2%nat); (JStr "A", 1%nat)]).
  { exists [(JNull, 2%nat); (JStr "A", 1%nat)].
    split; [reflexivity|]. split; [reflexivity|].
    repeat constructor; unfold commits_ge; simpl; lia. }
  assert (H2 : extract_contributor_stats
                 (snapshot_of_authors ["A"; "B"; "A"; "C"; "A"; "B"])
                 [(JStr "A", 3%nat); (JStr "B", 2%nat); (JStr "C", 1%nat)]).
  { exists [(JStr "A", 3%nat); (JStr "B", 2%nat); (JStr "C", 1%nat)].
    split; [reflexivity|]. split; [reflexivity|].
    repeat constructor; unfold commits_ge; simpl; lia. }
  split; [reflexivity|]. split; [exact H1|]. split.
  - apply (contributor_frame_counts_commits snapshot_with_null_author
             _ [JNull; JStr "A"; JNull] _ eq_refl).
    + repeat constructor.
    + exact H1.
    + simpl. repeat constructor; simpl; intuition discriminate.
  - apply (contributor_frame_counts_commits
             (snapshot_of_authors ["A"; "B"; "A"; "C"; "A"; "B"])
             _ (map JStr ["A"; "B"; "A"; "C"; "A"; "B"]) _ eq_refl).
    + repeat constructor.
    + exact H2.
    + simpl. repeat constructor; simpl; intuition discriminate.
Defined.

(** ** One turn of [_make_request] *)

(** One turn of [_make_request], by the answer to its GET. *)
Lemma make_request_step (E : env) (fuel : nat) (r : request) (s : state) :
  let resp := server E (requests_sent s) r in
  _make_request E (S fuel) r s =
  if (status_code resp =? 200)%Z
  then lift (response_json resp) (after_get r resp s)
  else
    match is_rate_limited resp with
    | Raise e => Exn e (after_get r resp s)
    | Ok true => retry E fuel r (after_rate_limit r resp s)
    | Ok false =>
        if is_http_error (status_code resp)
        then Exn (HTTPError (status_code resp)) (after_error r resp s)
        else Ret JNull (after_error r resp s)
    end.
Proof.
  intros resp.
  destruct (status_code resp =? 200)%Z eqn:Hst.
  - unfold after_get, throttled. fold resp. simpl. run. fold resp.
    destruct (rate_limit_remaining s <? 10)%Z; simpl; fold resp;
      rewrite Hst; reflexivity.
  - destruct (is_rate_limited resp) as [[|]|e] eqn:Hl.
    + now apply make_request_retry.
    + unfold after_error, throttled, is_http_error. fold resp. simpl. run.
      fold resp.
      destruct (rate_limit_remaining s <? 10)%Z; simpl; fold resp;
        rewrite Hst, Hl; simpl; unfold raise_for_status;
        destruct ((400 <=? status_code resp)%Z && (status_code resp <? 600)%Z);
        reflexivity.
    + unfold after_get, throttled. fold resp. simpl. run. fold resp.
      destruct (rate_limit_remaining s <? 10)%Z; simpl; fold resp;
        rewrite Hst, Hl; reflexivity.
Qed.


(** ** Retries and the recursion limit *)




(** ** Answers that are neither a success nor a rate limit *)

(** X1: a 4xx or 5xx answer that is not a rate limit is not retried: one
    GET, the status is logged as an error and [HTTPError] is raised. *)
Theorem http_error_is_raised_at_once (E : env) (fuel : nat) (r : request)
    (s : state) :
  let resp := server E (requests_sent s) r in
  status_code resp <> 200%Z ->
  is_rate_limited resp = Ok false ->
  is_http_error (status_code resp) = true ->
  _make_request E (S fuel) r s
  = Exn (HTTPError (status_code resp)) (after_error r resp s).
Proof.
  intros resp Hst Hl Herr. apply Z.eqb_neq in Hst.
  rewrite make_request_step. fold resp. now rewrite Hst, Hl, Herr.
Qed.

Lemma http_error_is_raised_at_once_witness :
  exists s',
    _make_request (env_of (fun _ _ => not_found_response)) 1 some_request
      initial_state = Exn (HTTPError 404) s' /\
    requests_sent s' = 1%nat /\
    trace s' = [EGet some_request; ELog Error (ApiRequestError 404)].
Proof.
  eexists. split.
  - apply (http_error_is_raised_at_once
             (env_of (fun _ _ => not_found_response)) 0 some_request
             initial_state); [discriminate | reflexivity | reflexivity].
  - split; reflexivity.
Defined.

Lemma not_error_not_rate_limited (resp : response) :
  is_http_error (status_code resp) = false ->
  is_rate_limited resp = Ok false.
Proof.
  intros Herr. unfold is_rate_limited.
  destruct (status_code resp =? 403)%Z eqn:H403; [|reflexivity].
  apply Z.eqb_eq in H403. unfold is_http_error in Herr.
  rewrite H403 in Herr. discriminate Herr.
Qed.

(** X2: an answer whose status is not 200 and not 4xx/5xx (a 204 or a 304,
    say) raises nothing: after one GET and an error log [_make_request]
    returns [None]. *)
Theorem other_status_returns_none (E : env) (fuel : nat) (r : request)
    (s : state) :
  let resp := server E (requests_sent s) r in
  status_code resp <> 200%Z ->
  is_http_error (status_code resp) = false ->
  _make_request E (S fuel) r s = Ret JNull (after_error r resp s).
Proof.
  intros resp Hst Herr. apply Z.eqb_neq in Hst.
  rewrite make_request_step. fold resp.
  now rewrite Hst, (not_error_not_rate_limited resp Herr), Herr.
Qed.

Lemma other_status_returns_none_witness :
  exists s',
    _make_request (env_of (fun _ _ => not_modified_response)) 1 some_request
      initial_state = Ret JNull s' /\
    rate_limit_remaining s' = 4000%Z.
Proof.
  eexists. split.
  - apply (other_status_returns_none
             (env_of (fun _ _ => not_modified_response)) 0 some_request
             initial_state); [discriminate | reflexivity].
  - reflexivity.
Defined.

(** X3: the body of a 403 answer is parsed before anything is logged: a
    403 whose body is not JSON ends the call with the decoding error, not
    with [HTTPError], after one GET and without an error log. *)
Theorem forbidden_without_json_raises_decode_error (E : env) (fuel : nat)
    (r : request) (s : state) :
  let resp := server E (requests_sent s) r in
  status_code resp = 403%Z ->
  body resp = None ->
  _make_request E (S fuel) r s = Exn JSONDecodeError (after_get r resp s).
Proof.
  intros resp Hst Hb.
  rewrite make_request_step. fold resp.
  unfold is_rate_limited, response_json. now rewrite Hst, Hb.
Qed.

Lemma forbidden_without_json_raises_decode_error_witness :
  exists s',
    _make_request (env_of (fun _ _ => forbidden_html_response)) 1
      some_request initial_state = Exn JSONDecodeError s' /\
    trace s' = [EGet some_request].
Proof.
  eexists. split.
  - apply (forbidden_without_json_raises_decode_error
             (env_of (fun _ _ => forbidden_html_response)) 0 some_request
             initial_state); reflexivity.
  - reflexivity.
Defined.

(** ** Invariants of [_make_request] *)

Lemma lift_ended {A} (x : result A) (s : state) (P : state -> Prop) :
  P s -> ended (lift x s) P.
Proof. destruct x; exact (fun H => H). Qed.

(** X4: however a call of [_make_request] ends, it has sent at least one
    GET, every GET it sent was for the request it was called with, and the
    budget it leaves in [rate_limit_remaining] is the one announced by the
    last answer (5000 when that answer carried no such header). *)
Theorem budget_is_that_of_the_last_answer (E : env) (r : request)
    (fuel : nat) :
  forall s : state,
    ended (_make_request E fuel r s) (fun s' =>
      exists n,
        requests_sent s' = (requests_sent s + S n)%nat /\
        gets (trace s') = gets (trace s) ++ repeat r (S n) /\
        rate_limit_remaining s'
        = default_Z 5000
            (x_ratelimit_remaining (server E (requests_sent s + n) r))).
Proof.
  induction fuel as [|fuel IH]; intros s; [exact I|].
  rewrite make_request_step.
  set (resp := server E (requests_sent s) r).
  assert (Hget : exists n,
             requests_sent (after_get r resp s) = (requests_sent s + S n)%nat /\
             gets (trace (after_get r resp s))
             = gets (trace s) ++ repeat r (S n) /\
             rate_limit_remaining (after_get r resp s)
             = default_Z 5000
                 (x_ratelimit_remaining (server E (requests_sent s + n) r))).
  { exists 0%nat. unfold after_get; simpl.
    rewrite gets_app, throttled_gets, Nat.add_0_r.
    repeat split. lia. }
  assert (Herr : exists n,
             requests_sent (after_error r resp s)
             = (requests_sent s + S n)%nat /\
             gets (trace (after_error r resp s))
             = gets (trace s) ++ repeat r (S n) /\
             rate_limit_remaining (after_error r resp s)
             = default_Z 5000
                 (x_ratelimit_remaining (server E (requests_sent s + n) r))).
  { exists 0%nat. unfold after_error; simpl.
    rewrite !gets_app, throttled_gets, Nat.add_0_r. simpl.
    rewrite app_nil_r. repeat split. lia. }
  destruct (status_code resp =? 200)%Z.
  - apply lift_ended. exact Hget.
  - destruct (is_rate_limited resp) as [[|]|e].
    + specialize (IH (after_rate_limit r resp s)).
      assert (Hs1 : requests_sent (after_rate_limit r resp s)
                    = S (requests_sent s))
        by (unfold after_rate_limit; simpl;
            now rewrite throttled_requests_sent).
      assert (Hg1 : gets (trace (after_rate_limit r resp s))
                    = gets (trace s) ++ [r]).
      { unfold after_rate_limit; simpl.
        rewrite !gets_app, throttled_gets. simpl. now rewrite !app_nil_r. }
      destruct fuel as [|fuel']; unfold retry.
      * exists 0%nat. rewrite Hs1, Hg1, Nat.add_0_r.
        repeat split. lia.
      * destruct (_make_request E (S fuel') r (after_rate_limit r resp s))
          as [j s'|e s'|]; unfold ended in *; try exact I;
          destruct IH as (n & Hn & Hg & Hr); exists (S n);
          rewrite Hn, Hg, Hr, Hs1, Hg1, <- app_assoc;
          (repeat split; [lia | ]);
          now replace (S (requests_sent s) + n)%nat
            with (requests_sent s + S n)%nat by lia.
    + destruct (is_http_error (status_code resp)); exact Herr.
    + exact Hget.
Qed.

Lemma throttled_delta (s : state) :
  exists pre,
    trace (throttled s) = trace s ++ pre /\
    gets pre = [] /\
    (clock s <= clock (throttled s))%Q.
Proof.
  unfold throttled. destruct (rate_limit_remaining s <? 10)%Z.
  - exists [ELog Warning RateLimitLow; ESleep 60]. simpl.
    rewrite <- app_assoc. repeat split; try reflexivity. lra.
  - exists []. simpl. rewrite app_nil_r. repeat split; try reflexivity. lra.
Qed.

Lemma backoff_ge_10 (resp : response) (now : Q) : (10 <= backoff resp now)%Q.
Proof.
  unfold backoff.
  pose proof (Q.le_max_r
                (inject_Z (default_Z 0 (x_ratelimit_reset resp)) - now) 0)
    as Hmax.
  lra.
Qed.

(** The model's clock, which only [time.sleep] moves, does not go back
    over a call. *)
Lemma make_request_clock (E : env) (r : request) (fuel : nat) :
  forall s : state,
    ended (_make_request E fuel r s) (fun s' => (clock s <= clock s')%Q).
Proof.
  induction fuel as [|fuel IH]; intros s; [exact I|].
  rewrite make_request_step.
  set (resp := server E (requests_sent s) r).
  destruct (throttled_delta s) as (pre & _ & _ & Hpre).
  assert (Hget : (clock s <= clock (after_get r resp s))%Q)
    by (unfold after_get; simpl; exact Hpre).
  assert (Herr : (clock s <= clock (after_error r resp s))%Q)
    by (unfold after_error; simpl; exact Hpre).
  assert (Hlim : (clock s <= clock (after_rate_limit r resp s))%Q).
  { unfold after_rate_limit; simpl.
    pose proof (backoff_ge_10 resp (clock (throttled s))). lra. }
  destruct (status_code resp =? 200)%Z.
  - apply lift_ended. exact Hget.
  - destruct (is_rate_limited resp) as [[|]|e].
    + destruct fuel as [|fuel']; unfold retry; [exact Hlim|].
      specialize (IH (after_rate_limit r resp s)).
      destruct (_make_request E (S fuel') r (after_rate_limit r resp s))
        as [j s'|e s'|]; unfold ended in *; try exact I; lra.
    + destruct (is_http_error (status_code resp)); exact Herr.
    + exact Hget.
Qed.

(** X5: a request is never sent again sooner than 10 seconds of sleep
    after a rate-limited answer: whatever the server answers and however
    the call ends, what [_make_request] adds to the trace is the request
    sent one or more times, with calls of [time.sleep] for 10 seconds or
    more in all between one sending and the next. *)
Theorem retries_are_ten_seconds_apart (E : env) (r : request) (fuel : nat) :
  forall s : state,
    ended (_make_request E fuel r s) (fun s' =>
      exists delta, trace s' = trace s ++ delta /\ spaced r delta).
Proof.
  induction fuel as [|fuel IH]; intros s; [exact I|].
  rewrite make_request_step.
  set (resp := server E (requests_sent s) r).
  destruct (throttled_delta s) as (pre & Hpre & Hgpre & _).
  set (d := backoff resp (clock (throttled s))).
  assert (Hget : exists delta,
             trace (after_get r resp s) = trace s ++ delta /\
             spaced r delta).
  { exists (pre ++ [EGet r]). unfold after_get; simpl.
    rewrite Hpre, <- app_assoc. split; [reflexivity|].
    now apply spaced_last. }
  assert (Herr : exists delta,
             trace (after_error r resp s) = trace s ++ delta /\
             spaced r delta).
  { exists (pre ++ [EGet r; ELog Error (ApiRequestError (status_code resp))]).
    unfold after_error; simpl.
    rewrite Hpre, <- !app_assoc. split; [reflexivity|].
    now apply spaced_last. }
  assert (Hlim : trace (after_rate_limit r resp s)
                 = trace s
                   ++ pre ++ EGet r
                      :: [ELog Warning (RateLimitExceeded d); ESleep d]).
  { unfold after_rate_limit; simpl. fold d.
    now rewrite Hpre, <- !app_assoc. }
  destruct (status_code resp =? 200)%Z.
  - apply lift_ended. exact Hget.
  - destruct (is_rate_limited resp) as [[|]|e].
    + destruct fuel as [|fuel']; unfold retry.
      * eexists. split; [exact Hlim|]. now apply spaced_last.
      * specialize (IH (after_rate_limit r resp s)).
        destruct (_make_request E (S fuel') r (after_rate_limit r resp s))
          as [j s'|e s'|]; unfold ended in *; try exact I;
          destruct IH as (delta & Ht & Hsp);
          exists (pre ++ EGet r
                    :: [ELog Warning (RateLimitExceeded d); ESleep d]
                    ++ delta);
          (split;
           [rewrite Ht, Hlim, <- !app_assoc; reflexivity
           |apply spaced_retry; [exact Hgpre | reflexivity | | exact Hsp];
            simpl; pose proof (backoff_ge_10 resp (clock (throttled s)));
            fold d in H; lra]).
    + destruct (is_http_error (status_code resp)); exact Herr.
    + exact Hget.
Qed.

(** ** Pagination that does not end on a short page *)

(** Over full pages a page loop goes on to the next page with the items
    appended. *)
Lemma get_commits_loop_full_prefix (E : env) (pages : nat -> list json)
    (u : string) (since_date : Q) (fuel : nat) :
  forall (N pg : nat) (acc : list json) (s : state),
    full_pages E pages pg N ->
    exists s1,
      get_commits_loop E (N + fuel) u since_date pg acc s
      = get_commits_loop E fuel u since_date (pg + N)
          (acc ++ List.concat (map pages (seq pg N))) s1 /\
      requested_pages (trace s1) = requested_pages (trace s) ++ seq pg N /\
      requests_sent s1 = (requests_sent s + N)%nat.
Proof.
  induction N as [|N IH]; intros pg acc s Hfull.
  - exists s. rewrite Nat.add_0_r. simpl. rewrite app_nil_r.
    repeat split; [now rewrite app_nil_r | lia].
  - destruct (Hfull pg) as [Hlen Hsrv]; [lia|].
    change (S N + fuel)%nat with (S (N + fuel)).
    rewrite get_commits_loop_eq. unfold bind at 1.
    destruct (Hsrv (requests_sent s)
                (mkRequest u (Some since_date) None (Some pg)) eq_refl)
      as [Hst Hb].
    destruct (make_request_on_200 E (N + fuel) _ s _ Hst Hb)
      as (s1 & -> & Hsent & Hgets).
    destruct (pages pg) as [|x xs] eqn:Hp; [simpl in Hlen; lia|].
    simpl negb. cbv iota. run.
    assert (Hge : (S (List.length xs) <? 30)%nat = false)
      by (apply Nat.ltb_ge; simpl in Hlen; lia).
    simpl in Hge. rewrite Hge.
    destruct (IH (S pg) (acc ++ x :: xs) s1) as (s2 & Hrun & Hreq & Hcnt).
    { intros p Hp'. apply Hfull. lia. }
    exists s2. rewrite Hrun. repeat split.
    + replace (S pg + N)%nat with (pg + S N)%nat by lia.
      f_equal. simpl. rewrite Hp. now rewrite <- app_assoc.
    + rewrite Hreq. unfold requested_pages at 1.
      rewrite Hgets, flat_map_app. simpl. now rewrite <- app_assoc.
    + lia.
Qed.

Lemma get_commits_loop_last_page (E : env) (fuel : nat) (u : string)
    (since_date : Q) (pg : nat) (acc : list json) (s : state)
    (resp : response) :
  server E (requests_sent s) (mkRequest u (Some since_date) None (Some pg))
    = resp ->
  status_code resp <> 200%Z ->
  is_rate_limited resp = Ok false ->
  get_commits_loop E (S fuel) u since_date pg acc s
  = if is_http_error (status_code resp)
    then Exn (HTTPError (status_code resp))
           (after_error (mkRequest u (Some since_date) None (Some pg)) resp s)
    else Ret acc
           (after_error (mkRequest u (Some since_date) None (Some pg)) resp s).
Proof.
  intros Hsrv Hst Hl. apply Z.eqb_neq in Hst.
  rewrite get_commits_loop_eq. unfold bind at 1.
  rewrite make_request_step, Hsrv, Hst, Hl.
  now destruct (is_http_error (status_code resp)).
Qed.

(** X6: when a page is answered with a status that is neither 200 nor an
    error (a 304, say), [get_commits] takes it for the end of the list: it
    returns the pages fetched so far and raises nothing. *)
Theorem pagination_ends_silently_on_other_status (E : env)
    (pages : nat -> list json) (N : nat) (resp : response) (repo : string)
    (days : Z) (fuel : nat) (s : state) :
  full_pages E pages 1 N ->
  (forall n r, page r = Some (S N) -> server E n r = resp) ->
  status_code resp <> 200%Z ->
  is_http_error (status_code resp) = false ->
  exists s',
    get_commits E (N + S fuel) repo days s
      = Ret (List.concat (map pages (seq 1 N))) s' /\
    requests_sent s' = (requests_sent s + S N)%nat.
Proof.
  intros Hfull Hlast Hst Herr. unfold get_commits, bind, datetime_now. cbv beta iota zeta.
  destruct (get_commits_loop_full_prefix E pages
              (base_url ++ "/repos/" ++ repo ++ "/commits")%string
              (clock s - timedelta_days days)%Q (S fuel) N 1 [] s Hfull)
    as (s1 & -> & _ & Hsent).
  rewrite (get_commits_loop_last_page E fuel _ _ _ _ s1 resp);
    [ | apply Hlast; reflexivity | exact Hst
      | now apply not_error_not_rate_limited ].
  rewrite Herr. eexists. split; [reflexivity|].
  unfold after_error; simpl. lia.
Qed.

Lemma pagination_ends_silently_on_other_status_witness :
  exists s',
    get_commits (env_of (server_one_page_then not_modified_response)) 2
      "octocat/hello" 7 initial_state = Ret (sample_pages 1) s' /\
    requests_sent s' = 2%nat.
Proof.
  destruct (pagination_ends_silently_on_other_status
              (env_of (server_one_page_then not_modified_response))
              sample_pages 1 not_modified_response "octocat/hello" 7 0
              initial_state)
    as (s' & Hrun & Hsent).
  - intros p Hp. assert (p = 1)%nat as -> by lia.
    split; [simpl; lia|]. intros n r Hr. simpl.
    unfold server_one_page_then. rewrite Hr. now split.
  - intros n r Hr. simpl. unfold server_one_page_then. now rewrite Hr.
  - discriminate.
  - reflexivity.
  - exists s'. split; [exact Hrun | exact Hsent].
Defined.

(** X7: when a later page is answered with an HTTP error, [get_commits]
    raises it and the pages already fetched are lost with it. *)
Theorem pagination_error_discards_fetched_pages (E : env)
    (pages : nat -> list json) (N : nat) (resp : response) (repo : string)
    (days : Z) (fuel : nat) (s : state) :
  full_pages E pages 1 N ->
  (forall n r, page r = Some (S N) -> server E n r = resp) ->
  status_code resp <> 200%Z ->
  is_rate_limited resp = Ok false ->
  is_http_error (status_code resp) = true ->
  exists s',
    get_commits E (N + S fuel) repo days s
      = Exn (HTTPError (status_code resp)) s' /\
    requests_sent s' = (requests_sent s + S N)%nat.
Proof.
  intros Hfull Hlast Hst Hl Herr. unfold get_commits, bind, datetime_now. cbv beta iota zeta.
  destruct (get_commits_loop_full_prefix E pages
              (base_url ++ "/repos/" ++ repo ++ "/commits")%string
              (clock s - timedelta_days days)%Q (S fuel) N 1 [] s Hfull)
    as (s1 & -> & _ & Hsent).
  rewrite (get_commits_loop_last_page E fuel _ _ _ _ s1 resp);
    [ | apply Hlast; reflexivity | exact Hst | exact Hl ].
  rewrite Herr. eexists. split; [reflexivity|].
  unfold after_error; simpl. lia.
Qed.

Lemma pagination_error_discards_fetched_pages_witness :
  exists s',
    get_commits (env_of (server_one_page_then server_error_response)) 2
      "octocat/hello" 7 initial_state = Exn (HTTPError 500) s' /\
    requests_sent s' = 2%nat.
Proof.
  apply (pagination_error_discards_fetched_pages
           (env_of (server_one_page_then server_error_response))
           sample_pages 1 server_error_response "octocat/hello" 7 0
           initial_state).
  - intros p Hp. assert (p = 1)%nat as -> by lia.
    split; [simpl; lia|]. intros n r Hr. simpl.
    unfold server_one_page_then. rewrite Hr. now split.
  - intros n r Hr. simpl. unfold server_one_page_then. now rewrite Hr.
  - discriminate.
  - reflexivity.
  - reflexivity.
Defined.

(** X8: the page loop has no bound of its own: against a source that
    answers every page with thirty items or more, [get_commits] never
    returns. *)
Theorem pagination_never_ends_on_full_pages (E : env)
    (pages : nat -> list json) (repo : string) (days : Z) (s : state) :
  (forall N, full_pages E pages 1 N) ->
  forall fuel, get_commits E fuel repo days s = OutOfFuel.
Proof.
  intros Hfull fuel. unfold get_commits, bind, datetime_now. cbv beta iota zeta.
  destruct (get_commits_loop_full_prefix E pages
              (base_url ++ "/repos/" ++ repo ++ "/commits")%string
              (clock s - timedelta_days days)%Q 0 fuel 1 [] s (Hfull fuel))
    as (s1 & Hrun & _).
  rewrite Nat.add_0_r in Hrun. now rewrite Hrun.
Qed.

Lemma pagination_never_ends_on_full_pages_witness :
  get_commits (env_of (paged_server endless_pages)) 1000 "octocat/hello" 7
    initial_state = OutOfFuel.
Proof.
  refine (pagination_never_ends_on_full_pages
            (env_of (paged_server endless_pages)) endless_pages
            "octocat/hello" 7 initial_state _ 1000).
  intros N p Hp. split; [simpl; lia|].
  intros n r Hr. simpl. unfold paged_server. rewrite Hr. now split.
Defined.

(** ** What [get_releases] keeps and where it stops *)

Lemma rfilter_Ok_inv {A} (p : A -> result bool) (xs ys : list A) :
  rfilter p xs = Ok ys ->
  Forall (fun y => p y = Ok true) ys /\
  (forall y, In y ys -> In y xs) /\
  (List.length ys <= List.length xs)%nat /\
  (Exists (fun x => p x = Ok false) xs ->
   (List.length ys < List.length xs)%nat).
Proof.
  revert ys. induction xs as [|x xs IH]; intros ys; simpl.
  - intros [= <-]. repeat split; auto. intros H; inversion H.
  - destruct (p x) as [b|e] eqn:Hx; [|discriminate].
    destruct (rfilter p xs) as [zs|e] eqn:Hxs; [|discriminate].
    intros [= <-]. destruct (IH zs eq_refl) as (Hall & Hin & Hle & Hlt).
    destruct b; simpl; repeat split.
    + now constructor.
    + intros y [->|Hy]; [now left | right; now apply Hin].
    + lia.
    + intros Hex. inversion Hex as [? ? Hf|? ? Hex']; subst;
        [congruence | specialize (Hlt Hex'); lia].
    + exact Hall.
    + intros y Hy. right. now apply Hin.
    + lia.
    + intros _. lia.
Qed.

Lemma published_after_recent (E : env) (cutoff : Q) (release : json) :
  published_after E cutoff release = Ok true ->
  release_is_recent E cutoff release.
Proof.
  unfold published_after, Py.subscript, strptime_py, release_is_recent, field.
  destruct release as [| | | | |d]; try discriminate. simpl.
  destruct (Py.dict_lookup "published_at" d) as [[| | |str| |]|];
    try discriminate. simpl.
  destruct (strptime E str) as [t|] eqn:Hp; try discriminate. simpl.
  intros [= H]. exists str, t. split; [reflexivity|]. split; [exact Hp|].
  apply negb_true_iff in H. apply Qnot_le_lt. intros Hle.
  apply Qle_bool_iff in Hle. congruence.
Qed.

Lemma release_is_recent_weaken (E : env) (c c' : Q) (release : json) :
  (c <= c')%Q -> release_is_recent E c' release -> release_is_recent E c release.
Proof.
  intros Hc (str & t & Hf & Hp & Ht). exists str, t. repeat split; trivial.
  lra.
Qed.

Lemma get_releases_loop_recent (E : env) (u : string) (days : Z) (c0 : Q)
    (fuel : nat) :
  forall (pg : nat) (acc : list json) (s : state),
    (c0 <= clock s)%Q ->
    Forall (release_is_recent E (c0 - timedelta_days days)) acc ->
    match get_releases_loop E fuel u days pg acc s with
    | Ret releases _ =>
        Forall (release_is_recent E (c0 - timedelta_days days)) releases
    | _ => True
    end.
Proof.
  induction fuel as [|fuel IH]; intros pg acc s Hc Hacc; [exact I|].
  rewrite get_releases_loop_eq. unfold bind at 1.
  pose proof (make_request_clock E (mkRequest u None None (Some pg)) (S fuel) s)
    as Hmono.
  destruct (_make_request E (S fuel) (mkRequest u None None (Some pg)) s)
    as [data s1|e s1|]; [|exact I|exact I].
  unfold ended in Hmono.
  destruct (Py.truthy data); simpl; [|exact Hacc].
  rewrite (bind_Ret datetime_now _ s1 s1 (clock s1) eq_refl).
  destruct (Py.iter data) as [rows|e];
    [rewrite (bind_Ret (lift (Ok rows)) _ s1 s1 rows eq_refl)
    |now rewrite (bind_Exn (lift (Raise e)) _ s1 s1 e eq_refl)].
  destruct (rfilter (published_after E (clock s1 - timedelta_days days)) rows)
    as [recent|e] eqn:Hf;
    [rewrite (bind_Ret (lift (Ok recent)) _ s1 s1 recent eq_refl)
    |now rewrite (bind_Exn (lift (Raise e)) _ s1 s1 e eq_refl)].
  assert (Hall : Forall (release_is_recent E (c0 - timedelta_days days))
                   (acc ++ recent)).
  { apply Forall_app. split; [exact Hacc|].
    apply rfilter_Ok_inv in Hf. destruct Hf as (Hf & _).
    eapply Forall_impl; [|exact Hf].
    intros r Hr. apply published_after_recent in Hr.
    eapply release_is_recent_weaken; [|exact Hr]. lra. }
  destruct (Py.len data) as [n|e];
    [rewrite (bind_Ret (lift (Ok n)) _ s1 s1 n eq_refl)
    |now rewrite (bind_Exn (lift (Raise e)) _ s1 s1 e eq_refl)].
  destruct ((n <? 30)%nat || (List.length recent <? n)%nat).
  - exact Hall.
  - apply IH; [lra | exact Hall].
Qed.

(** X9: every release [get_releases] returns carries a [published_at]
    string that [strptime] accepts, for a time later than the cutoff, the
    time of the call minus the window; nothing older and nothing undated
    gets through. *)
Theorem releases_returned_are_recent (E : env) (fuel : nat) (repo : string)
    (days : Z) (s s' : state) (releases : list json) :
  get_releases E fuel repo days s = Ret releases s' ->
  Forall (release_is_recent E (clock s - timedelta_days days)) releases.
Proof.
  intros H. unfold get_releases in H.
  pose proof (get_releases_loop_recent E
                (base_url ++ "/repos/" ++ repo ++ "/releases")%string
                days (clock s) fuel 1 [] s) as Hloop.
  rewrite H in Hloop. apply Hloop; [lra | constructor].
Qed.

Lemma releases_returned_are_recent_witness :
  exists s',
    get_releases env_with_old_release 1 "octocat/hello" 7 state_in_2024
      = Ret [published_release] s' /\
    Forall (release_is_recent env_with_old_release
              (clock state_in_2024 - timedelta_days 7))
           [published_release].
Proof.
  eexists. split; [vm_compute; reflexivity|].
  eapply (releases_returned_are_recent env_with_old_release 1
            "octocat/hello" 7 state_in_2024).
  vm_compute. reflexivity.
Defined.



(** ** Normalized commits *)

Lemma has_newline_cons (a : ascii) (s : string) :
  has_newline (String a s) = Ascii.eqb Py.newline a || has_newline s.
Proof.
  unfold has_newline. cbn [Py.is_substring Py.is_prefix].
  destruct s; now rewrite andb_true_r.
Qed.

Lemma first_line_no_newline (s : string) : has_newline (Py.first_line s) = false.
Proof.
  induction s as [|a s IH]; [reflexivity|].
  cbn [Py.first_line].
  destruct (Ascii.eqb a Py.newline) eqn:Ha; [reflexivity|].
  now rewrite has_newline_cons, Ascii.eqb_sym, Ha, IH.
Qed.

Lemma first_line_prefix (s : string) : Py.is_prefix (Py.first_line s) s = true.
Proof.
  induction s as [|a s IH]; [reflexivity|].
  cbn [Py.first_line].
  destruct (Ascii.eqb a Py.newline); [reflexivity|].
  cbn [Py.is_prefix]. now rewrite Ascii.eqb_refl.
Qed.

Lemma first_line_without_newline (s : string) :
  has_newline s = false -> Py.first_line s = s.
Proof.
  induction s as [|a s IH]; [reflexivity|].
  rewrite has_newline_cons, Ascii.eqb_sym. cbn [Py.first_line].
  destruct (Ascii.eqb a Py.newline); [discriminate|].
  intros H. f_equal. now apply IH.
Qed.

(** X11: a normalized commit has the five keys sha, author, date, message
    and url, and its message is a string: the first line of the raw commit
    message, that is, a prefix of it without any newline, and the whole of
    it when the raw message has none. *)
Theorem commit_message_is_first_line (commit record : json) :
  commit_record commit = Ok record ->
  (exists sha author date message html_url,
     record = JObj [("sha", sha); ("author", author); ("date", date);
                    ("message", JStr message); ("url", html_url)] /\
     exists raw,
       raw_message commit = JStr raw /\
       message = Py.first_line raw /\
       has_newline message = false /\
       Py.is_prefix message raw = true /\
       (has_newline raw = false -> message = raw)).
Proof.
  intros H. unfold commit_record in H. rbind_inv H.
  injection H as <-.
  destruct commit as [| | | | |d]; try discriminate E.
  simpl in E0. injection E0 as <-. rbind_inv E4.
  assert (Hraw : a0 = raw_message (JObj d)).
  { unfold raw_message, field. simpl.
    destruct (Py.dict_lookup "commit" d) as [[| | | | |ci]|];
      simpl in E0; try discriminate E0; now injection E0 as <-. }
  destruct a0 as [| | |raw| |]; try discriminate E4.
  simpl in E4. injection E4 as <-.
  exists a1, a2, a3, (Py.first_line raw), a5. split; [reflexivity|].
  exists raw. rewrite <- Hraw. repeat split.
  - apply first_line_no_newline.
  - apply first_line_prefix.
  - apply first_line_without_newline.
Qed.

Lemma commit_message_is_first_line_witness :
  exists record,
    commit_record commit_with_body = Ok record /\
    field "message" record = Some (JStr "Fix the parser").
Proof.
  destruct (commit_record commit_with_body) as [record|e] eqn:Hrec;
    [|discriminate Hrec].
  exists record. split; [reflexivity|].
  destruct (commit_message_is_first_line commit_with_body record Hrec)
    as (sha & author & date & message & html_url & -> & raw & Hraw & -> & _).
  injection Hraw as <-. reflexivity.
Defined.

(** ** Null where an object is expected *)

(** On dict payloads the split is the filter on the marker and its
    complement. *)
Lemma classify_dicts (items : list json) :
  Forall is_dict items ->
  classify items
  = Ok (filter carries_marker items,
        filter (fun x => negb (carries_marker x)) items).
Proof.
  intros Hd. rewrite Forall_forall in Hd.
  unfold classify.
  rewrite (rfilter_total has_pull_request carries_marker)
    by (intros x Hx; now apply has_pull_request_dict, Hd).
  rewrite (rfilter_total lacks_pull_request
             (fun x => negb (carries_marker x)))
    by (intros x Hx; now apply lacks_pull_request_dict, Hd).
  reflexivity.
Qed.

Lemma rmap_raises {A B} (f : A -> result B) (xs : list A) :
  Exists (fun x => exists e, f x = Raise e) xs ->
  exists e, rmap f xs = Raise e.
Proof.
  induction 1 as [x xs [e He]|x xs _ [e IH]]; simpl.
  - rewrite He. now exists e.
  - destruct (f x) as [y|e'].
    + rewrite IH. now exists e.
    + now exists e'.
Qed.

Lemma null_user_raises (d : list (string * json)) :
  Py.dict_lookup "user" d = Some JNull ->
  issue_record (JObj d) = Raise AttributeError /\
  pr_record (JObj d) = Raise AttributeError.
Proof.
  intros Hu. unfold issue_record, pr_record. simpl. now rewrite Hu.
Qed.

(** X12: the default of [.get(key, {})] stands in for a missing key only,
    not for a null value: an issue or pull request whose "user" is null, a
    release whose "author" is null and a commit whose metadata "author" is
    null all make their normalization raise AttributeError; and one such
    issue among those fetched makes [process_repo_data] raise, so that no
    snapshot of the repository is produced. *)
Theorem null_object_fails_the_repository (E : env) (fuel : nat)
    (repo : string) (days : Z) :
  (forall d, Py.dict_lookup "user" d = Some JNull ->
     issue_record (JObj d) = Raise AttributeError /\
     pr_record (JObj d) = Raise AttributeError) /\
  (forall d, Py.dict_lookup "author" d = Some JNull ->
     release_record (JObj d) = Raise AttributeError) /\
  (forall d ci,
     Py.dict_lookup "commit" d = Some (JObj ci) ->
     Py.dict_lookup "author" ci = Some JNull ->
     commit_record (JObj d) = Raise AttributeError) /\
  (forall s info s1 commits s2 issues s3 releases s4,
     get_repository_info E fuel repo (logged Info (FetchingData repo days) s)
       = Ret info s1 ->
     get_commits E fuel repo days s1 = Ret commits s2 ->
     get_issues E fuel repo days "all" s2 = Ret issues s3 ->
     get_releases E fuel repo days s3 = Ret releases s4 ->
     Forall is_dict issues ->
     Exists (fun issue => field "user" issue = Some JNull) issues ->
     exists e,
       process_repo_data E fuel repo days s
       = Exn e (logged Error (ErrorProcessingRepo repo e) s4)).
Proof.
  split; [exact null_user_raises|]. split; [|split].
  - intros d Ha. unfold release_record. simpl. now rewrite Ha.
  - intros d ci Hc Ha. unfold commit_record. simpl. rewrite Hc. simpl.
    rewrite Ha. simpl.
    destruct (Py.dict_lookup "author" d) as [account|]; simpl;
      [|reflexivity].
    destruct (Py.truthy account); simpl; [|reflexivity].
    now destruct account.
  - intros s info s1 commits s2 issues s3 releases s4
      Hinfo Hcommits Hissues Hreleases Hdict Hnull.
    pose proof (classify_dicts issues Hdict) as Hclass.
    assert (Hbad : Exists (fun x => exists e, issue_record x = Raise e)
                     (filter (fun x => negb (carries_marker x)) issues) \/
                   Exists (fun x => exists e, pr_record x = Raise e)
                     (filter carries_marker issues)).
    { apply Exists_exists in Hnull. destruct Hnull as (x & Hx & Hu).
      rewrite Forall_forall in Hdict. destruct (Hdict x Hx) as [d ->].
      simpl in Hu. destruct (null_user_raises d Hu) as [Hi Hp].
      destruct (carries_marker (JObj d)) eqn:Hm.
      - right. apply Exists_exists. exists (JObj d). split.
        + apply filter_In. now split.
        + now exists AttributeError.
      - left. apply Exists_exists. exists (JObj d). split.
        + apply filter_In. split; [assumption|]. now rewrite Hm.
        + now exists AttributeError. }
    assert (Hbody : exists e,
               process_repo_data_body E fuel repo days
                 (logged Info (FetchingData repo days) s) = Exn e s4).
    { unfold process_repo_data_body.
      rewrite (bind_Ret _ _ _ _ _ Hinfo), (bind_Ret _ _ _ _ _ Hcommits),
        (bind_Ret _ _ _ _ _ Hissues),
        (bind_Ret _ _ _ _ _ (lift_Ok _ _ _ Hclass)),
        (bind_Ret _ _ _ _ _ Hreleases).
      simpl fst. simpl snd.
      destruct (rmap commit_record commits) as [commit_data|e];
        [rewrite (bind_Ret (lift (Ok commit_data)) _ s4 s4 _ eq_refl)
        |exists e; now rewrite (bind_Exn (lift (Raise e)) _ s4 s4 e eq_refl)].
      destruct Hbad as [Hbad|Hbad];
        apply rmap_raises in Hbad; destruct Hbad as [e He].
      - exists e. rewrite He.
        now rewrite (bind_Exn (lift (Raise e)) _ s4 s4 e eq_refl).
      - destruct (rmap issue_record
                    (filter (fun x => negb (carries_marker x)) issues))
          as [issue_data|e'];
          [rewrite (bind_Ret (lift (Ok issue_data)) _ s4 s4 _ eq_refl)
          |exists e';
           now rewrite (bind_Exn (lift (Raise e')) _ s4 s4 e' eq_refl)].
        exists e. rewrite He.
        now rewrite (bind_Exn (lift (Raise e)) _ s4 s4 e eq_refl). }
    destruct Hbody as [e He]. exists e.
    now apply process_repo_data_Exn.
Qed.

Lemma null_object_fails_the_repository_witness :
  Exists (fun issue => field "user" issue = Some JNull)
    [issue_by_deleted_account] /\
  exists s',
    process_repo_data env_with_ghost_issue 3 "octocat/hello" 7 initial_state
    = Exn AttributeError s'.
Proof.
  assert (Hnull : Exists (fun issue => field "user" issue = Some JNull)
                    [issue_by_deleted_account])
    by (apply Exists_cons_hd; reflexivity).
  split; [exact Hnull|].
  edestruct (proj2 (proj2 (proj2
               (null_object_fails_the_repository env_with_ghost_issue 3
                  "octocat/hello" 7))) initial_state)
    as (e & Hrun);
    [vm_compute; reflexivity | vm_compute; reflexivity
    | vm_compute; reflexivity | vm_compute; reflexivity
    | repeat constructor; eexists; reflexivity | exact Hnull | ].
  assert (Hc : exists s',
             process_repo_data env_with_ghost_issue 3 "octocat/hello" 7
               initial_state = Exn AttributeError s')
    by (eexists; vm_compute; reflexivity).
  destruct Hc as [s' Hc]. rewrite Hrun in Hc. injection Hc as -> _.
  eexists. exact Hrun.
Defined.

(** ** The snapshot and what was fetched *)

Lemma rmap_length {A B} (f : A -> result B) (xs : list A) (ys : list B) :
  rmap f xs = Ok ys -> List.length ys = List.length xs.
Proof. intros H. symmetry. exact (Forall2_length (rmap_Ok_inv f xs ys H)). Qed.

Lemma classify_lengths (items pull_requests issues : list json) :
  classify items = Ok (pull_requests, issues) ->
  (List.length issues + List.length pull_requests = List.length items)%nat.
Proof.
  unfold classify. intros H. rbind_inv H. injection H as <- <-.
  revert a a0 E E0. induction items as [|x xs IH]; simpl; intros a b Ha Hb.
  - injection Ha as <-. now injection Hb as <-.
  - unfold lacks_pull_request in Hb at 1. fold (has_pull_request x) in Hb.
    destruct (has_pull_request x) as [m|e]; [|discriminate Ha].
    simpl in Hb.
    destruct (rfilter has_pull_request xs) as [a'|e]; [|discriminate Ha].
    destruct (rfilter lacks_pull_request xs) as [b'|e]; [|discriminate Hb].
    injection Ha as <-. injection Hb as <-.
    specialize (IH a' b' eq_refl eq_refl).
    destruct m; simpl; lia.
Qed.

(** X13: a snapshot returned by [process_repo_data] loses nothing of what
    was fetched: it holds one normalized commit per fetched commit, one
    normalized release per release kept by [get_releases], and its issues
    and pull requests together are as many as the items of the issues
    endpoint; it names the repository and the window it was asked for. *)
Theorem snapshot_counts_what_was_fetched (E : env) (fuel : nat)
    (repo : string) (days : Z) (s s' : state) (d : json) :
  process_repo_data E fuel repo days s = Ret d s' ->
  exists s1 s2 s3 commits issues releases
         commit_data issue_data pr_data release_data,
    get_commits E fuel repo days s1 = Ret commits s2 /\
    get_issues E fuel repo days "all" s2 = Ret issues s3 /\
    get_releases E fuel repo days s3 = Ret releases s' /\
    field "commits" d = Some (JArr commit_data) /\
    List.length commit_data = List.length commits /\
    field "issues" d = Some (JArr issue_data) /\
    field "pull_requests" d = Some (JArr pr_data) /\
    (List.length issue_data + List.length pr_data = List.length issues)%nat /\
    field "releases" d = Some (JArr release_data) /\
    List.length release_data = List.length releases /\
    field "repo_name" d = Some (JStr repo) /\
    field "time_period" d = Some (JStr (time_period days)).
Proof.
  unfold process_repo_data. intros H.
  apply bind_Ret_inv in H. destruct H as (_ & s0 & _ & H).
  unfold try_except in H.
  destruct (process_repo_data_body E fuel repo days s0)
    as [d' sf|e sf|] eqn:Hbody; try discriminate H.
  injection H as -> ->. unfold process_repo_data_body in Hbody.
  apply bind_Ret_inv in Hbody. destruct Hbody as (info & s1 & _ & Hbody).
  apply bind_Ret_inv in Hbody.
  destruct Hbody as (commits & s2 & Hcommits & Hbody).
  apply bind_Ret_inv in Hbody.
  destruct Hbody as (issues & s3 & Hissues & Hbody).
  apply bind_Ret_inv in Hbody.
  destruct Hbody as ([prs iss] & s3' & Hclass & Hbody).
  apply bind_Ret_inv in Hbody.
  destruct Hbody as (releases & s4 & Hreleases & Hbody).
  apply bind_Ret_inv in Hbody.
  destruct Hbody as (commit_data & s5 & Hc & Hbody).
  apply bind_Ret_inv in Hbody.
  destruct Hbody as (issue_data & s6 & Hi & Hbody).
  apply bind_Ret_inv in Hbody.
  destruct Hbody as (pr_data & s7 & Hp & Hbody).
  apply bind_Ret_inv in Hbody.
  destruct Hbody as (release_data & s8 & Hr & Hbody).
  apply bind_Ret_inv in Hbody.
  destruct Hbody as (info' & s9 & Hinfo & Hbody).
  apply bind_Ret_inv in Hbody.
  destruct Hbody as (now & s10 & Hnow & Hbody).
  injection Hbody as <- <-.
  assert (Hpure : forall A (x : result A) (a : A) (t t' : state),
             lift x t = Ret a t' -> x = Ok a /\ t' = t).
  { intros A x a t t' Hx. destruct x; [|discriminate Hx].
    injection Hx as -> ->. now split. }
  apply Hpure in Hclass, Hc, Hi, Hp, Hr, Hinfo.
  destruct Hclass as [Hclass ->], Hc as [Hc ->], Hi as [Hi ->],
    Hp as [Hp ->], Hr as [Hr ->], Hinfo as [Hinfo ->].
  injection Hnow as _ ->.
  exists s1, s2, s3, commits, issues, releases,
    commit_data, issue_data, pr_data, release_data.
  simpl fst in *. simpl snd in *.
  repeat split; try assumption.
  - now apply rmap_length in Hc.
  - apply rmap_length in Hi, Hp. rewrite Hi, Hp.
    now apply classify_lengths.
  - now apply rmap_length in Hr.
Qed.

Lemma snapshot_counts_what_was_fetched_witness :
  exists d s',
    process_repo_data env_one_missing 3 "octocat/hello" 7 initial_state
      = Ret d s' /\
    field "repo_name" d = Some (JStr "octocat/hello") /\
    field "time_period" d = Some (JStr "7 days").
Proof.
  destruct (process_repo_data env_one_missing 3 "octocat/hello" 7
              initial_state) as [d s'|e s'|] eqn:Hrun;
    [|vm_compute in Hrun; discriminate Hrun
     |vm_compute in Hrun; discriminate Hrun].
  exists d, s'. split; [reflexivity|].
  destruct (snapshot_counts_what_was_fetched env_one_missing 3
              "octocat/hello" 7 initial_state s' d Hrun)
    as (s1 & s2 & s3 & commits & issues & releases & commit_data
        & issue_data & pr_data & release_data & H).
  split; [apply H | apply H].
Defined.

(** ** Pull requests on their own *)

(** X14: [get_pull_requests] fetches the issues as [get_issues] does, with
    the same requests, and returns those that carry the 'pull_request'
    key, in order; an exception of [get_issues] is its own. *)
Theorem pull_requests_are_the_marked_issues (E : env) (fuel : nat)
    (repo : string) (days : Z) (state_filter : string) (s s' : state) :
  (forall issues,
     get_issues E fuel repo days state_filter s = Ret issues s' ->
     Forall is_dict issues ->
     get_pull_requests E fuel repo days state_filter s
     = Ret (filter carries_marker issues) s' /\
     (forall pull_requests other,
        classify issues = Ok (pull_requests, other) ->
        pull_requests = filter carries_marker issues)) /\
  (forall e,
     get_issues E fuel repo days state_filter s = Exn e s' ->
     get_pull_requests E fuel repo days state_filter s = Exn e s').
Proof.
  split.
  - intros issues Hrun Hd. split.
    + unfold get_pull_requests. rewrite (bind_Ret _ _ _ _ _ Hrun).
      rewrite Forall_forall in Hd.
      now rewrite (rfilter_total has_pull_request carries_marker)
        by (intros x Hx; now apply has_pull_request_dict, Hd).
    + intros prs other Hc. rewrite (classify_dicts issues Hd) in Hc.
      now injection Hc as <- _.
  - intros e Hrun. unfold get_pull_requests.
    now rewrite (bind_Exn _ _ _ _ _ Hrun).
Qed.

Lemma pull_requests_are_the_marked_issues_witness :
  exists s',
    get_issues (env_of (fun _ _ => ok_response (JArr issues_endpoint_items)))
      1 "octocat/hello" 7 "all" initial_state
      = Ret issues_endpoint_items s' /\
    get_pull_requests
      (env_of (fun _ _ => ok_response (JArr issues_endpoint_items)))
      1 "octocat/hello" 7 "all" initial_state
      = Ret [JObj [("number", JInt 2);
                   ("pull_request", JObj [("url", JStr "u")])]] s'.
Proof.
  eexists. split; [vm_compute; reflexivity|].
  eapply (proj1 (pull_requests_are_the_marked_issues _ 1 "octocat/hello" 7
                   "all" initial_state _) issues_endpoint_items).
  - vm_compute. reflexivity.
  - repeat constructor; eexists; reflexivity.
Defined.

(** ** File names *)

Lemma has_slash_cons (a : ascii) (s : string) :
  has_slash (String a s) = Ascii.eqb "/"%char a || has_slash s.
Proof.
  unfold has_slash. cbn [Py.is_substring Py.is_prefix].
  destruct s; now rewrite andb_true_r.
Qed.

Lemma replace_slash_no_slash (s : string) :
  has_slash (Py.replace_slash s) = false.
Proof.
  induction s as [|a s IH]; [reflexivity|].
  cbn [Py.replace_slash]. rewrite has_slash_cons, IH, orb_false_r.
  destruct (Ascii.eqb a "/"%char) eqn:Ha; [reflexivity|].
  now rewrite Ascii.eqb_sym.
Qed.

Lemma replace_slash_length (s : string) :
  String.length (Py.replace_slash s) = String.length s.
Proof. induction s as [|a s IH]; simpl; [reflexivity | now rewrite IH]. Qed.

Lemma replace_slash_app (x y : string) :
  Py.replace_slash (x ++ y)%string
  = (Py.replace_slash x ++ Py.replace_slash y)%string.
Proof. induction x as [|a x IH]; simpl; [reflexivity | now rewrite IH]. Qed.

(** X15: the file a snapshot is saved to is named after the repository
    with every '/' turned into '_' and after the time of the call: the
    name part has no '/' and the length of the repository name, and the
    snapshot written is the one given.  The renaming is not one-to-one:
    two repositories whose names differ only by a '/' against a '_', saved
    at the same time, go to the same file. *)
Theorem snapshot_file_name (d : json) (n : string) (s : state) :
  field "repo_name" d = Some (JStr n) ->
  (exists s',
     save_repo_data d s = Ret (Py.replace_slash n) s' /\
     files_written (trace s')
     = files_written (trace s) ++ [(Py.replace_slash n, clock s)] /\
     written (trace s') = written (trace s) ++ [d]) /\
  has_slash (Py.replace_slash n) = false /\
  String.length (Py.replace_slash n) = String.length n /\
  (forall x y,
     Py.replace_slash (x ++ "/" ++ y)%string
     = Py.replace_slash (x ++ "_" ++ y)%string).
Proof.
  intros Hn. split; [|split; [|split]].
  - exists (saved d s). split; [now apply save_repo_data_run|].
    unfold saved, snapshot_repo, files_written, written. rewrite Hn. simpl.
    rewrite !flat_map_app. simpl. now rewrite !app_nil_r.
  - apply replace_slash_no_slash.
  - apply replace_slash_length.
  - intros x y. now rewrite !replace_slash_app.
Qed.

Lemma snapshot_file_name_witness :
  exists s',
    save_repo_data (JObj [("repo_name", JStr "octocat/hello")]) initial_state
      = Ret "octocat_hello" s' /\
    files_written (trace s') = [("octocat_hello", 0%Q)].
Proof.
  destruct (proj1 (snapshot_file_name
                     (JObj [("repo_name", JStr "octocat/hello")])
                     "octocat/hello" initial_state eq_refl))
    as (s' & Hrun & Hfiles & _).
  exists s'. split; [exact Hrun | exact Hfiles].
Defined.

(** ** The activity summary *)

Import Summary.

Lemma rbind_Ok_iff {A B} (r : result A) (f : A -> result B) :
  (exists b, rbind r f = Ok b) <-> exists a, r = Ok a /\ exists b, f a = Ok b.
Proof.
  destruct r as [a|e]; simpl; split.
  - intros [b Hb]. exists a. split; [reflexivity | now exists b].
  - intros (a' & [= <-] & Hb). exact Hb.
  - intros [b Hb]. discriminate Hb.
  - intros (a' & Ha & _). discriminate Ha.
Qed.

Lemma rmap_Ok_iff {A B} (f : A -> result B) (xs : list A) :
  (exists ys, rmap f xs = Ok ys) <-> Forall (fun x => exists y, f x = Ok y) xs.
Proof.
  induction xs as [|x xs IH]; simpl.
  - split; [constructor | intros _; now exists []].
  - split.
    + intros [ys H]. destruct (f x) as [y|e] eqn:Hx; [|discriminate].
      destruct (rmap f xs) as [zs|e] eqn:Hxs; [|discriminate].
      constructor; [now exists y | apply IH; now exists zs].
    + intros H. inversion H as [|? ? [y Hy] Hxs]; subst.
      apply IH in Hxs. destruct Hxs as [zs Hzs].
      rewrite Hy, Hzs. now eexists.
Qed.

Lemma subscript_Ok_iff (v : json) (k : string) (x : json) :
  Py.subscript v k = Ok x <-> field k v = Some x.
Proof.
  unfold Py.subscript, field. destruct v as [| | | | |d];
    try (split; discriminate).
  destruct (Py.dict_lookup k d); split; congruence.
Qed.

Lemma strptime_py_Ok_iff (E : env) (v : json) (t : Q) :
  strptime_py E v = Ok t <-> exists str, v = JStr str /\ strptime E str = Some t.
Proof.
  unfold strptime_py. split.
  - destruct v as [| | |str| |]; try discriminate.
    destruct (strptime E str) eqn:Hp; [|discriminate].
    intros [= <-]. now exists str.
  - intros (str & -> & ->). reflexivity.
Qed.

Lemma release_line_Ok_iff (E : env) (F : formats) (release : json) :
  (exists line, release_line E F release = Ok line) <-> release_prints E release.
Proof.
  unfold release_line, release_prints.
  repeat setoid_rewrite rbind_Ok_iff.
  repeat setoid_rewrite subscript_Ok_iff.
  setoid_rewrite strptime_py_Ok_iff.
  split.
  - intros (p & Hp & t & (str & -> & Ht) & tag & Htag & name & Hname & _).
    repeat split; eauto.
  - intros ((str & t & Hp & Ht) & (tag & Htag) & (name & Hname)).
    exists (JStr str). split; [exact Hp|]. exists t. split; [eauto|].
    exists tag. split; [exact Htag|]. exists name. split; [exact Hname|].
    now eexists.
Qed.

Lemma item_line_Ok_iff (E : env) (F : formats) (item : json) :
  (exists line, item_line E F item = Ok line) <-> item_prints E item.
Proof.
  unfold item_line, item_prints.
  repeat setoid_rewrite rbind_Ok_iff.
  repeat setoid_rewrite subscript_Ok_iff.
  setoid_rewrite strptime_py_Ok_iff.
  split.
  - intros (p & Hp & t & (str & -> & Ht) & n & Hn & ti & Hti & a & Ha & _).
    repeat split; eauto.
  - intros ((str & t & Hp & Ht) & (n & Hn) & (ti & Hti) & (a & Ha)).
    exists (JStr str). split; [exact Hp|]. exists t. split; [eauto|].
    exists n. split; [exact Hn|]. exists ti. split; [exact Hti|].
    exists a. split; [exact Ha|]. now eexists.
Qed.

Lemma releases_section_Ok_iff (E : env) (F : formats) (releases : list json) :
  (exists text, releases_section E F (JArr releases) = Ok text) <->
  Forall (release_prints E) (firstn 3 releases).
Proof.
  unfold releases_section. destruct releases as [|r releases].
  - simpl. split; [constructor | now eexists].
  - change (Py.truthy (JArr (r :: releases))) with true. cbv iota.
    unfold slice_to. rewrite rbind_Ok_iff. split.
    + intros (rows & [= <-] & H). apply rbind_Ok_iff in H.
      destruct H as (lines & Hl & _).
      assert (Hex : exists ys, rmap (release_line E F)
                                 (firstn 3 (r :: releases)) = Ok ys)
        by now exists lines.
      apply rmap_Ok_iff in Hex. eapply Forall_impl; [|exact Hex].
      intros x. apply release_line_Ok_iff.
    + intros H. eexists. split; [reflexivity|]. apply rbind_Ok_iff.
      assert (Hex : Forall (fun x => exists y, release_line E F x = Ok y)
                      (firstn 3 (r :: releases))).
      { eapply Forall_impl; [|exact H]. intros x. apply release_line_Ok_iff. }
      apply rmap_Ok_iff in Hex. destruct Hex as [lines Hl].
      exists lines. split; [exact Hl | now eexists].
Qed.

Lemma items_section_Ok_iff (E : env) (F : formats) (heading : string)
    (items : list json) :
  (exists text, items_section E F heading (JArr items) = Ok text) <->
  Forall (item_prints E) (firstn 5 items).
Proof.
  unfold items_section. destruct items as [|r items].
  - simpl. split; [constructor | now eexists].
  - change (Py.truthy (JArr (r :: items))) with true. cbv iota.
    unfold slice_to. rewrite rbind_Ok_iff. split.
    + intros (rows & [= <-] & H). apply rbind_Ok_iff in H.
      destruct H as (lines & Hl & _).
      assert (Hex : exists ys, rmap (item_line E F)
                                 (firstn 5 (r :: items)) = Ok ys)
        by now exists lines.
      apply rmap_Ok_iff in Hex. eapply Forall_impl; [|exact Hex].
      intros x. apply item_line_Ok_iff.
    + intros H. eexists. split; [reflexivity|]. apply rbind_Ok_iff.
      assert (Hex : Forall (fun x => exists y, item_line E F x = Ok y)
                      (firstn 5 (r :: items))).
      { eapply Forall_impl; [|exact H]. intros x. apply item_line_Ok_iff. }
      apply rmap_Ok_iff in Hex. destruct Hex as [lines Hl].
      exists lines. split; [exact Hl | now eexists].
Qed.

Lemma count_commit_Ok_iff (d : counts) (commit : json) :
  (exists d', count_commit d commit = Ok d') <-> commit_counts commit.
Proof.
  unfold count_commit, commit_counts. rewrite rbind_Ok_iff. split.
  - intros (a & Ha & d' & Hd). exists a. split; [exact Ha|].
    destruct (hashable a); [reflexivity | discriminate].
  - intros (a & Ha & Hh). exists a. split; [exact Ha|]. rewrite Hh.
    now eexists.
Qed.

Lemma count_commits_Ok_iff (commits : list json) :
  forall d,
    (exists d', count_commits d commits = Ok d') <->
    Forall commit_counts commits.
Proof.
  induction commits as [|c commits IH]; intros d; simpl.
  - split; [constructor | now eexists].
  - split.
    + intros [d' H]. destruct (count_commit d c) as [d1|e] eqn:Hc;
        [|discriminate].
      constructor.
      * apply (count_commit_Ok_iff d c). now exists d1.
      * apply (IH d1). now exists d'.
    + intros H. inversion H as [|? ? Hc Hcs]; subst.
      apply (count_commit_Ok_iff d c) in Hc. destruct Hc as [d1 Hd1].
      rewrite Hd1. now apply IH.
Qed.

(** The set of authors is the key set of the dict of counts: the two loops
    over [commits] see the same contributors, and fail on the same commit. *)
Lemma set_add_keys (k : json) (d : counts) :
  set_add k (map fst d) = map fst (bump k d).
Proof.
  unfold set_add. induction d as [|[k' n] d IH]; simpl; [reflexivity|].
  destruct (key_eqb k k') eqn:Hk; simpl; [reflexivity|].
  rewrite <- IH. now destruct (existsb (key_eqb k) (map fst d)).
Qed.

Lemma authors_set_keys (commits : list json) :
  forall d,
    authors_set (map fst d) commits
    = rbind (count_commits d commits) (fun d' => Ok (map fst d')).
Proof.
  induction commits as [|c commits IH]; intros d; simpl; [reflexivity|].
  unfold count_commit.
  destruct (Py.get c "author" (JStr "Unknown")) as [a|e]; simpl;
    [|reflexivity].
  destruct (hashable a) eqn:Hh; [|reflexivity].
  rewrite set_add_keys, IH.
  now rewrite <- (loop_body_bump a d Hh).
Qed.

Lemma contributors_section_Ok_iff (F : formats) (commits : list json) :
  (exists text, contributors_section F (JArr commits) = Ok text) <->
  Forall commit_counts commits.
Proof.
  unfold contributors_section. destruct commits as [|c commits].
  - simpl. split; [constructor | now eexists].
  - change (Py.truthy (JArr (c :: commits))) with true. cbv iota.
    change (Py.iter (JArr (c :: commits))) with (Ok (c :: commits)).
    unfold top_contributors. cbv beta iota delta [rbind].
    rewrite <- (count_commits_Ok_iff (c :: commits) []).
    destruct (count_commits [] (c :: commits)) as [d|e].
    + split; intros _; eexists; reflexivity.
    + split; intros [x Hx]; discriminate Hx.
Qed.

Lemma generate_repo_summary_text_Ok_iff (E : env) (F : formats)
    (repo_data repo_name time_period : json)
    (commits issues prs releases : list json) :
  Py.subscript repo_data "repo_name" = Ok repo_name ->
  Py.subscript repo_data "time_period" = Ok time_period ->
  Py.get repo_data "commits" (JArr []) = Ok (JArr commits) ->
  Py.get repo_data "issues" (JArr []) = Ok (JArr issues) ->
  Py.get repo_data "pull_requests" (JArr []) = Ok (JArr prs) ->
  Py.get repo_data "releases" (JArr []) = Ok (JArr releases) ->
  (exists text, generate_repo_summary_text E F repo_data = Ok text) <->
  Forall commit_counts commits /\
  Forall (release_prints E) (firstn 3 releases) /\
  Forall (item_prints E) (firstn 5 issues) /\
  Forall (item_prints E) (firstn 5 prs).
Proof.
  intros Hn Hp Hc Hi Hpr Hr. unfold generate_repo_summary_text.
  rewrite Hn, Hp, Hc, Hi, Hpr, Hr. simpl rbind.
  change [] with (map fst (@nil (json * nat))).
  rewrite authors_set_keys.
  rewrite <- (releases_section_Ok_iff E F releases).
  rewrite <- (items_section_Ok_iff E F "## Notable Issues" issues).
  rewrite <- (items_section_Ok_iff E F "## Notable Pull Requests" prs).
  rewrite <- (contributors_section_Ok_iff F commits).
  repeat setoid_rewrite rbind_Ok_iff. split.
  - intros (s & _ & rel & Hrel & top & Htop & isec & His & psec & Hps & _).
    repeat split; eauto.
  - intros ((top & Htop) & (rel & Hrel) & (isec & His) & (psec & Hps)).
    assert (Hd : exists d, count_commits [] commits = Ok d).
    { apply count_commits_Ok_iff.
      apply (contributors_section_Ok_iff F commits). now exists top. }
    destruct Hd as [d Hd].
    exists (map fst d). split; [now rewrite Hd|].
    exists rel. split; [exact Hrel|]. exists top. split; [exact Htop|].
    exists isec. split; [exact His|]. exists psec. split; [exact Hps|].
    now eexists.
Qed.

(** X16: over a snapshot whose four collections are lists, the summary is
    produced exactly when every commit is a dict whose author can be a dict
    key, each of the first three releases carries [tag_name], [name] and a
    [published_at] that [strptime] accepts, and each of the first five
    issues and of the first five pull requests carries [number], [title],
    [author] and a [created_at] that [strptime] accepts.  Releases past
    the third and issues and pull requests past the fifth are not read. *)
Theorem summary_is_produced_iff (E : env) (F : formats)
    (repo_data repo_name time_period : json)
    (commits issues prs releases : list json) :
  Py.subscript repo_data "repo_name" = Ok repo_name ->
  Py.subscript repo_data "time_period" = Ok time_period ->
  Py.get repo_data "commits" (JArr []) = Ok (JArr commits) ->
  Py.get repo_data "issues" (JArr []) = Ok (JArr issues) ->
  Py.get repo_data "pull_requests" (JArr []) = Ok (JArr prs) ->
  Py.get repo_data "releases" (JArr []) = Ok (JArr releases) ->
  (exists text, generate_repo_summary_text E F repo_data = Ok text) <->
  Forall commit_counts commits /\
  Forall (release_prints E) (firstn 3 releases) /\
  Forall (item_prints E) (firstn 5 issues) /\
  Forall (item_prints E) (firstn 5 prs).
Proof.
  exact (generate_repo_summary_text_Ok_iff E F repo_data repo_name
           time_period commits issues prs releases).
Qed.

Lemma summary_is_produced_iff_witness :
  exists text,
    generate_repo_summary_text env_with_activity iso_day
      (snapshot "octocat/hello" "7 days"
         [JObj [("sha", JStr "1f2e3d4"); ("author", JStr "mona")]]
         [JObj [("number", JInt 4); ("title", JStr "Crash on start");
                ("created_at", JStr "2024-01-01T10:00:00Z");
                ("author", JStr "mona")]]
         [] []) = Ok text.
Proof.
  apply (summary_is_produced_iff env_with_activity iso_day
           (snapshot "octocat/hello" "7 days"
              [JObj [("sha", JStr "1f2e3d4"); ("author", JStr "mona")]]
              [JObj [("number", JInt 4); ("title", JStr "Crash on start");
                     ("created_at", JStr "2024-01-01T10:00:00Z");
                     ("author", JStr "mona")]]
              [] [])
           (JStr "octocat/hello") (JStr "7 days") _ _ [] []
           eq_refl eq_refl eq_refl eq_refl eq_refl eq_refl).
  split; [|split; [|split]].
  - repeat constructor. exists (JStr "mona"). now split.
  - constructor.
  - repeat constructor.
    + exists "2024-01-01T10:00:00Z", 1704103200%Q. now split.
    + now eexists.
    + now eexists.
    + now eexists.
  - constructor.
Defined.

(** ** The top contributors *)

Lemma insert_desc_ties (r : json * nat) (l : counts) (n : nat) :
  filter (fun x => Nat.eqb (snd x) n) (insert_desc r l)
  = filter (fun x => Nat.eqb (snd x) n) (r :: l).
Proof.
  induction l as [|r' l IH]; [reflexivity|].
  cbn [insert_desc]. destruct (snd r' <=? snd r)%nat eqn:Hle; [reflexivity|].
  apply Nat.leb_gt in Hle. cbn [filter] in *. rewrite IH.
  destruct (Nat.eqb (snd r') n) eqn:H1; [|reflexivity].
  apply Nat.eqb_eq in H1.
  destruct (Nat.eqb (snd r) n) eqn:H2; [|reflexivity].
  apply Nat.eqb_eq in H2. lia.
Qed.

Lemma stable_sort_desc_ties (rows : counts) :
  keeps_tie_order rows (stable_sort_desc rows).
Proof.
  intros n. induction rows as [|r rows IH]; [reflexivity|].
  cbn [stable_sort_desc]. rewrite insert_desc_ties. cbn [filter].
  now rewrite IH.
Qed.

(** A descending order that keeps the order of ties is the only one. *)
Lemma sorted_ties_unique (l1 : counts) :
  forall l2,
    Sorted commits_ge l1 -> Sorted commits_ge l2 ->
    (forall n, filter (fun r => Nat.eqb (snd r) n) l1
               = filter (fun r => Nat.eqb (snd r) n) l2) ->
    l1 = l2.
Proof.
  induction l1 as [|h1 t1 IH]; intros l2 Hs1 Hs2 Hf.
  - destruct l2 as [|h2 t2]; [reflexivity|].
    specialize (Hf (snd h2)). cbn [filter] in Hf.
    rewrite Nat.eqb_refl in Hf. discriminate Hf.
  - destruct l2 as [|h2 t2].
    + specialize (Hf (snd h1)). cbn [filter] in Hf.
      rewrite Nat.eqb_refl in Hf. discriminate Hf.
    + assert (H12 : (snd h1 <= snd h2)%nat).
      { apply (sorted_head_max h2 t2 Hs2 h1).
        apply (filter_In (fun r => Nat.eqb (snd r) (snd h1))).
        rewrite <- Hf. apply filter_In.
        split; [now left | apply Nat.eqb_refl]. }
      assert (H21 : (snd h2 <= snd h1)%nat).
      { apply (sorted_head_max h1 t1 Hs1 h2).
        apply (filter_In (fun r => Nat.eqb (snd r) (snd h2))).
        rewrite Hf. apply filter_In.
        split; [now left | apply Nat.eqb_refl]. }
      assert (Heq : h1 = h2).
      { pose proof (Hf (snd h1)) as H. cbn [filter] in H.
        rewrite Nat.eqb_refl in H.
        replace (snd h2 =? snd h1)%nat with true in H
          by (symmetry; apply Nat.eqb_eq; lia).
        now injection H. }
      subst h2. f_equal. apply IH.
      * now apply Sorted_inv in Hs1.
      * now apply Sorted_inv in Hs2.
      * intros n. specialize (Hf n). cbn [filter] in Hf.
        destruct (snd h1 =? n)%nat; [now injection Hf | exact Hf].
Qed.

Lemma sorted_prefix_dominates (l : counts) (k : nat) (r r' : json * nat) :
  Sorted commits_ge l ->
  In r (firstn k l) -> In r' (skipn k l) -> (snd r' <= snd r)%nat.
Proof.
  intros Hs. apply (Sorted_StronglySorted commits_ge_trans) in Hs.
  revert k. induction Hs as [|h t Ht IH Hall]; intros k Hr Hr'.
  - destruct k; inversion Hr.
  - destruct k as [|k]; [inversion Hr|]. simpl in Hr, Hr'.
    destruct Hr as [<-|Hr].
    + rewrite Forall_forall in Hall. apply Hall.
      rewrite <- (firstn_skipn k t). apply in_or_app. now right.
    + now apply (IH k).
Qed.

(** X17: the "Top Contributors" of the summary are determined by the
    commits.  For commits with string authors they are the first five rows
    of the per-contributor counts put in non-increasing order with the
    first-seen order kept among equal counts (Python's [sorted] is stable,
    unlike the sort of [extract_contributor_stats]); no other non-increasing
    arrangement keeps the order of ties; and no contributor left out has
    more commits than one listed. *)
Theorem top_contributors_are_determined (commits : list json)
    (authors : list string) :
  Forall2 (fun c a => Py.get c "author" (JStr "Unknown") = Ok (JStr a))
          commits authors ->
  exists sorted,
    top_contributors commits = Ok (firstn 5 sorted) /\
    Permutation (tally authors) sorted /\
    Sorted commits_ge sorted /\
    keeps_tie_order (tally authors) sorted /\
    (forall other,
       Sorted commits_ge other -> keeps_tie_order (tally authors) other ->
       other = sorted) /\
    (forall r r',
       In r (firstn 5 sorted) -> In r' (skipn 5 sorted) ->
       (snd r' <= snd r)%nat).
Proof.
  intros Ha. exists (stable_sort_desc (tally authors)).
  split; [|split; [|split; [|split; [|split]]]].
  - unfold top_contributors.
    rewrite (count_commits_strings commits authors Ha []).
    now rewrite fold_bump_tally.
  - apply stable_sort_desc_perm.
  - apply stable_sort_desc_sorted.
  - apply stable_sort_desc_ties.
  - intros other Hs Ht. apply sorted_ties_unique; [exact Hs| |].
    + apply stable_sort_desc_sorted.
    + intros n. rewrite (Ht n). symmetry. apply stable_sort_desc_ties.
  - intros r r'. apply sorted_prefix_dominates, stable_sort_desc_sorted.
Qed.

Lemma top_contributors_are_determined_witness :
  top_contributors
    (map (fun a => JObj [("sha", JStr ""); ("author", JStr a)])
         ["C"; "A"; "B"; "A"; "B"])
  = Ok [(JStr "A", 2%nat); (JStr "B", 2%nat); (JStr "C", 1%nat)].
Proof.
  destruct (top_contributors_are_determined _ ["C"; "A"; "B"; "A"; "B"]
              (snapshot_of_authors_commits ["C"; "A"; "B"; "A"; "B"]))
    as (sorted & Htop & _ & _ & _ & Huniq & _).
  rewrite Htop.
  rewrite <- (Huniq [(JStr "A", 2%nat); (JStr "B", 2%nat); (JStr "C", 1%nat)]).
  - reflexivity.
  - repeat constructor; unfold commits_ge; simpl; lia.
  - intros n. vm_compute tally.
    destruct n as [|[|[|n]]]; reflexivity.
Defined.

(** X18: the "Active contributors" of the overview are the contributors
    the counts are kept for: the set built on line 113 holds the keys of
    the dict built on lines 135-140, so the top list has as many rows as
    there are active contributors, up to five; and a commit that makes one
    loop raise makes the other raise the same exception. *)
Theorem active_contributors_are_the_counted_ones (commits : list json) :
  (forall contributors,
     authors_set [] commits = Ok contributors ->
     exists contributor_commits top,
       count_commits [] commits = Ok contributor_commits /\
       contributors = map fst contributor_commits /\
       top_contributors commits = Ok top /\
       List.length top = Nat.min 5 (List.length contributors)) /\
  (forall e,
     authors_set [] commits = Raise e ->
     count_commits [] commits = Raise e /\
     top_contributors commits = Raise e).
Proof.
  pose proof (authors_set_keys commits []) as H. simpl map in H.
  unfold top_contributors.
  destruct (count_commits [] commits) as [d|e0]; simpl in H; rewrite H.
  - split; [|discriminate]. intros s [= <-].
    exists d, (firstn 5 (stable_sort_desc d)).
    repeat split. rewrite length_firstn, length_map.
    now rewrite <- (Permutation_length (stable_sort_desc_perm d)).
  - split; [discriminate|]. intros e [= <-]. now split.
Qed.

Lemma active_contributors_are_the_counted_ones_witness :
  exists top,
    top_contributors [JObj [("author", JStr "mona")]; JObj [];
                      JObj [("author", JStr "mona")]] = Ok top /\
    List.length top = 2%nat.
Proof.
  destruct (proj1 (active_contributors_are_the_counted_ones
                     [JObj [("author", JStr "mona")]; JObj [];
                      JObj [("author", JStr "mona")]])
              [JStr "mona"; JStr "Unknown"] eq_refl)
    as (d & top & _ & _ & Htop & Hlen).
  exists top. split; [exact Htop | exact Hlen].
Defined.

(** ** Summaries of collected snapshots *)

Lemma release_record_shape (release record : json) :
  release_record release = Ok record ->
  exists tag_name name published_at author html_url,
    record = JObj [("tag_name", tag_name); ("name", name);
                   ("published_at", published_at); ("author", author);
                   ("url", html_url)] /\
    Py.get release "published_at" (JStr "") = Ok published_at.
Proof.
  intros H. unfold release_record in H. rbind_inv H. injection H as <-.
  repeat eexists.
Qed.

Lemma issue_record_shape (issue record : json) :
  issue_record issue = Ok record ->
  exists number title state created_at updated_at author labels html_url,
    record = JObj [("number", number); ("title", title); ("state", state);
                   ("created_at", created_at); ("updated_at", updated_at);
                   ("author", author); ("labels", labels);
                   ("url", html_url)] /\
    Py.get issue "created_at" (JStr "") = Ok created_at.
Proof.
  intros H. unfold issue_record in H. rbind_inv H. injection H as <-.
  repeat eexists.
Qed.

Lemma pr_record_shape (pr record : json) :
  pr_record pr = Ok record ->
  exists number title state created_at updated_at author labels html_url,
    record = JObj [("number", number); ("title", title); ("state", state);
                   ("created_at", created_at); ("updated_at", updated_at);
                   ("author", author); ("labels", labels);
                   ("url", html_url)] /\
    Py.get pr "created_at" (JStr "") = Ok created_at.
Proof.
  intros H. unfold pr_record in H. rbind_inv H. injection H as <-.
  repeat eexists.
Qed.

Lemma get_present (v x : json) (k : string) (default : json) :
  field k v = Some x -> Py.get v k default = Ok x.
Proof.
  unfold field, Py.get. destruct v; try discriminate. now intros ->.
Qed.

Lemma recent_release_record_prints (E : env) (cutoff : Q)
    (release record : json) :
  release_is_recent E cutoff release ->
  release_record release = Ok record ->
  release_prints E record.
Proof.
  intros (str & t & Hf & Hp & _) H.
  apply release_record_shape in H.
  destruct H as (tag & name & p & a & h & -> & Hget).
  rewrite (get_present _ _ _ _ Hf) in Hget. injection Hget as <-.
  split; [|split]; [exists str, t; now split | now eexists | now eexists].
Qed.

Lemma recent_release_records_print (E : env) (cutoff : Q)
    (releases records : list json) :
  Forall (release_is_recent E cutoff) releases ->
  rmap release_record releases = Ok records ->
  Forall (release_prints E) records.
Proof.
  intros Hall H. apply rmap_Ok_inv in H.
  induction H as [|r rec rs recs Hr _ IH]; [constructor|].
  inversion Hall; subst. constructor; [|now apply IH].
  now apply (recent_release_record_prints E cutoff r).
Qed.

Lemma get_releases_recent (E : env) (fuel : nat) (repo : string)
    (days : Z) (s s' : state) (releases : list json) :
  get_releases E fuel repo days s = Ret releases s' ->
  Forall (release_is_recent E (clock s - timedelta_days days)) releases.
Proof.
  intros H. unfold get_releases in H.
  pose proof (get_releases_loop_recent E
                (base_url ++ "/repos/" ++ repo ++ "/releases")%string
                days (clock s) fuel 1 [] s) as Hloop.
  rewrite H in Hloop. apply Hloop; [lra | constructor].
Qed.

Lemma Forall_firstn {A} (P : A -> Prop) (n : nat) (l : list A) :
  Forall P l -> Forall P (firstn n l).
Proof.
  intros H. rewrite Forall_forall in *. intros x Hx.
  apply H. rewrite <- (firstn_skipn n l). apply in_or_app. now left.
Qed.

(** X19: the releases section of the summary cannot fail on what the
    pipeline collected: every release [get_releases] returns, once
    normalized, carries the three keys its line reads and a [published_at]
    that [strptime] accepts, since the fetch has parsed it already. *)
Theorem fetched_releases_always_print (E : env) (F : formats) (fuel : nat)
    (repo : string) (days : Z) (s s' : state) (releases records : list json) :
  get_releases E fuel repo days s = Ret releases s' ->
  rmap release_record releases = Ok records ->
  Forall (release_prints E) records /\
  exists text, releases_section E F (JArr records) = Ok text.
Proof.
  intros Hrun Hrec.
  assert (Hall : Forall (release_prints E) records).
  { eapply recent_release_records_print; [|exact Hrec].
    exact (get_releases_recent E fuel repo days s s' releases Hrun). }
  split; [exact Hall|].
  apply releases_section_Ok_iff. now apply Forall_firstn.
Qed.

Lemma fetched_releases_always_print_witness :
  exists text,
    releases_section env_with_old_release iso_day
      (JArr [JObj [("tag_name", JStr "v1.0.0"); ("name", JStr "");
                   ("published_at", JStr "2024-01-01T10:00:00Z");
                   ("author", JStr "Unknown"); ("url", JStr "")]])
    = Ok text.
Proof.
  eapply (fetched_releases_always_print env_with_old_release iso_day 1
            "octocat/hello" 7 state_in_2024 _ [published_release]).
  - vm_compute. reflexivity.
  - reflexivity.
Defined.

Lemma normalized_item_line (E : env) (F : formats)
    (number title state created_at updated_at author labels html_url : json) :
  let record :=
    JObj [("number", number); ("title", title); ("state", state);
          ("created_at", created_at); ("updated_at", updated_at);
          ("author", author); ("labels", labels); ("url", html_url)] in
  (item_prints E record <->
   exists str t, created_at = JStr str /\ strptime E str = Some t) /\
  (dated E record <-> item_prints E record) /\
  (forall e, item_line E F record = Raise e ->
             e = ValueError \/ e = TypeError) /\
  (created_at = JStr "" -> strptime E "" = None ->
   item_line E F record = Raise ValueError).
Proof.
  intros record. split; [|split; [|split]].
  - unfold item_prints, record. simpl. split.
    + intros ((str & t & [= ->] & Ht) & _). now exists str, t.
    + intros (str & t & -> & Ht).
      split; [now exists str, t|]. repeat split; now eexists.
  - unfold dated, item_prints, record. simpl. split.
    + intros H. split; [exact H|]. repeat split; now eexists.
    + now intros [H _].
  - intros e. unfold item_line, record. simpl.
    destruct created_at as [| | |str| |]; simpl;
      try (intros [= <-]; now right).
    destruct (strptime E str); simpl; [discriminate|].
    intros [= <-]. now left.
  - intros -> Hnone. unfold item_line, record. simpl. now rewrite Hnone.
Qed.

Lemma get_absent (v x : json) (k : string) (default : json) :
  field k v = None -> Py.get v k default = Ok x -> x = default.
Proof.
  unfold field, Py.get. destruct v; try discriminate.
  intros ->. now intros [= <-].
Qed.

(** X20: a normalized issue or pull request always carries the keys its
    summary line reads, so the line never raises [KeyError]; it is produced
    exactly when the raw item's [created_at] is a string that [strptime]
    accepts, and raises [ValueError] or [TypeError] otherwise.  An item
    without [created_at] passes normalization, with the default [''], and
    then makes its line raise [ValueError]. *)
Theorem normalized_item_prints_iff_dated (E : env) (F : formats)
    (raw record : json) :
  issue_record raw = Ok record \/ pr_record raw = Ok record ->
  (item_prints E record <->
   exists str t,
     Py.get raw "created_at" (JStr "") = Ok (JStr str) /\
     strptime E str = Some t) /\
  (forall e, item_line E F record = Raise e ->
             e = ValueError \/ e = TypeError) /\
  (field "created_at" raw = None -> strptime E "" = None ->
   item_line E F record = Raise ValueError).
Proof.
  intros H.
  assert (Hshape :
    exists number title state created_at updated_at author labels html_url,
      record = JObj [("number", number); ("title", title); ("state", state);
                     ("created_at", created_at); ("updated_at", updated_at);
                     ("author", author); ("labels", labels);
                     ("url", html_url)] /\
      Py.get raw "created_at" (JStr "") = Ok created_at)
    by (destruct H as [H|H];
        [now apply issue_record_shape | now apply pr_record_shape]).
  destruct Hshape as (n & ti & st & c & u & a & l & h & -> & Hget).
  destruct (normalized_item_line E F n ti st c u a l h)
    as (Hiff & _ & Hexn & Hnone).
  split; [|split].
  - rewrite Hiff, Hget. split.
    + intros (str & t & -> & Ht). now exists str, t.
    + intros (str & t & [= ->] & Ht). now exists str, t.
  - exact Hexn.
  - intros Habs. apply Hnone. exact (get_absent _ _ _ _ Habs Hget).
Qed.

Lemma normalized_item_prints_iff_dated_witness :
  exists record,
    issue_record issue_without_number = Ok record /\
    item_line env_with_activity iso_day record = Raise ValueError.
Proof.
  eexists. split; [reflexivity|].
  eapply (normalized_item_prints_iff_dated env_with_activity iso_day
            issue_without_number).
  - left. reflexivity.
  - reflexivity.
  - reflexivity.
Defined.

Lemma lift_Ret_inv {A} (x : result A) (a : A) (t t' : state) :
  lift x t = Ret a t' -> x = Ok a /\ t' = t.
Proof.
  intros Hx. destruct x; [|discriminate Hx]. injection Hx as -> ->.
  now split.
Qed.

(** What a returned snapshot is made of. *)
Lemma process_repo_data_snapshot (E : env) (fuel : nat) (repo : string)
    (days : Z) (s s' : state) (d : json) :
  process_repo_data E fuel repo days s = Ret d s' ->
  exists s3 commits pull_requests issues releases
         commit_data issue_data pr_data release_data info stamp,
    get_releases E fuel repo days s3 = Ret releases s' /\
    rmap commit_record commits = Ok commit_data /\
    rmap issue_record issues = Ok issue_data /\
    rmap pr_record pull_requests = Ok pr_data /\
    rmap release_record releases = Ok release_data /\
    d = JObj [("repo_name", JStr repo);
              ("repo_info", info);
              ("commits", JArr commit_data);
              ("issues", JArr issue_data);
              ("pull_requests", JArr pr_data);
              ("releases", JArr release_data);
              ("time_period", JStr (time_period days));
              ("collection_date", JStr stamp)].
Proof.
  unfold process_repo_data. intros H.
  apply bind_Ret_inv in H. destruct H as (_ & s0 & _ & H).
  unfold try_except in H.
  destruct (process_repo_data_body E fuel repo days s0)
    as [d' sf|e sf|] eqn:Hbody; try discriminate H.
  injection H as -> ->. unfold process_repo_data_body in Hbody.
  apply bind_Ret_inv in Hbody. destruct Hbody as (info & s1 & _ & Hbody).
  apply bind_Ret_inv in Hbody.
  destruct Hbody as (commits & s2 & Hcommits & Hbody).
  apply bind_Ret_inv in Hbody.
  destruct Hbody as (issues & s3 & Hissues & Hbody).
  apply bind_Ret_inv in Hbody.
  destruct Hbody as ([prs iss] & s3' & Hclass & Hbody).
  apply bind_Ret_inv in Hbody.
  destruct Hbody as (releases & s4 & Hreleases & Hbody).
  apply bind_Ret_inv in Hbody.
  destruct Hbody as (commit_data & s5 & Hc & Hbody).
  apply bind_Ret_inv in Hbody.
  destruct Hbody as (issue_data & s6 & Hi & Hbody).
  apply bind_Ret_inv in Hbody.
  destruct Hbody as (pr_data & s7 & Hp & Hbody).
  apply bind_Ret_inv in Hbody.
  destruct Hbody as (release_data & s8 & Hr & Hbody).
  apply bind_Ret_inv in Hbody.
  destruct Hbody as (info' & s9 & Hinfo & Hbody).
  apply bind_Ret_inv in Hbody.
  destruct Hbody as (now & s10 & Hnow & Hbody).
  injection Hbody as <- <-.
  apply lift_Ret_inv in Hclass, Hc, Hi, Hp, Hr, Hinfo.
  destruct Hclass as [Hclass ->], Hc as [Hc ->], Hi as [Hi ->],
    Hp as [Hp ->], Hr as [Hr ->], Hinfo as [Hinfo ->].
  injection Hnow as _ ->.
  exists s3, commits, prs, iss, releases,
    commit_data, issue_data, pr_data, release_data, info',
    (isoformat E now).
  simpl fst in *. simpl snd in *.
  repeat split; assumption.
Qed.

Lemma normalized_items_print (E : env) (f : json -> result json)
    (items records : list json) :
  (forall raw record, f raw = Ok record ->
     dated E record <-> item_prints E record) ->
  rmap f items = Ok records ->
  forall n,
    Forall (item_prints E) (firstn n records) <->
    Forall (dated E) (firstn n records).
Proof.
  intros Hf H n. apply rmap_Ok_inv in H.
  assert (Hall : Forall (fun r => dated E r <-> item_prints E r) records).
  { induction H as [|x y xs ys Hxy _ IH]; constructor; [|exact IH].
    exact (Hf x y Hxy). }
  apply (Forall_firstn _ n) in Hall.
  induction Hall as [|r rs Hr _ IH]; [split; constructor|].
  split; intros Hc; inversion Hc; subst; constructor;
    solve [now apply Hr | now apply IH].
Qed.

Lemma issue_record_dated (E : env) (raw record : json) :
  issue_record raw = Ok record -> dated E record <-> item_prints E record.
Proof.
  intros H. apply issue_record_shape in H.
  destruct H as (n & ti & st & c & u & a & l & h & -> & _).
  apply (normalized_item_line E (mkFormats (fun _ => "") (fun _ => ""))).
Qed.

Lemma pr_record_dated (E : env) (raw record : json) :
  pr_record raw = Ok record -> dated E record <-> item_prints E record.
Proof.
  intros H. apply pr_record_shape in H.
  destruct H as (n & ti & st & c & u & a & l & h & -> & _).
  apply (normalized_item_line E (mkFormats (fun _ => "") (fun _ => ""))).
Qed.

(** X21: the summary of a snapshot [process_repo_data] has returned is
    produced exactly when the author of every normalized commit can be a
    dict key and each of the first five issues and of the first five pull
    requests of the snapshot carries a [created_at] that [strptime]
    accepts.  The releases never stand in the way, nor does a missing
    key. *)
Theorem collected_snapshot_summary (E : env) (F : formats) (fuel : nat)
    (repo : string) (days : Z) (s s' : state) (d : json) :
  process_repo_data E fuel repo days s = Ret d s' ->
  exists commit_data issue_data pr_data release_data,
    field "commits" d = Some (JArr commit_data) /\
    field "issues" d = Some (JArr issue_data) /\
    field "pull_requests" d = Some (JArr pr_data) /\
    field "releases" d = Some (JArr release_data) /\
    Forall (release_prints E) release_data /\
    ((exists text, generate_repo_summary_text E F d = Ok text) <->
     Forall commit_counts commit_data /\
     Forall (dated E) (firstn 5 issue_data) /\
     Forall (dated E) (firstn 5 pr_data)).
Proof.
  intros Hrun. apply process_repo_data_snapshot in Hrun.
  destruct Hrun as (s3 & commits & prs & issues & releases & commit_data
                    & issue_data & pr_data & release_data & info & stamp
                    & Hrel & Hc & Hi & Hp & Hr & ->).
  exists commit_data, issue_data, pr_data, release_data.
  assert (Hprint : Forall (release_prints E) release_data).
  { eapply recent_release_records_print; [|exact Hr].
    exact (get_releases_recent E fuel repo days s3 s' releases Hrel). }
  do 4 (split; [reflexivity|]). split; [exact Hprint|].
  match goal with
  | |- context [generate_repo_summary_text E F ?d] =>
      rewrite (generate_repo_summary_text_Ok_iff E F d (JStr repo)
                 (JStr (time_period days)) commit_data issue_data pr_data
                 release_data eq_refl eq_refl eq_refl eq_refl eq_refl eq_refl)
  end.
  rewrite (normalized_items_print E issue_record issues issue_data
             (issue_record_dated E) Hi 5).
  rewrite (normalized_items_print E pr_record prs pr_data
             (pr_record_dated E) Hp 5).
  split.
  - intros (Hcs & _ & His & Hps). now repeat split.
  - intros (Hcs & His & Hps). repeat split; try assumption.
    now apply Forall_firstn.
Qed.

Lemma collected_snapshot_summary_witness :
  (exists d s' text,
     process_repo_data env_with_activity 3 "octocat/hello" 7 state_in_2024
       = Ret d s' /\
     generate_repo_summary_text env_with_activity iso_day d = Ok text) /\
  (exists d s',
     process_repo_data env_with_undated_issue 3 "octocat/hello" 7
       state_in_2024 = Ret d s' /\
     ~ (exists text,
          generate_repo_summary_text env_with_undated_issue iso_day d
          = Ok text)).
Proof.
  split.
  - destruct (process_repo_data env_with_activity 3 "octocat/hello" 7
                state_in_2024) as [d s'|e s'|] eqn:Hrun;
      [|vm_compute in Hrun; discriminate Hrun
       |vm_compute in Hrun; discriminate Hrun].
    destruct (collected_snapshot_summary env_with_activity iso_day 3
                "octocat/hello" 7 state_in_2024 s' d Hrun)
      as (cd & idata & pd & rd & Hc & Hi & Hp & _ & _ & Hiff).
    vm_compute in Hrun. injection Hrun as <- <-.
    vm_compute in Hc, Hi, Hp.
    injection Hc as <-. injection Hi as <-. injection Hp as <-.
    assert (Hex : exists text,
               generate_repo_summary_text env_with_activity iso_day
                 (JObj [("repo_name", JStr "octocat/hello");
                        ("repo_info", JObj [("full_name", JStr "octocat/hello");
                                            ("description", JStr "");
                                            ("stars", JInt 0);
                                            ("forks", JInt 0);
                                            ("open_issues", JInt 0);
                                            ("url", JStr "")]);
                        ("commits", JArr [JObj [("sha", JStr "1f2e3d4");
                                                ("author", JStr "mona");
                                                ("date", JStr "");
                                                ("message", JStr "Fix typo");
                                                ("url", JStr "")]]);
                        ("issues", JArr [JObj [("number", JInt 4);
                                               ("title", JStr "Crash on start");
                                               ("state", JStr "");
                                               ("created_at",
                                                JStr "2024-01-01T10:00:00Z");
                                               ("updated_at", JStr "");
                                               ("author", JStr "mona");
                                               ("labels", JArr []);
                                               ("url", JStr "")]]);
                        ("pull_requests", JArr []);
                        ("releases", JArr [JObj [("tag_name", JStr "v1.0.0");
                                                 ("name", JStr "");
                                                 ("published_at",
                                                  JStr "2024-01-01T10:00:00Z");
                                                 ("author", JStr "Unknown");
                                                 ("url", JStr "")]]);
                        ("time_period", JStr "7 days");
                        ("collection_date", JStr "2024-01-02T00:00:00")])
               = Ok text).
    { apply Hiff. split; [|split].
      - repeat constructor. exists (JStr "mona"). now split.
      - repeat constructor.
        exists "2024-01-01T10:00:00Z", 1704103200%Q. now split.
      - constructor. }
    destruct Hex as [text Htext]. eexists _, _, text.
    split; [reflexivity | exact Htext].
  - destruct (process_repo_data env_with_undated_issue 3 "octocat/hello" 7
                state_in_2024) as [d s'|e s'|] eqn:Hrun;
      [|vm_compute in Hrun; discriminate Hrun
       |vm_compute in Hrun; discriminate Hrun].
    exists d, s'. split; [reflexivity|]. intros Hex.
    destruct (collected_snapshot_summary env_with_undated_issue iso_day 3
                "octocat/hello" 7 state_in_2024 s' d Hrun)
      as (cd & idata & pd & rd & _ & Hi & _ & _ & _ & Hiff).
    apply Hiff in Hex. destruct Hex as (_ & His & _).
    vm_compute in Hrun. injection Hrun as <- _.
    vm_compute in Hi. injection Hi as <-.
    apply Forall_inv in His. destruct His as (str & t & Hf & Ht).
    vm_compute in Hf. injection Hf as <-. discriminate Ht.
Defined.

(** ** The dashboard's collection *)

Lemma process_repo_data_writes_nothing E fuel repo days s s1 :
  (exists d, process_repo_data E fuel repo days s = Ret d s1) \/
  (exists e, process_repo_data E fuel repo days s = Exn e s1) ->
  written (trace s1) = written (trace s).
Proof.
  intros H. pose proof (quiet_process_repo_data E fuel repo days s) as Hq.
  assert (Hstep : quiet_step s s1)
    by (destruct H as [[d H]|[e H]]; now rewrite H in Hq).
  apply Hstep.
Qed.

Lemma dashboard_loop_next E fuel repo rest days acc s d s1 :
  process_repo_data E fuel repo days s = Ret d s1 ->
  dashboard_loop E fuel (repo :: rest) days acc s
  = dashboard_loop E fuel rest days (acc ++ [d]) (saved d s1).
Proof.
  intros H. simpl.
  rewrite (bind_Ret _ _ _ _ _ H).
  rewrite (bind_Ret _ _ _ _ _
             (save_repo_data_run d repo s1
                (process_repo_data_repo_name _ _ _ _ _ _ _ H))).
  reflexivity.
Qed.

Lemma dashboard_loop_in_a_row E fuel days repos s snapshots s' :
  collected_in_a_row E fuel days repos s snapshots s' ->
  (forall acc rest,
     dashboard_loop E fuel (repos ++ rest) days acc s
     = dashboard_loop E fuel rest days (acc ++ snapshots) s') /\
  written (trace s') = written (trace s) ++ snapshots /\
  List.length snapshots = List.length repos.
Proof.
  induction 1 as [s|repo repos s s1 s' d snapshots Hrun _ IH].
  - repeat split; try now rewrite app_nil_r.
    intros acc rest. now rewrite app_nil_r.
  - destruct IH as (Hloop & Hw & Hlen). repeat split.
    + intros acc rest. rewrite <- app_comm_cons.
      rewrite (dashboard_loop_next _ _ _ _ _ _ _ _ _ Hrun), Hloop.
      now rewrite <- app_assoc.
    + rewrite Hw. simpl. rewrite !written_app. simpl.
      rewrite (process_repo_data_writes_nothing E fuel repo days s s1)
        by (left; now exists d).
      now rewrite app_nil_r, <- app_assoc.
    + simpl. now rewrite Hlen.
Qed.

(** X22: the dashboard's collection is all or nothing for the session, but
    not for the disk.  With a token and repositories given: if every
    repository is collected, the session holds their snapshots, in order,
    and each has been saved; if the fetch of one repository raises, the
    click ends there: the session keeps the data it had, the repositories
    after the failed one are not fetched, and yet the snapshots of the
    repositories before it stay saved.  Without a token, or without a
    repository, nothing is done. *)
Theorem dashboard_collection_is_all_or_nothing (E : env) (fuel : nat)
    (github_token : string) (days : Z) (session : option (list json))
    (s : state) :
  (forall repo repos snapshots s',
     github_token <> "" ->
     collected_in_a_row E fuel days (repo :: repos) (fresh_client s)
       snapshots s' ->
     collect_button E fuel github_token (repo :: repos) days session s
     = Ret (Some snapshots) s' /\
     List.length snapshots = S (List.length repos) /\
     written (trace s') = written (trace s) ++ snapshots) /\
  (forall done repo rest snapshots s1 e s2,
     github_token <> "" ->
     collected_in_a_row E fuel days done (fresh_client s) snapshots s1 ->
     process_repo_data E fuel repo days s1 = Exn e s2 ->
     collect_button E fuel github_token (done ++ repo :: rest) days session s
     = Ret session s2 /\
     written (trace s2) = written (trace s) ++ snapshots) /\
  (forall repos,
     github_token = "" \/ repos = [] ->
     collect_button E fuel github_token repos days session s
     = Ret session s).
Proof.
  assert (Htok : github_token <> "" ->
                 negb (String.eqb github_token "") = true).
  { intros H. apply negb_true_iff. now apply String.eqb_neq. }
  split; [|split].
  - intros repo repos snapshots s' Ht Hrow.
    destruct (dashboard_loop_in_a_row _ _ _ _ _ _ _ Hrow)
      as (Hloop & Hw & Hlen).
    split; [|split; [exact Hlen | exact Hw]].
    unfold collect_button. rewrite (Htok Ht). cbn [andb].
    unfold try_except.
    rewrite (bind_Ret _ _ s (fresh_client s) tt) by reflexivity.
    specialize (Hloop [] []). rewrite app_nil_r in Hloop.
    rewrite (bind_Ret _ _ _ s' snapshots); [reflexivity|].
    rewrite Hloop. reflexivity.
  - intros done repo rest snapshots s1 e s2 Ht Hrow Hfail.
    destruct (dashboard_loop_in_a_row _ _ _ _ _ _ _ Hrow)
      as (Hloop & Hw & _).
    split.
    + unfold collect_button. rewrite (Htok Ht).
      replace (match (done ++ repo :: rest)%list with
               | [] => false | _ :: _ => true end) with true
        by (now destruct done).
      cbn [andb]. unfold try_except.
      rewrite (bind_Ret _ _ s (fresh_client s) tt) by reflexivity.
      rewrite (bind_Exn _ _ _ s2 e); [reflexivity|].
      rewrite Hloop. simpl.
      now rewrite (bind_Exn _ _ _ _ _ Hfail).
    + rewrite (process_repo_data_writes_nothing E fuel repo days s1 s2)
        by (right; now exists e).
      exact Hw.
  - intros repos [->| ->]; unfold collect_button; [reflexivity|].
    now rewrite andb_false_r.
Qed.

Lemma dashboard_collection_is_all_or_nothing_witness :
  exists snapshot s2,
    collect_button env_one_missing 3 "token"
      ["octocat/hello"; "octocat/gone"; "octocat/hello"] 7 None initial_state
    = Ret None s2 /\
    written (trace s2) = [snapshot].
Proof.
  assert (Hrow : exists d s1,
             collected_in_a_row env_one_missing 3 7 ["octocat/hello"]
               (fresh_client initial_state) [d] s1).
  { eexists. eexists.
    eapply in_a_row_next; [vm_compute; reflexivity|]. apply in_a_row_done. }
  destruct Hrow as (d & s1 & Hrow).
  destruct (process_repo_data env_one_missing 3 "octocat/gone" 7 s1)
    as [d2 s2|e s2|] eqn:Hfail.
  - exfalso. inversion Hrow as [|? ? ? ? ? ? ? Hrun Hrest]; subst.
    inversion Hrest; subst.
    vm_compute in Hrun. injection Hrun as <- <-.
    vm_compute in Hfail. discriminate Hfail.
  - exists d, s2.
    exact (proj1 (proj2 (dashboard_collection_is_all_or_nothing
                           env_one_missing 3 "token" 7 None initial_state))
             ["octocat/hello"] "octocat/gone" ["octocat/hello"] [d] s1 e s2
             ltac:(discriminate) Hrow Hfail).
  - exfalso. inversion Hrow as [|? ? ? ? ? ? ? Hrun Hrest]; subst.
    inversion Hrest; subst.
    vm_compute in Hrun. injection Hrun as <- <-.
    vm_compute in Hfail. discriminate Hfail.
Defined.

(** ** Reading the configuration *)

Lemma split_on_nonempty (sep : ascii) (s : string) : split_on sep s <> [].
Proof.
  destruct s as [|a s]; simpl; [discriminate|].
  destruct (Ascii.eqb a sep); [discriminate|].
  destruct (split_on sep s); discriminate.
Qed.

Lemma split_on_length (sep : ascii) (s : string) :
  List.length (split_on sep s) = S (count_char sep s).
Proof.
  induction s as [|a s IH]; simpl; [reflexivity|].
  destruct (Ascii.eqb a sep); simpl; [now rewrite IH|].
  destruct (split_on sep s) as [|h t] eqn:Hs; [|exact IH].
  now apply split_on_nonempty in Hs.
Qed.

Lemma split_on_no_sep (sep : ascii) (s : string) :
  Forall (fun seg => has_char sep seg = false) (split_on sep s).
Proof.
  induction s as [|a s IH]; simpl; [now constructor|].
  destruct (Ascii.eqb a sep) eqn:Ha; [now constructor|].
  destruct (split_on sep s) as [|h t]; [repeat constructor; simpl;
                                         now rewrite Ha|].
  inversion IH; subst. constructor; [|assumption]. simpl.
  now rewrite Ha.
Qed.

Lemma split_on_app (sep : ascii) (x y : string) :
  split_on sep (x ++ String sep y) = (split_on sep x ++ split_on sep y)%list.
Proof.
  induction x as [|a x IH]; simpl.
  - now rewrite Ascii.eqb_refl.
  - destruct (Ascii.eqb a sep); [now rewrite IH|].
    rewrite IH. destruct (split_on sep x) as [|h t] eqn:Hx; [|reflexivity].
    now apply split_on_nonempty in Hx.
Qed.

Lemma lstrip_chars (is_space : ascii -> bool) (c : ascii) (s : string) :
  has_char c s = false -> has_char c (lstrip is_space s) = false.
Proof.
  induction s as [|a s IH]; simpl; [reflexivity|].
  intros H. apply orb_false_iff in H. destruct H as [Ha Hs].
  destruct (is_space a); [now apply IH|]. simpl. now rewrite Ha, Hs.
Qed.

Lemma rstrip_chars (is_space : ascii -> bool) (c : ascii) (s : string) :
  has_char c s = false -> has_char c (rstrip is_space s) = false.
Proof.
  induction s as [|a s IH]; simpl; [reflexivity|].
  intros H. apply orb_false_iff in H. destruct H as [Ha Hs].
  specialize (IH Hs).
  destruct (rstrip is_space s) as [|b r].
  - destruct (is_space a); simpl; [reflexivity | now rewrite Ha].
  - change (has_char c (String a (String b r)))
      with (Ascii.eqb a c || has_char c (String b r)).
    now rewrite Ha, IH.
Qed.

Lemma strip_chars (is_space : ascii -> bool) (c : ascii) (s : string) :
  has_char c s = false -> has_char c (strip is_space s) = false.
Proof. intros H. now apply rstrip_chars, lstrip_chars. Qed.

Lemma lstrip_head (is_space : ascii -> bool) (s : string) :
  match lstrip is_space s with
  | EmptyString => True
  | String a _ => is_space a = false
  end.
Proof.
  induction s as [|a s IH]; simpl; [exact I|].
  destruct (is_space a) eqn:Ha; [exact IH | exact Ha].
Qed.

Lemma rstrip_idem (is_space : ascii -> bool) (s : string) :
  rstrip is_space (rstrip is_space s) = rstrip is_space s.
Proof.
  induction s as [|a s IH]; simpl; [reflexivity|].
  destruct (rstrip is_space s) as [|b r] eqn:Hr.
  - destruct (is_space a) eqn:Ha; simpl; [reflexivity | now rewrite Ha].
  - cbn [rstrip]. cbn [rstrip] in IH. now rewrite IH.
Qed.

Lemma lstrip_rstrip (is_space : ascii -> bool) (s : string) :
  match s with
  | EmptyString => True
  | String a _ => is_space a = false
  end ->
  lstrip is_space (rstrip is_space s) = rstrip is_space s.
Proof.
  destruct s as [|a s]; [reflexivity|]. intros Ha. simpl.
  destruct (rstrip is_space s); try rewrite Ha; simpl; now rewrite Ha.
Qed.

Lemma strip_idem (is_space : ascii -> bool) (s : string) :
  strip is_space (strip is_space s) = strip is_space s.
Proof.
  unfold strip.
  rewrite (lstrip_rstrip is_space (lstrip is_space s) (lstrip_head _ s)).
  apply rstrip_idem.
Qed.

(** X23: [load_config] ends the program, with exit code 1, exactly when
    [GITHUB_TOKEN] or [OPENAI_API_KEY] is unset or empty, and names the
    first of the two that is; otherwise it returns the two tokens and the
    repositories of [REPOS] (of the default when unset): one name per
    comma-separated piece, so one more than there are commas and never
    none, each stripped of surrounding white space and free of commas.
    Empty pieces are kept: a [REPOS] that ends with a comma yields an
    empty repository name. *)
Theorem load_config_repositories (is_space : ascii -> bool)
    (getenv : string -> option string) :
  let repos_str := getenv_default getenv "REPOS" "ethereum/go-ethereum" in
  (forall code name,
     load_config is_space getenv = SystemExit code name <->
     code = 1%Z /\
     ((name = "GITHUB_TOKEN" /\ not_set (getenv "GITHUB_TOKEN") = true) \/
      (name = "OPENAI_API_KEY" /\ not_set (getenv "GITHUB_TOKEN") = false /\
       not_set (getenv "OPENAI_API_KEY") = true))) /\
  (forall github_token openai_api_key repos,
     load_config is_space getenv = Config github_token openai_api_key repos ->
     getenv "GITHUB_TOKEN" = Some github_token /\ github_token <> "" /\
     getenv "OPENAI_API_KEY" = Some openai_api_key /\ openai_api_key <> "" /\
     List.length repos = S (count_char ","%char repos_str) /\
     Forall (fun repo => strip is_space repo = repo /\
                         has_char ","%char repo = false) repos /\
     (forall x, repos_str = (x ++ ",")%string -> last repos "x" = "")).
Proof.
  intros repos_str. unfold load_config. fold repos_str.
  assert (Hset : forall name,
             not_set (getenv name) = false ->
             exists v, getenv name = Some v /\ v <> "" /\
                       getenv_default getenv name "" = v).
  { intros name H. unfold not_set, getenv_default in *.
    destruct (getenv name) as [v|]; [|discriminate H].
    exists v. repeat split. now apply String.eqb_neq. }
  split.
  - intros code name.
    destruct (not_set (getenv "GITHUB_TOKEN")) eqn:Hg;
      [|destruct (not_set (getenv "OPENAI_API_KEY")) eqn:Ho].
    + split.
      * intros [= <- <-]. split; [reflexivity|]. now left.
      * intros (-> & [[-> _]|(_ & Hf & _)]); [reflexivity | discriminate Hf].
    + split.
      * intros [= <- <-]. split; [reflexivity|]. now right.
      * intros (-> & [[_ Hf]|(-> & _)]); [discriminate Hf | reflexivity].
    + split; [discriminate|].
      intros (_ & [[_ Hf]|(_ & _ & Hf)]); discriminate Hf.
  - intros t k repos.
    destruct (not_set (getenv "GITHUB_TOKEN")) eqn:Hg; [discriminate|].
    destruct (not_set (getenv "OPENAI_API_KEY")) eqn:Ho; [discriminate|].
    destruct (Hset _ Hg) as (v1 & Hv1 & Hne1 & Hd1).
    destruct (Hset _ Ho) as (v2 & Hv2 & Hne2 & Hd2).
    rewrite Hd1, Hd2. intros [= <- <- <-].
    repeat split; try assumption.
    + now rewrite length_map, split_on_length.
    + apply Forall_map.
      eapply Forall_impl; [|apply (split_on_no_sep ","%char repos_str)].
      intros seg Hseg. split; [apply strip_idem | now apply strip_chars].
    + intros x ->.
      change (x ++ ",")%string with (x ++ String ","%char "")%string.
      rewrite split_on_app, map_app. simpl. apply last_last.
Qed.

Lemma load_config_repositories_witness :
  load_config ascii_space (environ_with_repos "bitcoin/bitcoin, a/b,")
  = Config "ghp_token" "sk-key" ["bitcoin/bitcoin"; "a/b"; ""] /\
  last ["bitcoin/bitcoin"; "a/b"; ""] "x" = "".
Proof.
  split; [reflexivity|].
  exact (proj2 (proj2 (proj2 (proj2 (proj2 (proj2
           (proj2 (load_config_repositories ascii_space
                     (environ_with_repos "bitcoin/bitcoin, a/b,"))
              "ghp_token" "sk-key" ["bitcoin/bitcoin"; "a/b"; ""]
              eq_refl))))))
           "bitcoin/bitcoin, a/b" eq_refl).
Defined.

Lemma replace_comma_split (s : string) :
  has_char Py.newline s = false ->
  split_on Py.newline (replace_comma s) = split_on ","%char s.
Proof.
  induction s as [|a s IH]; simpl; [reflexivity|].
  intros H. apply orb_false_iff in H. destruct H as [Ha Hs].
  rewrite (IH Hs).
  destruct (Ascii.eqb a ","%char) eqn:Hc.
  - now rewrite Ascii.eqb_refl.
  - now rewrite Ha.
Qed.

Lemma map_filter_strip (is_space : ascii -> bool) (l : list string) :
  map (strip is_space)
      (filter (fun repo => negb (String.eqb (strip is_space repo) "")) l)
  = filter (fun repo => negb (String.eqb repo "")) (map (strip is_space) l).
Proof.
  induction l as [|x l IH]; simpl; [reflexivity|].
  destruct (negb (String.eqb (strip is_space x) "")); simpl; now rewrite IH.
Qed.

(** X24: the dashboard never analyses a repository with an empty name:
    every name it reads from its text box is non-empty, stripped, and on
    one line.  Left as it comes up, for a [REPOS] without a line break,
    the box yields the repositories [load_config] returns for the same
    environment, in order, less the empty names that [load_config]
    keeps. *)
Theorem dashboard_repositories_are_named (is_space : ascii -> bool) :
  (forall repos_input,
     Forall (fun repo => repo <> "" /\ strip is_space repo = repo /\
                         has_char Py.newline repo = false)
            (repositories is_space repos_input)) /\
  (forall getenv github_token openai_api_key repos,
     has_char Py.newline
       (getenv_default getenv "REPOS" "ethereum/go-ethereum") = false ->
     load_config is_space getenv = Config github_token openai_api_key repos ->
     repositories is_space (default_repos_input getenv)
     = filter (fun repo => negb (String.eqb repo "")) repos).
Proof.
  split.
  - intros repos_input. unfold repositories. apply Forall_map.
    apply Forall_forall. intros seg Hseg. apply filter_In in Hseg.
    destruct Hseg as [Hin Hne]. repeat split.
    + apply negb_true_iff in Hne. now apply String.eqb_neq.
    + apply strip_idem.
    + apply strip_chars.
      pose proof (split_on_no_sep Py.newline repos_input) as Hall.
      rewrite Forall_forall in Hall. now apply Hall.
  - intros getenv t k repos Hnl. unfold load_config.
    destruct (not_set (getenv "GITHUB_TOKEN")); [discriminate|].
    destruct (not_set (getenv "OPENAI_API_KEY")); [discriminate|].
    intros [= _ _ <-].
    unfold repositories, default_repos_input.
    now rewrite (replace_comma_split _ Hnl), map_filter_strip.
Qed.

Lemma dashboard_repositories_are_named_witness :
  repositories ascii_space
    (default_repos_input (environ_with_repos "bitcoin/bitcoin, a/b,"))
  = ["bitcoin/bitcoin"; "a/b"].
Proof.
  exact (proj2 (dashboard_repositories_are_named ascii_space)
           (environ_with_repos "bitcoin/bitcoin, a/b,")
           "ghp_token" "sk-key" ["bitcoin/bitcoin"; "a/b"; ""]
           eq_refl eq_refl).
Defined.

(** ** The requests of a paginated fetch *)

Lemma make_request_gets (E : env) (r : request) (fuel : nat) :
  forall s : state,
    ended (_make_request E fuel r s) (fun s' =>
      exists n, gets (trace s') = gets (trace s) ++ repeat r (S n)).
Proof.
  induction fuel as [|fuel IH]; intros s; [exact I|].
  rewrite make_request_step.
  set (resp := server E (requests_sent s) r).
  assert (Hget : exists n, gets (trace (after_get r resp s))
                           = gets (trace s) ++ repeat r (S n)).
  { exists 0%nat. unfold after_get; simpl.
    now rewrite gets_app, throttled_gets. }
  assert (Herr : exists n, gets (trace (after_error r resp s))
                           = gets (trace s) ++ repeat r (S n)).
  { exists 0%nat. unfold after_error; simpl.
    rewrite !gets_app, throttled_gets. simpl. now rewrite app_nil_r. }
  destruct (status_code resp =? 200)%Z.
  - apply lift_ended. exact Hget.
  - destruct (is_rate_limited resp) as [[|]|e].
    + specialize (IH (after_rate_limit r resp s)).
      assert (Hg1 : gets (trace (after_rate_limit r resp s))
                    = gets (trace s) ++ [r]).
      { unfold after_rate_limit; simpl.
        rewrite !gets_app, throttled_gets. simpl. now rewrite !app_nil_r. }
      destruct fuel as [|fuel']; unfold retry;
        [exists 0%nat; exact Hg1|].
      destruct (_make_request E (S fuel') r (after_rate_limit r resp s))
        as [j s'|e s'|]; unfold ended in *; try exact I;
        destruct IH as (n & Hg); exists (S n);
        now rewrite Hg, Hg1, <- app_assoc.
    + destruct (is_http_error (status_code resp)); exact Herr.
    + exact Hget.
Qed.

Lemma page_by_page_repeat (p n : nat) (rest : list nat) :
  page_by_page p (repeat p n ++ rest) = page_by_page p rest.
Proof.
  induction n as [|n IH]; [reflexivity|]. simpl.
  now rewrite Nat.eqb_refl, IH.
Qed.

Lemma paged_requests_one (u : string) (sd : option Q) (st : option string)
    (p n : nat) :
  paged_requests u sd st p (repeat (mkRequest u sd st (Some p)) (S n)).
Proof.
  split.
  - apply Forall_forall. intros r Hr. apply repeat_spec in Hr. now subst.
  - exists (repeat p n). split.
    + simpl. f_equal. now rewrite !map_repeat.
    + rewrite <- (app_nil_r (repeat p n)). now rewrite page_by_page_repeat.
Qed.

Lemma paged_requests_next (u : string) (sd : option Q) (st : option string)
    (p n : nat) (reqs : list request) :
  paged_requests u sd st (S p) reqs ->
  paged_requests u sd st p
    (repeat (mkRequest u sd st (Some p)) (S n) ++ reqs).
Proof.
  intros [Hall (rest & Hp & Hr)]. split.
  - apply Forall_app. split; [|exact Hall].
    apply Forall_forall. intros r Hr'. apply repeat_spec in Hr'. now subst.
  - exists (repeat p n ++ S p :: rest). split.
    + rewrite map_app, Hp. simpl. f_equal.
      now rewrite map_app, !map_repeat.
    + rewrite page_by_page_repeat. simpl.
      now rewrite Nat.eqb_refl, orb_true_r, Hr.
Qed.

(** However the loop ends, it has asked for page [pg] first, then page by
    page, every time with the same URL and parameters. *)
Ltac pages_in_order loop_eq :=
  match goal with
  | |- forall fuel : nat, _ =>
      induction fuel as [|fuel IH]; intros pg acc s; [exact I|];
      rewrite loop_eq; unfold bind at 1;
      match goal with
      | |- context [_make_request ?E (S fuel) ?r s] =>
          pose proof (make_request_gets E r (S fuel) s) as Hreq;
          destruct (_make_request E (S fuel) r s) as [data s1|e s1|];
          [|destruct Hreq as (n & Hn); eexists; split;
            [exact Hn | apply paged_requests_one]
           |exact I];
          destruct Hreq as (n & Hn)
      end
  end.

Lemma get_commits_loop_requests (E : env) (u : string) (since_date : Q) :
  forall (fuel pg : nat) (acc : list json) (s : state),
    ended (get_commits_loop E fuel u since_date pg acc s) (fun s' =>
      exists reqs,
        gets (trace s') = gets (trace s) ++ reqs /\
        paged_requests u (Some since_date) None pg reqs).
Proof.
  pages_in_order get_commits_loop_eq.
  assert (Hone : exists reqs,
             gets (trace s1) = gets (trace s) ++ reqs /\
             paged_requests u (Some since_date) None pg reqs)
    by (eexists; split; [exact Hn | apply paged_requests_one]).
  destruct (negb (Py.truthy data)); [exact Hone|].
  destruct (Py.iter data) as [items|e];
    [rewrite (bind_Ret (lift (Ok items)) _ s1 s1 items eq_refl)
    |rewrite (bind_Exn (lift (Raise e)) _ s1 s1 e eq_refl); exact Hone].
  destruct (Py.len data) as [k|e];
    [rewrite (bind_Ret (lift (Ok k)) _ s1 s1 k eq_refl)
    |rewrite (bind_Exn (lift (Raise e)) _ s1 s1 e eq_refl); exact Hone].
  destruct (k <? 30)%nat; [exact Hone|].
  specialize (IH (S pg) (acc ++ items) s1).
  destruct (get_commits_loop E fuel u since_date (S pg) (acc ++ items) s1)
    as [r s'|e s'|]; unfold ended in *; try exact I;
    destruct IH as (reqs & Hg & Hp); eexists;
    (split; [rewrite Hg, Hn, <- app_assoc; reflexivity
            |now apply paged_requests_next]).
Qed.

Lemma get_issues_loop_requests (E : env) (u : string) (since_date : Q)
    (state_filter : string) :
  forall (fuel pg : nat) (acc : list json) (s : state),
    ended (get_issues_loop E fuel u since_date state_filter pg acc s)
      (fun s' =>
         exists reqs,
           gets (trace s') = gets (trace s) ++ reqs /\
           paged_requests u (Some since_date) (Some state_filter) pg reqs).
Proof.
  pages_in_order get_issues_loop_eq.
  assert (Hone : exists reqs,
             gets (trace s1) = gets (trace s) ++ reqs /\
             paged_requests u (Some since_date) (Some state_filter) pg reqs)
    by (eexists; split; [exact Hn | apply paged_requests_one]).
  destruct (negb (Py.truthy data)); [exact Hone|].
  destruct (Py.iter data) as [items|e];
    [rewrite (bind_Ret (lift (Ok items)) _ s1 s1 items eq_refl)
    |rewrite (bind_Exn (lift (Raise e)) _ s1 s1 e eq_refl); exact Hone].
  destruct (Py.len data) as [k|e];
    [rewrite (bind_Ret (lift (Ok k)) _ s1 s1 k eq_refl)
    |rewrite (bind_Exn (lift (Raise e)) _ s1 s1 e eq_refl); exact Hone].
  destruct (k <? 30)%nat; [exact Hone|].
  specialize (IH (S pg) (acc ++ items) s1).
  destruct (get_issues_loop E fuel u since_date state_filter (S pg)
              (acc ++ items) s1)
    as [r s'|e s'|]; unfold ended in *; try exact I;
    destruct IH as (reqs & Hg & Hp); eexists;
    (split; [rewrite Hg, Hn, <- app_assoc; reflexivity
            |now apply paged_requests_next]).
Qed.

Lemma get_releases_loop_requests (E : env) (u : string) (days : Z) :
  forall (fuel pg : nat) (acc : list json) (s : state),
    ended (get_releases_loop E fuel u days pg acc s) (fun s' =>
      exists reqs,
        gets (trace s') = gets (trace s) ++ reqs /\
        paged_requests u None None pg reqs).
Proof.
  pages_in_order get_releases_loop_eq.
  assert (Hone : exists reqs,
             gets (trace s1) = gets (trace s) ++ reqs /\
             paged_requests u None None pg reqs)
    by (eexists; split; [exact Hn | apply paged_requests_one]).
  destruct (negb (Py.truthy data)); [exact Hone|].
  rewrite (bind_Ret datetime_now _ s1 s1 (clock s1) eq_refl).
  destruct (Py.iter data) as [rows|e];
    [rewrite (bind_Ret (lift (Ok rows)) _ s1 s1 rows eq_refl)
    |rewrite (bind_Exn (lift (Raise e)) _ s1 s1 e eq_refl); exact Hone].
  destruct (rfilter (published_after E (clock s1 - timedelta_days days)) rows)
    as [recent|e];
    [rewrite (bind_Ret (lift (Ok recent)) _ s1 s1 recent eq_refl)
    |rewrite (bind_Exn (lift (Raise e)) _ s1 s1 e eq_refl); exact Hone].
  destruct (Py.len data) as [k|e];
    [rewrite (bind_Ret (lift (Ok k)) _ s1 s1 k eq_refl)
    |rewrite (bind_Exn (lift (Raise e)) _ s1 s1 e eq_refl); exact Hone].
  destruct ((k <? 30)%nat || (List.length recent <? k)%nat); [exact Hone|].
  specialize (IH (S pg) (acc ++ recent) s1).
  destruct (get_releases_loop E fuel u days (S pg) (acc ++ recent) s1)
    as [r s'|e s'|]; unfold ended in *; try exact I;
    destruct IH as (reqs & Hg & Hp); eexists;
    (split; [rewrite Hg, Hn, <- app_assoc; reflexivity
            |now apply paged_requests_next]).
Qed.

(** X25: whatever the server answers, and however the fetch ends (a list
    returned or an exception raised), the three paginated fetchers ask for
    page 1 first and then page by page, never skipping a page or going
    back (a page is asked for again only when a rate-limited request is
    retried); every request goes to the fetcher's URL, and those of
    [get_commits] and [get_issues] all carry the [since] computed when the
    fetch began, even when the fetch has slept in between. *)
Theorem pages_are_requested_in_order (E : env) (fuel : nat) (repo : string)
    (days : Z) (state_filter : string) (s : state) :
  ended (get_commits E fuel repo days s) (fun s' =>
    exists reqs,
      gets (trace s') = gets (trace s) ++ reqs /\
      paged_requests (base_url ++ "/repos/" ++ repo ++ "/commits")%string
        (Some (clock s - timedelta_days days)%Q) None 1 reqs) /\
  ended (get_issues E fuel repo days state_filter s) (fun s' =>
    exists reqs,
      gets (trace s') = gets (trace s) ++ reqs /\
      paged_requests (base_url ++ "/repos/" ++ repo ++ "/issues")%string
        (Some (clock s - timedelta_days days)%Q) (Some state_filter) 1
        reqs) /\
  ended (get_releases E fuel repo days s) (fun s' =>
    exists reqs,
      gets (trace s') = gets (trace s) ++ reqs /\
      paged_requests (base_url ++ "/repos/" ++ repo ++ "/releases")%string
        None None 1 reqs).
Proof.
  split; [|split].
  - unfold get_commits.
    rewrite (bind_Ret datetime_now _ s s (clock s) eq_refl).
    apply get_commits_loop_requests.
  - unfold get_issues.
    rewrite (bind_Ret datetime_now _ s s (clock s) eq_refl).
    apply get_issues_loop_requests.
  - unfold get_releases. apply get_releases_loop_requests.
Qed.

(** ** The data files *)

Lemma insert_newest_perm (mtime : string -> Q) (f : string)
    (l : list string) :
  Permutation (f :: l) (insert_newest mtime f l).
Proof.
  induction l as [|g l IH]; simpl; [reflexivity|].
  destruct (Qle_bool (mtime g) (mtime f)); [reflexivity|].
  rewrite perm_swap. now constructor.
Qed.

Lemma sorted_newest_first_perm (mtime : string -> Q) (l : list string) :
  Permutation l (sorted_newest_first mtime l).
Proof.
  induction l as [|f l IH]; simpl; [constructor|].
  rewrite <- insert_newest_perm. now constructor.
Qed.

Lemma insert_newest_sorted (mtime : string -> Q) (f : string)
    (l : list string) :
  Sorted (not_newer mtime) l -> Sorted (not_newer mtime) (insert_newest mtime f l).
Proof.
  induction 1 as [|g l Hl IH Hhd]; simpl.
  - repeat constructor.
  - destruct (Qle_bool (mtime g) (mtime f)) eqn:Hle.
    + apply Qle_bool_iff in Hle. repeat constructor; assumption.
    + assert (Hlt : (mtime f < mtime g)%Q).
      { apply Qnot_le_lt. intros H. apply Qle_bool_iff in H. congruence. }
      constructor; [exact IH|].
      destruct Hhd as [|h l Hh]; simpl.
      * constructor. unfold not_newer. lra.
      * destruct (Qle_bool (mtime h) (mtime f)); constructor;
          [unfold not_newer; lra | assumption].
Qed.

Lemma sorted_newest_first_sorted (mtime : string -> Q) (l : list string) :
  Sorted (not_newer mtime) (sorted_newest_first mtime l).
Proof.
  induction l as [|f l IH]; simpl; [constructor|].
  now apply insert_newest_sorted.
Qed.

Lemma insert_newest_ties (mtime : string -> Q) (f : string)
    (l : list string) (t : Q) :
  filter (fun x => Qeq_bool (mtime x) t) (insert_newest mtime f l)
  = filter (fun x => Qeq_bool (mtime x) t) (f :: l).
Proof.
  induction l as [|g l IH]; [reflexivity|].
  cbn [insert_newest].
  destruct (Qle_bool (mtime g) (mtime f)) eqn:Hle; [reflexivity|].
  assert (Hlt : (mtime f < mtime g)%Q).
  { apply Qnot_le_lt. intros H. apply Qle_bool_iff in H. congruence. }
  cbn [filter] in *. rewrite IH.
  destruct (Qeq_bool (mtime g) t) eqn:H1; [|reflexivity].
  apply Qeq_bool_iff in H1.
  destruct (Qeq_bool (mtime f) t) eqn:H2; [|reflexivity].
  apply Qeq_bool_iff in H2. lra.
Qed.

Lemma sorted_newest_first_ties (mtime : string -> Q) (l : list string)
    (t : Q) :
  filter (fun x => Qeq_bool (mtime x) t) (sorted_newest_first mtime l)
  = filter (fun x => Qeq_bool (mtime x) t) l.
Proof.
  induction l as [|f l IH]; [reflexivity|].
  cbn [sorted_newest_first]. rewrite insert_newest_ties. cbn [filter].
  now rewrite IH.
Qed.

(** X26: [get_latest_data_files] returns the path of every entry of the
    data directory whose name ends in [.json], and of no other, each as
    often as it is listed, newest first by modification time, files of
    equal time in the order of the listing.  Nothing is left out for its
    age: the [days] argument has no effect. *)
Theorem latest_data_files_are_all_json_files (dir : directory)
    (data_dir : string) (days : Z) :
  let files := get_latest_data_files dir data_dir days in
  let listed :=
    map (path_join data_dir) (filter (endswith ".json") (listdir dir)) in
  Permutation listed files /\
  Sorted (not_newer (getmtime dir)) files /\
  (forall t,
     filter (fun f => Qeq_bool (getmtime dir f) t) files
     = filter (fun f => Qeq_bool (getmtime dir f) t) listed) /\
  (forall name,
     In name (listdir dir) -> endswith ".json" name = true ->
     In (path_join data_dir name) files) /\
  (forall path,
     In path files ->
     exists name, In name (listdir dir) /\ endswith ".json" name = true /\
                  path = path_join data_dir name) /\
  (forall days', get_latest_data_files dir data_dir days' = files).
Proof.
  intros files listed.
  assert (Hperm : Permutation listed files)
    by apply sorted_newest_first_perm.
  split; [exact Hperm|]. split; [apply sorted_newest_first_sorted|].
  split; [intros t; apply sorted_newest_first_ties|].
  split; [|split].
  - intros name Hin Hjson. apply (Permutation_in _ Hperm).
    apply in_map, filter_In. now split.
  - intros path Hin. apply (Permutation_in _ (Permutation_sym Hperm)) in Hin.
    apply in_map_iff in Hin. destruct Hin as (name & <- & Hname).
    apply filter_In in Hname. destruct Hname as [Hl Hj]. now exists name.
  - reflexivity.
Qed.

(** ** The documents of the vector store *)

Import VectorDb.

Lemma commit_record_shape (commit record : json) :
  commit_record commit = Ok record ->
  exists sha author date message html_url,
    record = JObj [("sha", sha); ("author", author); ("date", date);
                   ("message", message); ("url", html_url)].
Proof.
  intros H. unfold commit_record in H. rbind_inv H. injection H as <-.
  repeat eexists.
Qed.

Lemma rmap_total_types {A} (f : A -> result document) (xs : list A)
    (t : string) :
  Forall (fun x => exists d, f x = Ok d /\ document_type d = Some (JStr t))
         xs ->
  exists docs,
    rmap f xs = Ok docs /\
    List.length docs = List.length xs /\
    map document_type docs = repeat (Some (JStr t)) (List.length xs).
Proof.
  induction 1 as [|x xs (d & Hd & Ht) _ (docs & Hdocs & Hlen & Hty)].
  - exists []. now repeat split.
  - exists (d :: docs). simpl. rewrite Hd, Hdocs. repeat split.
    + now rewrite Hlen.
    + now rewrite Ht, Hty.
Qed.

Lemma normalized_commit_document (F : Summary.formats)
    (repo_name raw record : json) :
  commit_record raw = Ok record ->
  exists d, commit_document F repo_name record = Ok d /\
            document_type d = Some (JStr "commit").
Proof.
  intros H. apply commit_record_shape in H.
  destruct H as (sha & a & dt & m & h & ->). eexists. split; reflexivity.
Qed.

Lemma normalized_item_document (F : Summary.formats) (label type : string)
    (repo_name raw record : json) :
  issue_record raw = Ok record \/ pr_record raw = Ok record ->
  exists d, item_document F label type repo_name record = Ok d /\
            document_type d = Some (JStr type).
Proof.
  intros H.
  assert (Hshape :
    exists number title state created_at updated_at author labels html_url,
      record = JObj [("number", number); ("title", title); ("state", state);
                     ("created_at", created_at); ("updated_at", updated_at);
                     ("author", author); ("labels", labels);
                     ("url", html_url)]).
  { destruct H as [H|H];
      [apply issue_record_shape in H | apply pr_record_shape in H];
      destruct H as (n & ti & st & c & u & a & l & h & -> & _);
      repeat eexists. }
  destruct Hshape as (n & ti & st & c & u & a & l & h & ->).
  eexists. split; reflexivity.
Qed.

Lemma rmap_normalized {A} (f : json -> result json) (g : json -> result A)
    (P : A -> Prop) (raws records : list json) :
  (forall raw record, f raw = Ok record ->
     exists d, g record = Ok d /\ P d) ->
  rmap f raws = Ok records ->
  Forall (fun record => exists d, g record = Ok d /\ P d) records.
Proof.
  intros Hf H. apply rmap_Ok_inv in H.
  induction H as [|x y xs ys Hxy _ IH]; constructor; [|exact IH].
  exact (Hf x y Hxy).
Qed.

(** X27: the vector store gets one document per commit, per issue and per
    pull request of a collected snapshot, in that order, and none for its
    releases: over a snapshot [process_repo_data] has returned the
    documents are always built (no key is missing), they are as many as
    the snapshot's commits, issues and pull requests together, whatever
    their number, and each is of type commit, issue or pull_request. *)
Theorem snapshot_documents_leave_out_releases (E : env)
    (F : Summary.formats) (fuel : nat) (repo : string) (days : Z)
    (s s' : state) (d : json) :
  process_repo_data E fuel repo days s = Ret d s' ->
  exists commit_data issue_data pr_data docs,
    field "commits" d = Some (JArr commit_data) /\
    field "issues" d = Some (JArr issue_data) /\
    field "pull_requests" d = Some (JArr pr_data) /\
    repo_documents F d = Ok docs /\
    documents F [d] = Ok docs /\
    map document_type docs
    = repeat (Some (JStr "commit")) (List.length commit_data)
      ++ repeat (Some (JStr "issue")) (List.length issue_data)
      ++ repeat (Some (JStr "pull_request")) (List.length pr_data) /\
    List.length docs
    = (List.length commit_data + List.length issue_data
       + List.length pr_data)%nat.
Proof.
  intros Hrun. apply process_repo_data_snapshot in Hrun.
  destruct Hrun as (s3 & commits & prs & issues & releases & commit_data
                    & issue_data & pr_data & release_data & info & stamp
                    & _ & Hc & Hi & Hp & _ & ->).
  destruct (rmap_total_types (commit_document F (JStr repo)) commit_data
              "commit") as (cdocs & Hcd & Hcl & Hct).
  { apply (rmap_normalized commit_record _ _ commits); [|exact Hc].
    intros raw record. apply normalized_commit_document. }
  destruct (rmap_total_types
              (item_document F "Issue" "issue" (JStr repo)) issue_data
              "issue") as (idocs & Hid & Hil & Hit).
  { apply (rmap_normalized issue_record _ _ issues); [|exact Hi].
    intros raw record H. apply (normalized_item_document F _ _ _ raw).
    now left. }
  destruct (rmap_total_types
              (item_document F "Pull request" "pull_request" (JStr repo))
              pr_data "pull_request") as (pdocs & Hpd & Hpl & Hpt).
  { apply (rmap_normalized pr_record _ _ prs); [|exact Hp].
    intros raw record H. apply (normalized_item_document F _ _ _ raw).
    now right. }
  exists commit_data, issue_data, pr_data, (cdocs ++ idocs ++ pdocs).
  assert (Hdocs : repo_documents F
                    (JObj [("repo_name", JStr repo); ("repo_info", info);
                           ("commits", JArr commit_data);
                           ("issues", JArr issue_data);
                           ("pull_requests", JArr pr_data);
                           ("releases", JArr release_data);
                           ("time_period", JStr (time_period days));
                           ("collection_date", JStr stamp)])
                  = Ok (cdocs ++ idocs ++ pdocs)).
  { unfold repo_documents. simpl. rewrite Hcd. simpl. rewrite Hid. simpl.
    now rewrite Hpd. }
  do 3 (split; [reflexivity|]). split; [exact Hdocs|]. split; [|split].
  - unfold documents. cbn [rmap]. rewrite Hdocs. simpl.
    now rewrite app_nil_r.
  - now rewrite !map_app, Hct, Hit, Hpt.
  - rewrite !length_app. lia.
Qed.

Lemma snapshot_documents_leave_out_releases_witness :
  exists d s' docs,
    process_repo_data env_with_activity 3 "octocat/hello" 7 state_in_2024
      = Ret d s' /\
    documents Summary.iso_day [d] = Ok docs /\
    List.length docs = 2%nat.
Proof.
  destruct (process_repo_data env_with_activity 3 "octocat/hello" 7
              state_in_2024) as [d s'|e s'|] eqn:Hrun;
    [|vm_compute in Hrun; discriminate Hrun
     |vm_compute in Hrun; discriminate Hrun].
  destruct (snapshot_documents_leave_out_releases env_with_activity
              Summary.iso_day 3 "octocat/hello" 7 state_in_2024 s' d Hrun)
    as (cd & idata & pd & docs & Hc & Hi & Hp & _ & Hdocs & _ & Hlen).
  exists d, s', docs. split; [reflexivity|]. split; [exact Hdocs|].
  vm_compute in Hrun. injection Hrun as <- _.
  vm_compute in Hc, Hi, Hp.
  injection Hc as <-. injection Hi as <-. injection Hp as <-.
  exact Hlen.
Defined.
